(** * RAG over QA spreadsheets: ingestion and query pipeline

    A shallow embedding of [backend/ingest.py] and [backend/main.py]
    (with the filter builder of [backend/debug_query.py]) and the proofs
    of the properties stated about them.

    Layout:
    - [PyStr]   Python [str] values and the string methods the code calls;
    - [Json]    the decoder behind [json.loads];
    - [Ingest]  [_call_llm], [pairs_to_documents], the [qa_for_*] passes
                and [ingest], in a state-and-exception monad;
    - [Server]  the module state of [main.py], [_run_ingest] as a
                thread-interleaving step relation, and [query];
    - the theorems. *)

From Stdlib Require Import String Ascii Bool NArith ZArith Lia List.
Import ListNotations.

Set Implicit Arguments.

(* ===================================================================== *)
(** ** Python strings *)
(* ===================================================================== *)

Module PyStr.

(** A Python [str] is a sequence of Unicode code points. *)
Definition char := N.
Definition pystr := list char.

(** [py "abc"] is the Python literal ['abc'] (ASCII text only). *)
Definition py (s : string) : pystr :=
  map N_of_ascii (list_ascii_of_string s).

(** Code points that the sources name explicitly. *)
Definition NL : char := 10%N.          (* '\n' *)
Definition DQUOTE : char := 34%N.      (* the double quote *)
Definition LBRACKET : char := 91%N.    (* '['  *)
Definition RBRACKET : char := 93%N.    (* ']'  *)

Fixpoint str_eqb (a b : pystr) : bool :=
  match a, b with
  | [], [] => true
  | x :: a', y :: b' => (x =? y)%N && str_eqb a' b'
  | _, _ => false
  end.

(** [s.find(c)] for a one-character needle: the lowest index, or -1. *)
Fixpoint find_from (c : char) (s : pystr) (i : Z) : Z :=
  match s with
  | [] => (-1)%Z
  | x :: s' => if (x =? c)%N then i else find_from c s' (i + 1)%Z
  end.

Definition find (c : char) (s : pystr) : Z := find_from c s 0%Z.

(** [s.rfind(c)] for a one-character needle: the highest index, or -1. *)
Fixpoint rfind_from (c : char) (s : pystr) (i last : Z) : Z :=
  match s with
  | [] => last
  | x :: s' => rfind_from c s' (i + 1)%Z (if (x =? c)%N then i else last)
  end.

Definition rfind (c : char) (s : pystr) : Z := rfind_from c s 0%Z (-1)%Z.

(** [s[start:stop]] with Python's treatment of negative and
    out-of-range bounds. *)
Definition slice (s : pystr) (start stop : Z) : pystr :=
  let n := Z.of_nat (length s) in
  let clamp i := if (i <? 0)%Z then Z.max (i + n) 0 else Z.min i n in
  let a := clamp start in
  let b := clamp stop in
  firstn (Z.to_nat (b - a)) (skipn (Z.to_nat a) s).

(** [str.isspace] on one code point: the Unicode white space that
    [str.strip()] removes. *)
Definition isspace (c : char) : bool :=
  ((9 <=? c) && (c <=? 13) || (28 <=? c) && (c <=? 32)
   || (c =? 133) || (c =? 160) || (c =? 5760)
   || (8192 <=? c) && (c <=? 8202)
   || (c =? 8232) || (c =? 8233) || (c =? 8239) || (c =? 8287)
   || (c =? 12288))%N.

Fixpoint lstrip (s : pystr) : pystr :=
  match s with
  | [] => []
  | x :: s' => if isspace x then lstrip s' else s
  end.

Definition rstrip (s : pystr) : pystr := rev (lstrip (rev s)).

(** [s.strip()] *)
Definition strip (s : pystr) : pystr := rstrip (lstrip s).

(** [sep.join(parts)] *)
Fixpoint join (sep : pystr) (parts : list pystr) : pystr :=
  match parts with
  | [] => []
  | p :: ps =>
      match ps with
      | [] => p
      | _ :: _ => p ++ sep ++ join sep ps
      end
  end.

(** [s.endswith(suffix)] and [sub in s]. *)
Fixpoint startswith (s p : pystr) : bool :=
  match p, s with
  | [], _ => true
  | y :: p', x :: s' => (x =? y)%N && startswith s' p'
  | _ :: _, [] => false
  end.

Definition endswith (s suffix : pystr) : bool :=
  startswith (rev s) (rev suffix).

Fixpoint contains (s sub : pystr) : bool :=
  startswith s sub ||
  match s with
  | [] => false
  | _ :: s' => contains s' sub
  end.

End PyStr.
Export PyStr.

(* ===================================================================== *)
(** ** Exceptions and results *)
(* ===================================================================== *)

(** The exceptions that can leave the modelled functions.  The ones of
    external services are named after the call that raises them. *)
Inductive exn : Type :=
| RuntimeError          (* GROQ_API_KEY not set *)
| FileNotFoundError (pattern : pystr)   (* raised by [load] *)
| ReadExcelError        (* pd.read_excel *)
| DataShapeError        (* pandas, while a prompt is built *)
| GroqError             (* client.chat.completions.create *)
| JSONDecodeError       (* json.loads *)
| AttributeError        (* .get / .strip on a value without it *)
| TypeError
| EmbeddingsError       (* HuggingFaceEmbeddings(...) *)
| ChromaError.          (* Chroma(...) / Chroma.from_documents *)

Inductive result (A : Type) : Type :=
| Ok (a : A)
| Raise (e : exn).
Arguments Ok {A} a.
Arguments Raise {A} e.

(* ===================================================================== *)
(** ** json.loads *)
(* ===================================================================== *)

Module Json.

(** The Python value a JSON text decodes to.  A number keeps its lexeme
    (also [NaN], [Infinity] and [-Infinity], which Python accepts); an
    object is a [dict], kept in insertion order with one entry per key. *)
#[warnings="-register-all"]
Inductive json : Type :=
| JNull
| JBool (b : bool)
| JNumber (lexeme : pystr)
| JString (s : pystr)
| JArray (items : list json)
| JObject (members : list (pystr * json)).

(** [d.get(key)] *)
Fixpoint dict_get {V : Type} (d : list (pystr * V)) (key : pystr) : option V :=
  match d with
  | [] => None
  | (k, v) :: d' => if str_eqb k key then Some v else dict_get d' key
  end.

(** [d[key] = v]: overwrite in place, or append a new entry. *)
Fixpoint dict_set {V : Type} (d : list (pystr * V)) (key : pystr) (v : V)
  : list (pystr * V) :=
  match d with
  | [] => [(key, v)]
  | (k, x) :: d' =>
      if str_eqb k key then (k, v) :: d' else (k, x) :: dict_set d' key v
  end.

(** [dict(pairs)] *)
Definition dict_of_pairs {V : Type} (pairs : list (pystr * V))
  : list (pystr * V) :=
  fold_left (fun d kv => dict_set d (fst kv) (snd kv)) pairs [].

(** JSON white space: space, tab, line feed, carriage return. *)
Definition is_ws (c : char) : bool :=
  ((c =? 32) || (c =? 9) || (c =? 10) || (c =? 13))%N.

Fixpoint skip_ws (s : pystr) : pystr :=
  match s with
  | [] => []
  | c :: s' => if is_ws c then skip_ws s' else s
  end.

Definition is_digit (c : char) : bool := ((48 <=? c) && (c <=? 57))%N.

Fixpoint span_digits (s : pystr) : pystr * pystr :=
  match s with
  | [] => ([], [])
  | c :: s' =>
      if is_digit c
      then let '(ds, r) := span_digits s' in (c :: ds, r)
      else ([], s)
  end.

Definition hexval (c : char) : option N :=
  if ((48 <=? c) && (c <=? 57))%N then Some (c - 48)%N
  else if ((97 <=? c) && (c <=? 102))%N then Some (c - 87)%N
  else if ((65 <=? c) && (c <=? 70))%N then Some (c - 55)%N
  else None.

Definition hex4 (a b c d : char) : option N :=
  match hexval a, hexval b, hexval c, hexval d with
  | Some x, Some y, Some z, Some t =>
      Some (((x * 16 + y) * 16 + z) * 16 + t)%N
  | _, _, _, _ => None
  end.

(** The one-character escapes of a JSON string. *)
Definition unescape (c : char) : option char :=
  if (c =? 34)%N then Some 34%N           (* backslash, double quote *)
  else if (c =? 92)%N then Some 92%N      (* \\ *)
  else if (c =? 47)%N then Some 47%N      (* \/ *)
  else if (c =? 98)%N then Some 8%N       (* \b *)
  else if (c =? 102)%N then Some 12%N     (* \f *)
  else if (c =? 110)%N then Some 10%N     (* \n *)
  else if (c =? 114)%N then Some 13%N     (* \r *)
  else if (c =? 116)%N then Some 9%N      (* \t *)
  else None.

Definition is_high_surrogate (u : N) : bool :=
  ((55296 <=? u) && (u <=? 56319))%N.
Definition is_low_surrogate (u : N) : bool :=
  ((56320 <=? u) && (u <=? 57343))%N.
Definition join_surrogates (hi lo : N) : N :=
  (65536 + ((hi - 55296) * 1024 + (lo - 56320)))%N.

(** [scanstring] (strict mode), entered after the opening quote; [acc] is
    the decoded text so far, reversed.  [None] is a decode error. *)
Fixpoint scanstring (s : pystr) (acc : pystr) : option (pystr * pystr) :=
  match s with
  | [] => None                                       (* unterminated *)
  | c :: s1 =>
      if (c =? 34)%N then Some (rev acc, s1)
      else if (c =? 92)%N then
        match s1 with
        | [] => None
        | e :: s2 =>
            if (e =? 117)%N then                     (* \uXXXX *)
              match s2 with
              | h1 :: h2 :: h3 :: h4 :: s3 =>
                  match hex4 h1 h2 h3 h4 with
                  | None => None
                  | Some u =>
                      if is_high_surrogate u then
                        match s3 with
                        | b :: e2 :: g1 :: g2 :: g3 :: g4 :: s4 =>
                            if ((b =? 92) && (e2 =? 117))%N then
                              match hex4 g1 g2 g3 g4 with
                              | None => None
                              | Some u2 =>
                                  if is_low_surrogate u2
                                  then scanstring s4
                                         (join_surrogates u u2 :: acc)
                                  else scanstring s3 (u :: acc)
                              end
                            else scanstring s3 (u :: acc)
                        | _ => scanstring s3 (u :: acc)
                        end
                      else scanstring s3 (u :: acc)
                  end
              | _ => None
              end
            else
              match unescape e with
              | Some x => scanstring s2 (x :: acc)
              | None => None
              end
        end
      else if (c <? 32)%N then None                  (* control character *)
      else scanstring s1 (c :: acc)
  end.

(** A number: an optional minus sign; then a single zero, or a nonzero
    digit followed by digits; then optionally a dot with at least one
    digit; then optionally [e] or [E], an optional sign and at least one
    digit.  The longest match is taken; the result is the lexeme and the
    rest of the input. *)
Definition match_int (s : pystr) : option (pystr * pystr) :=
  match s with
  | c :: s' =>
      if (c =? 48)%N then Some ([c], s')
      else if is_digit c
      then let '(ds, r) := span_digits s' in Some (c :: ds, r)
      else None
  | [] => None
  end.

Definition match_frac (s : pystr) : pystr * pystr :=
  match s with
  | c :: s' =>
      if (c =? 46)%N then
        match span_digits s' with
        | ([], _) => ([], s)
        | (ds, r) => (c :: ds, r)
        end
      else ([], s)
  | [] => ([], s)
  end.

Definition match_exp (s : pystr) : pystr * pystr :=
  match s with
  | e :: s' =>
      if ((e =? 101) || (e =? 69))%N then
        let '(sign, s'') :=
          match s' with
          | g :: r => if ((g =? 43) || (g =? 45))%N then ([g], r) else ([], s')
          | [] => ([], s')
          end in
        match span_digits s'' with
        | ([], _) => ([], s)
        | (ds, r) => (e :: sign ++ ds, r)
        end
      else ([], s)
  | [] => ([], s)
  end.

Definition match_number (s : pystr) : option (pystr * pystr) :=
  let '(neg, s0) :=
    match s with
    | c :: r => if (c =? 45)%N then ([c], r) else ([], s)
    | [] => ([], s)
    end in
  match match_int s0 with
  | None => None
  | Some (ip, s1) =>
      let '(fp, s2) := match_frac s1 in
      let '(ep, s3) := match_exp s2 in
      Some (neg ++ ip ++ fp ++ ep, s3)
  end.

(** The input after a given first character. *)
Definition expect (c : char) (s : pystr) : option pystr :=
  match s with
  | x :: r => if (x =? c)%N then Some r else None
  | [] => None
  end.

(** A keyword at the head of the input. *)
Definition keyword (kw : string) (v : json) (s : pystr)
  : option (json * pystr) :=
  if startswith s (py kw)
  then Some (v, skipn (length (py kw)) s)
  else None.

Definition or_else {A : Type} (a b : option A) : option A :=
  match a with
  | Some _ => a
  | None => b
  end.

(** The values that hold no other value, but for strings: the three
    keywords, then a number, then the three names of special floats. *)
Definition scan_atom (s : pystr) : option (json * pystr) :=
  or_else (keyword "null" JNull s)
  (or_else (keyword "true" (JBool true) s)
  (or_else (keyword "false" (JBool false) s)
  (or_else
     match match_number s with
     | Some (lx, r) => Some (JNumber lx, r)
     | None => None
     end
  (or_else (keyword "NaN" (JNumber (py "NaN")) s)
  (or_else (keyword "Infinity" (JNumber (py "Infinity")) s)
           (keyword "-Infinity" (JNumber (py "-Infinity")) s)))))).

(** [scan_once], [JSONArray] and [JSONObject] of the decoder.  The three
    recurse through each other on the input; [fuel] bounds the number of
    nested calls.  [parse_array] is entered before an element,
    [parse_object] after the opening quote of a key. *)
Fixpoint scan_once (fuel : nat) (s : pystr) {struct fuel}
  : option (json * pystr) :=
  match fuel with
  | O => None
  | S f =>
      match s with
      | [] => None
      | c :: s' =>
          if (c =? 34)%N then
            match scanstring s' [] with
            | Some (str, r) => Some (JString str, r)
            | None => None
            end
          else if (c =? 123)%N then                  (* '{' *)
            match expect 125%N (skip_ws s') with
            | Some r => Some (JObject [], r)
            | None =>
                match expect 34%N (skip_ws s') with
                | Some r =>
                    match parse_object f r [] with
                    | Some (ms, r') => Some (JObject (dict_of_pairs ms), r')
                    | None => None
                    end
                | None => None
                end
            end
          else if (c =? 91)%N then                   (* '[' *)
            match expect 93%N (skip_ws s') with
            | Some r => Some (JArray [], r)
            | None =>
                match parse_array f (skip_ws s') [] with
                | Some (vs, r') => Some (JArray vs, r')
                | None => None
                end
            end
          else scan_atom s
      end
  end

with parse_array (fuel : nat) (s : pystr) (acc : list json) {struct fuel}
  : option (list json * pystr) :=
  match fuel with
  | O => None
  | S f =>
      match scan_once f s with
      | None => None
      | Some (v, r) =>
          match skip_ws r with
          | c :: r' =>
              if (c =? 93)%N then Some (rev (v :: acc), r')
              else if (c =? 44)%N then parse_array f (skip_ws r') (v :: acc)
              else None
          | [] => None
          end
      end
  end

with parse_object (fuel : nat) (s : pystr) (acc : list (pystr * json))
  {struct fuel} : option (list (pystr * json) * pystr) :=
  match fuel with
  | O => None
  | S f =>
      match scanstring s [] with
      | None => None
      | Some (key, r) =>
          match expect 58%N (skip_ws r) with           (* ':' *)
          | Some r1 =>
              match scan_once f (skip_ws r1) with
              | None => None
              | Some (v, r2) =>
                  match skip_ws r2 with
                  | c :: r3 =>
                      if (c =? 125)%N then Some (rev ((key, v) :: acc), r3)
                      else if (c =? 44)%N then
                        match expect 34%N (skip_ws r3) with
                        | Some r4 => parse_object f r4 ((key, v) :: acc)
                        | None => None
                        end
                      else None
                  | [] => None
                  end
              end
          | None => None
          end
      end
  end.

(** Every nested call consumes input, so twice the length of the text
    (and one more for the outer call) is enough fuel; see
    [json_loads_any_fuel] below. *)
Definition fuel_for (s : pystr) : nat := S (2 * length s).

(** [json.loads(s)]: one value between optional white space, nothing
    after it; a leading byte-order mark is refused. *)
Definition json_loads (s : pystr) : result json :=
  match expect 65279%N s with
  | Some _ => Raise JSONDecodeError
  | None =>
      match scan_once (fuel_for s) (skip_ws s) with
      | Some (v, r) =>
          match skip_ws r with
          | [] => Ok v
          | _ :: _ => Raise JSONDecodeError
          end
      | None => Raise JSONDecodeError
      end
  end.

End Json.
Export Json.


(* ===================================================================== *)
(** ** backend/ingest.py *)
(* ===================================================================== *)

Module Ingest.

(** A LangChain [Document]; the metadata values of this program are all
    strings. *)
Record Document : Type := mkDocument {
  page_content : pystr;
  metadata : list (pystr * pystr)
}.

(** A loaded spreadsheet: rows of (column, cell) pairs.  The program only
    hands it to pandas, which is outside the model. *)
Definition DataFrame := list (list (pystr * pystr)).

(** An entry of the docs directory; [fdata] is what [pd.read_excel]
    returns for it, [None] when it raises. *)
Record File : Type := mkFile {
  fname : pystr;
  fdata : option DataFrame
}.

(** What a run does to the outside, in order. *)
Inductive Event : Type :=
| EvChat (prompt : pystr)              (* client.chat.completions.create *)
| EvWarnNoArray                        (* the [warn] line of _call_llm *)
| EvRmtree                             (* shutil.rmtree(CHROMA_DIR) *)
| EvFromDocuments (docs : list Document).   (* Chroma.from_documents *)

(** The external services.  The prompts are f-strings over pandas
    summaries ([df_to_markdown], [defect_stats], [test_stats],
    [metadata_text]); they are [None] when pandas raises.  [groq_reply n p]
    is [msg.choices[0].message.content] of the [n]-th completion of the
    process, asked with user prompt [p], or [None] when the call raises. *)
Record World : Type := mkWorld {
  defects_prompt : DataFrame -> pystr -> pystr -> option pystr;
  tests_prompt : DataFrame -> pystr -> pystr -> option pystr;
  metadata_prompt : DataFrame -> pystr -> pystr -> option pystr;
  cross_release_prompt :
    DataFrame -> DataFrame -> DataFrame ->
    DataFrame -> DataFrame -> DataFrame -> option pystr;
  groq_reply : nat -> pystr -> option pystr;
  hf_embeddings_load : bool;
  chroma_from_documents : list Document -> bool
}.

(** What the process can read and change: the environment variable, the
    docs directory in the order [glob] lists it, the persisted collection
    under CHROMA_DIR ([None]: the directory does not exist), the number of
    completions requested so far, and the trace. *)
Record State : Type := mkState {
  GROQ_API_KEY : option pystr;
  DOCS_DIR : list File;
  CHROMA_DIR : option (list Document);
  llm_calls : nat;
  trace : list Event
}.

(** *** The monad: state passing, with exceptions *)

Definition M (A : Type) : Type := State -> result A * State.

Definition ret {A : Type} (a : A) : M A := fun st => (Ok a, st).

Definition bind {A B : Type} (m : M A) (k : A -> M B) : M B :=
  fun st =>
    match m st with
    | (Ok a, st') => k a st'
    | (Raise e, st') => (Raise e, st')
    end.

Definition raise {A : Type} (e : exn) : M A := fun st => (Raise e, st).

Definition lift {A : Type} (r : result A) : M A := fun st => (r, st).

Definition or_raise {A : Type} (o : option A) (e : exn) : M A :=
  match o with
  | Some a => ret a
  | None => raise e
  end.

(** The state with one more event on the trace. *)
Definition record (ev : Event) (st : State) : State :=
  mkState (GROQ_API_KEY st) (DOCS_DIR st) (CHROMA_DIR st)
          (llm_calls st) (trace st ++ [ev]).

Definition emit (ev : Event) : M unit :=
  fun st => (Ok tt, record ev st).

Notation "x <- m ;; k" := (bind m (fun x => k))
  (at level 61, m at next level, right associativity).
Notation "' pat <- m ;; k" := (bind m (fun x => match x with pat => k end))
  (at level 61, pat pattern, m at next level, right associativity).
Notation "m ;; k" := (bind m (fun _ => k))
  (at level 61, right associativity).

(** *** _call_llm *)

(** The state once one more completion was requested. *)
Definition chat_state (user_prompt : pystr) (st : State) : State :=
  mkState (GROQ_API_KEY st) (DOCS_DIR st) (CHROMA_DIR st)
          (S (llm_calls st)) (trace st ++ [EvChat user_prompt]).

(** [client.chat.completions.create(...)] and the content of its first
    choice. *)
Definition chat_completion (w : World) (user_prompt : pystr) : M pystr :=
  fun st =>
    match groq_reply w (llm_calls st) user_prompt with
    | Some content => (Ok content, chat_state user_prompt st)
    | None => (Raise GroqError, chat_state user_prompt st)
    end.

(** The value of [json.loads(raw[start:end])] as the list the caller
    iterates over.  The text handed over is empty or starts with a
    bracket, so a decoded value is always an array
    ([json_loads_bracket_array]); the last branch is there for
    totality. *)
Definition as_list (v : json) : result (list json) :=
  match v with
  | JArray items => Ok items
  | _ => Raise TypeError
  end.

Definition _call_llm (w : World) (user_prompt : pystr) : M (list json) :=
  content <- chat_completion w user_prompt ;;
  let raw := strip content in
  let start := find LBRACKET raw in
  let end_ := (rfind RBRACKET raw + 1)%Z in
  if (start =? -1)%Z || (end_ =? 0)%Z then
    emit EvWarnNoArray ;;
    ret []
  else
    v <- lift (json_loads (slice raw start end_)) ;;
    lift (as_list v).

(** *** pairs_to_documents *)

(** [pair.get(key, default).strip()], the default being the empty
    string. *)
Definition get_stripped (pr : json) (key : string) : result pystr :=
  match pr with
  | JObject members =>
      match dict_get members (py key) with
      | None => Ok (strip [])
      | Some (JString s) => Ok (strip s)
      | Some _ => Raise AttributeError
      end
  | _ => Raise AttributeError
  end.

(** Truth value of a [str]. *)
Definition truthy (s : pystr) : bool :=
  match s with
  | [] => false
  | _ :: _ => true
  end.

(** The loop of [pairs_to_documents]; [docs] is the list built so far. *)
Fixpoint pairs_to_documents_loop (pairs : list json)
  (md : list (pystr * pystr)) (docs : list Document)
  : result (list Document) :=
  match pairs with
  | [] => Ok docs
  | pr :: rest =>
      match get_stripped pr "question" with
      | Raise e => Raise e
      | Ok q =>
          match get_stripped pr "answer" with
          | Raise e => Raise e
          | Ok a =>
              if truthy q && truthy a then
                pairs_to_documents_loop rest md
                  (docs ++ [mkDocument (py "Q: " ++ q ++ [NL] ++ py "A: " ++ a)
                                       (dict_set md (py "question") q)])
              else pairs_to_documents_loop rest md docs
          end
      end
  end.

Definition pairs_to_documents (pairs : list json) (md : list (pystr * pystr))
  : result (list Document) :=
  pairs_to_documents_loop pairs md [].

(** *** The generation passes *)

Definition pass_metadata (source doc_type release : pystr)
  : list (pystr * pystr) :=
  [(py "source", source); (py "doc_type", doc_type); (py "release", release)].

Definition qa_for_defects (w : World) (df : DataFrame)
  (release filename : pystr) : M (list Document) :=
  prompt <- or_raise (defects_prompt w df release filename) DataShapeError ;;
  pairs <- _call_llm w prompt ;;
  lift (pairs_to_documents pairs
          (pass_metadata filename (py "defect") release)).

Definition qa_for_tests (w : World) (df : DataFrame)
  (release filename : pystr) : M (list Document) :=
  prompt <- or_raise (tests_prompt w df release filename) DataShapeError ;;
  pairs <- _call_llm w prompt ;;
  lift (pairs_to_documents pairs
          (pass_metadata filename (py "test_execution") release)).

Definition qa_for_metadata (w : World) (df : DataFrame)
  (release filename : pystr) : M (list Document) :=
  prompt <- or_raise (metadata_prompt w df release filename) DataShapeError ;;
  pairs <- _call_llm w prompt ;;
  lift (pairs_to_documents pairs
          (pass_metadata filename (py "metadata") release)).

Definition qa_cross_release (w : World)
  (defects_a tests_a meta_a defects_b tests_b meta_b : DataFrame)
  : M (list Document) :=
  prompt <- or_raise
              (cross_release_prompt w defects_a tests_a meta_a
                                      defects_b tests_b meta_b)
              DataShapeError ;;
  pairs <- _call_llm w prompt ;;
  lift (pairs_to_documents pairs
          (pass_metadata (py "cross_release") (py "comparison") (py "all"))).

(** *** ingest *)

(** [DOCS_DIR.glob] with the pattern star, [name], star, [.xlsx], on one
    file name: the name ends in [.xlsx] and [name] occurs before that suffix (the names asked for hold
    no wildcard; matching is case-sensitive). *)
Definition glob_match (name fn : pystr) : bool :=
  endswith fn (py ".xlsx") &&
  contains (firstn (length fn - length (py ".xlsx")) fn) name.

(** The local function [load] of [ingest]. *)
Definition load (name : string) : M (DataFrame * pystr) :=
  fun st =>
    let matches := filter (fun f => glob_match (py name) (fname f))
                          (DOCS_DIR st) in
    match matches with
    | [] => (Raise (FileNotFoundError (py name)), st)
    | f :: _ =>
        match fdata f with
        | Some df => (Ok (df, fname f), st)
        | None => (Raise ReadExcelError, st)
        end
    end.

(** [if CHROMA_DIR.exists(): shutil.rmtree(CHROMA_DIR)] *)
Definition clear_chroma : M unit :=
  fun st =>
    match CHROMA_DIR st with
    | Some _ =>
        (Ok tt, mkState (GROQ_API_KEY st) (DOCS_DIR st) None
                        (llm_calls st) (trace st ++ [EvRmtree]))
    | None => (Ok tt, st)
    end.

(** [HuggingFaceEmbeddings(model_name=EMBEDDING_MODEL)] *)
Definition load_embeddings (w : World) : M unit :=
  if hf_embeddings_load w then ret tt else raise EmbeddingsError.

(** [Chroma.from_documents(documents=all_docs, ...,
    persist_directory=str(CHROMA_DIR))]: one call that persists the whole
    list, or raises. *)
Definition from_documents (w : World) (all_docs : list Document) : M unit :=
  fun st =>
    let tr := trace st ++ [EvFromDocuments all_docs] in
    if chroma_from_documents w all_docs
    then (Ok tt, mkState (GROQ_API_KEY st) (DOCS_DIR st) (Some all_docs)
                         (llm_calls st) tr)
    else (Raise ChromaError, mkState (GROQ_API_KEY st) (DOCS_DIR st)
                                     (CHROMA_DIR st) (llm_calls st) tr).

Definition getenv_api_key : M (option pystr) :=
  fun st => (Ok (GROQ_API_KEY st), st).

Definition ingest (w : World) : M (list Document) :=
  api_key <- getenv_api_key ;;
  match api_key with
  | None | Some [] => raise RuntimeError
  | Some (_ :: _) =>
      (* --- Load all DataFrames up front --- *)
      '(defects_a, fn_da) <- load "ReleaseA_Defects" ;;
      '(tests_a, fn_ta) <- load "ReleaseA_TestExecution" ;;
      '(meta_a, fn_ma) <- load "ReleaseA_Meta" ;;
      '(defects_b, fn_db) <- load "ReleaseB_Defects" ;;
      '(tests_b, fn_tb) <- load "ReleaseB_TestExecution" ;;
      '(meta_b, fn_mb) <- load "ReleaseB_Meta" ;;
      let all_docs := [] in
      (* --- Pass 1: per-file Q&A --- *)
      d <- qa_for_defects w defects_a (py "ReleaseA") fn_da ;;
      let all_docs := all_docs ++ d in
      d <- qa_for_tests w tests_a (py "ReleaseA") fn_ta ;;
      let all_docs := all_docs ++ d in
      d <- qa_for_metadata w meta_a (py "ReleaseA") fn_ma ;;
      let all_docs := all_docs ++ d in
      d <- qa_for_defects w defects_b (py "ReleaseB") fn_db ;;
      let all_docs := all_docs ++ d in
      d <- qa_for_tests w tests_b (py "ReleaseB") fn_tb ;;
      let all_docs := all_docs ++ d in
      d <- qa_for_metadata w meta_b (py "ReleaseB") fn_mb ;;
      let all_docs := all_docs ++ d in
      (* --- Pass 2: cross-release comparison Q&A --- *)
      d <- qa_cross_release w defects_a tests_a meta_a
                              defects_b tests_b meta_b ;;
      let all_docs := all_docs ++ d in
      (* --- Clear stale DB and re-embed --- *)
      clear_chroma ;;
      load_embeddings w ;;
      from_documents w all_docs ;;
      ret all_docs
  end.

End Ingest.
Export Ingest.

(* ===================================================================== *)
(** ** backend/main.py *)
(* ===================================================================== *)

Module Server.

(** *** The metadata filter *)

(** One equality condition, the dict [{field: value}]. *)
Definition condition := (pystr * pystr)%type.

(** The [where] value: a single condition, or the [$and] of a list. *)
Inductive where_clause : Type :=
| WhereCond (c : condition)
| WhereAnd (filters : list condition).

(** Truth value of an optional string: [None] and the empty string are
    false. *)
Definition given (v : option pystr) : bool :=
  match v with
  | Some (_ :: _) => true
  | _ => false
  end.

Definition value_of (v : option pystr) : pystr :=
  match v with
  | Some s => s
  | None => []
  end.

(** The block shared by [query] (main.py) and [debug_query]
    (debug_query.py): collect the conditions, then compose them. *)
Definition build_where (release doc_type : option pystr)
  : option where_clause :=
  let filters := [] in
  let filters :=
    if given release
    then filters ++ [(py "release", value_of release)] else filters in
  let filters :=
    if given doc_type
    then filters ++ [(py "doc_type", value_of doc_type)] else filters in
  match filters with
  | [_; _] => Some (WhereAnd filters)
  | [c] => Some (WhereCond c)
  | _ => None
  end.

(** [v if v not in (None, "string") else None]: the Swagger UI
    placeholder is ignored. *)
Definition ignore_placeholder (v : option pystr) : option pystr :=
  match v with
  | None => None
  | Some s => if str_eqb s (py "string") then None else Some s
  end.

Record QueryRequest : Type := mkQueryRequest {
  question : pystr;
  release : option pystr;
  doc_type : option pystr;
  k : Z
}.

(** The filter [query] builds from a request. *)
Definition query_where (request : QueryRequest) : option where_clause :=
  build_where (ignore_placeholder (release request))
              (ignore_placeholder (doc_type request)).

(** The filter [debug_query] builds from its arguments. *)
Definition debug_query_where (release doc_type : option pystr)
  : option where_clause :=
  build_where release doc_type.

(** *** The query endpoint *)

Record SourceDocument : Type := mkSourceDocument {
  content : pystr;
  source_metadata : list (pystr * pystr)
}.

Record QueryResponse : Type := mkQueryResponse {
  answer : pystr;
  sources : list SourceDocument
}.

(** [search_kwargs]: always [k], and [filter] when a filter was built. *)
Record SearchKwargs : Type := mkSearchKwargs {
  kw_k : Z;
  kw_filter : option where_clause
}.

(** The services of the query path: the similarity search of an opened
    collection, the chain [PROMPT | llm | StrOutputParser()], and the
    [Chroma(...)] constructor.  [None] and [false] stand for a raised
    exception. *)
Record Retrieval : Type := mkRetrieval {
  similarity_search :
    list Document -> pystr -> SearchKwargs -> option (list Document);
  chain_invoke : pystr -> pystr -> option pystr;
  chroma_open : option (list Document) -> bool
}.

(** The module-level state.  A [vectorstore] handle is modelled by the
    collection it was opened on; [llm] records whether the ChatGroq handle
    is set; [sys] is what ingestion reads and writes. *)
Record Globals : Type := mkGlobals {
  vectorstore : option (list Document);
  llm : bool;
  _ingest_lock : bool;
  _ingest_running : bool;
  sys : State
}.

(** The answer of a handler: a response body, an [HTTPException], or an
    exception nobody caught. *)
Inductive http (A : Type) : Type :=
| Http200 (body : A)
| HTTPException (status_code : Z) (detail : pystr)
| Unhandled (e : exn).
Arguments Http200 {A} body.
Arguments HTTPException {A} status_code detail.
Arguments Unhandled {A} e.

Definition SEPARATOR : pystr := [NL; NL] ++ py "---" ++ [NL; NL].
Definition NO_DOCUMENTS : pystr := py "No relevant documents were found.".

(** The context block sent to the model. *)
Definition context_of (docs : list Document) : pystr :=
  match docs with
  | [] => NO_DOCUMENTS
  | _ :: _ => join SEPARATOR (map page_content docs)
  end.

Definition query (r : Retrieval) (g : Globals) (request : QueryRequest)
  : http QueryResponse :=
  match vectorstore g, llm g with
  | Some store, true =>
      if _ingest_running g then
        HTTPException 503
          (py "Ingestion in progress " ++ [8212%N] ++
           py " please retry shortly.")
      else
        let where_ := query_where request in
        let search_kwargs := mkSearchKwargs (k request) where_ in
        match similarity_search r store (question request) search_kwargs with
        | None => Unhandled ChromaError
        | Some docs =>
            let context := context_of docs in
            match chain_invoke r context (question request) with
            | None => Unhandled GroqError
            | Some answer =>
                Http200 (mkQueryResponse answer
                           (map (fun doc =>
                                   mkSourceDocument (page_content doc)
                                                    (metadata doc))
                                docs))
            end
        end
  | _, _ => HTTPException 503 (py "Service not ready.")
  end.

(** *** Background ingestion *)

(** Where a thread running [_run_ingest] stands. *)
Inductive pc : Type :=
| AtAcquire                 (* before [_ingest_lock.acquire(blocking=False)] *)
| AtSetRunning              (* lock taken; before [_ingest_running = True] *)
| InIngest                  (* in the [try]: [ingest()] is executing *)
| AtReload (docs : list Document)   (* [ingest()] returned; before
                                       [_reload_vectorstore()] *)
| AtClearRunning (ok : bool)        (* in [finally]; [ok]: no exception *)
| AtRelease (ok : bool)             (* before [_ingest_lock.release()] *)
| Skipped                   (* returned: the lock was held *)
| Finished (ok : bool).     (* returned after the [finally] block *)

(** The process: the module state and the [_run_ingest] calls submitted to
    it, one per thread identifier. *)
Record Proc : Type := mkProc {
  globals : Globals;
  threads : nat -> pc
}.

Definition set_thread (ts : nat -> pc) (i : nat) (p : pc) : nat -> pc :=
  fun j => if Nat.eqb j i then p else ts j.

(** [_reload_vectorstore]: open the persisted collection (an absent
    directory is opened as an empty one). *)
Definition opened (c : option (list Document)) : list Document :=
  match c with
  | Some docs => docs
  | None => []
  end.

(** One statement of thread [i]. *)
Definition step (w : World) (r : Retrieval) (i : nat) (p : Proc) : Proc :=
  let g := globals p in
  let goto pc' g' := mkProc g' (set_thread (threads p) i pc') in
  match threads p i with
  | AtAcquire =>
      if _ingest_lock g
      then goto Skipped g
      else goto AtSetRunning
             (mkGlobals (vectorstore g) (llm g) true (_ingest_running g)
                        (sys g))
  | AtSetRunning =>
      goto InIngest
        (mkGlobals (vectorstore g) (llm g) (_ingest_lock g) true (sys g))
  | InIngest =>
      match ingest w (sys g) with
      | (Ok docs, st') =>
          goto (AtReload docs)
            (mkGlobals (vectorstore g) (llm g) (_ingest_lock g)
                       (_ingest_running g) st')
      | (Raise _, st') =>
          goto (AtClearRunning false)
            (mkGlobals (vectorstore g) (llm g) (_ingest_lock g)
                       (_ingest_running g) st')
      end
  | AtReload _ =>
      if chroma_open r (CHROMA_DIR (sys g))
      then goto (AtClearRunning true)
             (mkGlobals (Some (opened (CHROMA_DIR (sys g)))) (llm g)
                        (_ingest_lock g) (_ingest_running g) (sys g))
      else goto (AtClearRunning false) g
  | AtClearRunning ok =>
      goto (AtRelease ok)
        (mkGlobals (vectorstore g) (llm g) (_ingest_lock g) false (sys g))
  | AtRelease ok =>
      goto (Finished ok)
        (mkGlobals (vectorstore g) (llm g) false (_ingest_running g) (sys g))
  | Skipped => p
  | Finished _ => p
  end.

(** A schedule runs the threads it names, one statement each. *)
Definition run (w : World) (r : Retrieval) (sched : list nat) (p : Proc)
  : Proc :=
  fold_left (fun q i => step w r i q) sched p.

(** The process when the server starts serving: no [_run_ingest] has
    begun, the lock is free and the flag is down. *)
Definition boot (g : Globals) : Proc :=
  mkProc (mkGlobals (vectorstore g) (llm g) false false (sys g))
         (fun _ => AtAcquire).

(** A thread between a successful [acquire] and its [release]. *)
Definition holds_lock (p : pc) : bool :=
  match p with
  | AtSetRunning | InIngest | AtReload _ | AtClearRunning _ | AtRelease _ =>
      true
  | _ => false
  end.

(** A thread between [_ingest_running = True] and
    [_ingest_running = False]. *)
Definition flag_up (p : pc) : bool :=
  match p with
  | InIngest | AtReload _ | AtClearRunning _ => true
  | _ => false
  end.

End Server.
Export Server.

(* ===================================================================== *)
(** ** backend/main.py: the other handlers *)
(* ===================================================================== *)

Module Handlers.

(** POST /ingest.  The answer alone; when it is not the 409, the handler
    has added [_run_ingest] as a background task, which is a thread of
    [Proc] that has yet to take its first step. *)
Definition trigger_ingest (g : Globals) : http pystr :=
  if _ingest_running g
  then HTTPException 409 (py "Ingestion already in progress.")
  else Http200 (py "ingestion started " ++ [8212%N] ++
                py " call GET /health to check when complete.").

(** [enumerate(docs)], counting from [i]. *)
Fixpoint enumerate {A : Type} (i : Z) (l : list A) : list (Z * A) :=
  match l with
  | [] => []
  | x :: l' => (i, x) :: enumerate (i + 1)%Z l'
  end.

(** One entry of the list [retrieved] of GET /debug. *)
Record RetrievedEntry : Type := mkRetrievedEntry {
  rank : Z;
  entry_metadata : list (pystr * pystr);
  entry_content : pystr
}.

Record DebugResponse : Type := mkDebugResponse {
  total_docs_in_db : Z;
  queried : pystr;
  retrieved : list RetrievedEntry
}.

(** GET /debug: the count of the opened collection, then the eight
    nearest documents, no filter, no model. *)
Definition debug (r : Retrieval) (g : Globals) (q : pystr)
  : http DebugResponse :=
  match vectorstore g with
  | None => HTTPException 503 (py "Vectorstore not loaded.")
  | Some store =>
      let total := Z.of_nat (length store) in
      match similarity_search r store q (mkSearchKwargs 8 None) with
      | None => Unhandled ChromaError
      | Some docs =>
          Http200
            (mkDebugResponse total q
               (map (fun id => mkRetrievedEntry (fst id + 1)%Z
                                 (metadata (snd id)) (page_content (snd id)))
                    (enumerate 0 docs)))
      end
  end.

(** GET /health.  [total_docs] is [count() if vectorstore else 0]: zero
    without a handle, the size of the collection with one (a handle on
    an empty collection gives zero whichever way its truth value is
    read). *)
Record HealthResponse : Type := mkHealthResponse {
  status : pystr;
  chroma_ready : bool;
  total_docs : Z;
  ingest_running : bool;
  llm_model : pystr
}.

Definition LLM_MODEL : pystr := py "llama-3.3-70b-versatile".

Definition health (g : Globals) : HealthResponse :=
  mkHealthResponse
    (py "ok")
    (match vectorstore g with Some _ => true | None => false end)
    (match vectorstore g with
     | Some store => Z.of_nat (length store)
     | None => 0%Z
     end)
    (_ingest_running g)
    LLM_MODEL.

(** A watchdog event, as far as the handler looks at it. *)
Record FileSystemEvent : Type := mkFileSystemEvent {
  is_directory : bool;
  src_path : pystr
}.

(** [DocsChangeHandler._handle], which [on_created] and [on_modified]
    both call: whether [_run_ingest] is submitted to the executor. *)
Definition _handle (event : FileSystemEvent) : bool :=
  negb (is_directory event) && endswith (src_path event) (py ".xlsx").

(** The part of [lifespan] before the [yield].  [chat_groq] tells whether
    the [ChatGroq(...)] constructor returns; the observer it starts has no
    state of its own here. *)
Definition startup (w : World) (r : Retrieval) (chat_groq : bool)
  (g : Globals) : result unit * Globals :=
  match GROQ_API_KEY (sys g) with
  | None | Some [] => (Raise RuntimeError, g)
  | Some (_ :: _) =>
      if hf_embeddings_load w then
        let ingested :=
          match CHROMA_DIR (sys g) with
          | None =>
              match ingest w (sys g) with
              | (Ok _, st') => (Ok tt, st')
              | (Raise e, st') => (Raise e, st')
              end
          | Some _ => (Ok tt, sys g)
          end in
        match ingested with
        | (Raise e, st') =>
            (Raise e, mkGlobals (vectorstore g) (llm g) (_ingest_lock g)
                                (_ingest_running g) st')
        | (Ok _, st') =>
            if chroma_open r (CHROMA_DIR st') then
              let store := Some (opened (CHROMA_DIR st')) in
              if chat_groq
              then (Ok tt, mkGlobals store true (_ingest_lock g)
                                     (_ingest_running g) st')
              else (Raise GroqError,
                    mkGlobals store (llm g) (_ingest_lock g)
                              (_ingest_running g) st')
            else
              (Raise ChromaError,
               mkGlobals (vectorstore g) (llm g) (_ingest_lock g)
                         (_ingest_running g) st')
        end
      else (Raise EmbeddingsError, g)
  end.

(** The part of [lifespan] after the [yield]. *)
Definition shutdown (g : Globals) : Globals :=
  mkGlobals None false (_ingest_lock g) (_ingest_running g) (sys g).

End Handlers.
Export Handlers.

(* ===================================================================== *)
(** ** backend/debug_query.py *)
(* ===================================================================== *)

Module DebugQuery.

(** What the script calls: the embedding model, the [Chroma(...)]
    constructor and the scored search.  [Score] is the type of the
    distances. *)
Record Services (Score : Type) : Type := mkServices {
  embeddings_load : bool;
  store_open : bool;
  similarity_search_with_score :
    list Document -> pystr -> SearchKwargs ->
    option (list (Document * Score))
}.
Arguments mkServices {Score} _ _ _.
Arguments embeddings_load {Score} _.
Arguments store_open {Score} _.
Arguments similarity_search_with_score {Score} _ _ _ _.

(** What a run of [debug_query] reports. *)
Inductive Outcome (Score : Type) : Type :=
| NoDatabase                          (* ChromaDB not found *)
| EmptyDatabase                       (* ChromaDB is empty *)
| Raised (e : exn)
| Report (total : nat) (results : list (Document * Score))
         (context : pystr).
Arguments NoDatabase {Score}.
Arguments EmptyDatabase {Score}.
Arguments Raised {Score} e.
Arguments Report {Score} total results context.

(** The text printed under FULL CONTEXT PASSED TO LLM. *)
Definition debug_context {Score : Type} (results : list (Document * Score))
  : pystr :=
  match results with
  | [] => py "No relevant documents were found."
  | _ :: _ =>
      join ([NL; NL] ++ py "---" ++ [NL; NL])
           (map (fun ds => page_content (fst ds)) results)
  end.

Definition debug_query {Score : Type} (sv : Services Score)
  (chroma : option (list Document)) (question : pystr)
  (release doc_type : option pystr) (k : Z) : Outcome Score :=
  match chroma with
  | None => NoDatabase
  | Some collection =>
      if embeddings_load sv then
        if store_open sv then
          let total := length collection in
          if Nat.eqb total 0 then EmptyDatabase
          else
            let where_ := debug_query_where release doc_type in
            let search_kwargs := mkSearchKwargs k where_ in
            match similarity_search_with_score sv collection question
                    search_kwargs with
            | None => Raised ChromaError
            | Some results => Report total results (debug_context results)
            end
        else Raised ChromaError
      else Raised EmbeddingsError
  end.

End DebugQuery.
Export DebugQuery.

(* ===================================================================== *)
(** ** Vocabulary of the statements *)
(* ===================================================================== *)

(** ['...'] with every apostrophe read as a double quote: a way to write
    JSON text in a literal. *)
Definition pyq (s : string) : pystr :=
  map (fun c => if (c =? 39)%N then DQUOTE else c) (py s).

(** The array a bracketed text decodes to, when it does. *)
Definition parsed_array (text : pystr) : result (list json) :=
  match json_loads text with
  | Ok v => as_list v
  | Raise e => Raise e
  end.

(** A well-typed question/answer pair, and the [dict] that carries it. *)
Record QAPair : Type := mkQAPair {
  qa_question : pystr;
  qa_answer : pystr
}.

Definition pair_value (p : QAPair) : json :=
  JObject [(py "question", JString (qa_question p));
           (py "answer", JString (qa_answer p))].

(** A pair is kept when both trimmed fields are non-empty. *)
Definition kept (p : QAPair) : bool :=
  truthy (strip (qa_question p)) && truthy (strip (qa_answer p)).

(** The document a kept pair is packaged into. *)
Definition packaged (md : list (pystr * pystr)) (p : QAPair) : Document :=
  mkDocument
    (py "Q: " ++ strip (qa_question p) ++ [NL] ++
     py "A: " ++ strip (qa_answer p))
    (dict_set md (py "question") (strip (qa_question p))).

(** The reply quoted in the description of the extraction. *)
Definition noisy_reply : pystr :=
  pyq "Sure, here it is: [{'question':'Q1','answer':'A1'}] thanks!".

(** A world for examples: fixed prompts, scripted replies (the [n]-th
    completion answers [reply n]), and services that do not fail. *)
Definition scripted_world (reply : nat -> option pystr) : World :=
  mkWorld (fun _ release _ => Some (py "defects of " ++ release))
          (fun _ release _ => Some (py "tests of " ++ release))
          (fun _ release _ => Some (py "metadata of " ++ release))
          (fun _ _ _ _ _ _ => Some (py "comparison"))
          (fun n _ => reply n)
          true
          (fun _ => true).

(** A process state for examples: the key is set, nothing was asked of
    the model yet. *)
Definition fresh_state (docs : list File) (chroma : option (list Document))
  : State :=
  mkState (Some (py "gsk_example")) docs chroma 0 [].

(** The filter as the description of the builder words it: an input
    counts as supplied when it is a string other than the placeholder
    [string] and other than the empty string. *)
Definition supplied (v : option pystr) : option pystr :=
  match v with
  | Some (c :: s) =>
      if str_eqb (c :: s) (py "string") then None else Some (c :: s)
  | _ => None
  end.

(** An argument of [debug_query] counts when it is a non-empty string. *)
Definition nonempty (v : option pystr) : option pystr :=
  match v with
  | Some (c :: s) => Some (c :: s)
  | _ => None
  end.

Definition where_spec (release doc_type : option pystr)
  : option where_clause :=
  match release, doc_type with
  | None, None => None
  | Some r, None => Some (WhereCond (py "release", r))
  | None, Some d => Some (WhereCond (py "doc_type", d))
  | Some r, Some d =>
      Some (WhereAnd [(py "release", r); (py "doc_type", d)])
  end.

(** The source entry of a retrieved document. *)
Definition to_source (doc : Document) : SourceDocument :=
  mkSourceDocument (page_content doc) (metadata doc).

(** The condition under which [query] answers 503. *)
Definition unavailable (g : Globals) : Prop :=
  vectorstore g = None \/ llm g = false \/ _ingest_running g = true.

(** *** The phases of an ingestion run

    The description of the run speaks of the loading of the six datasets,
    of seven generation passes and of the rebuild of the index.  The
    definitions below name these phases; [ingest_phases] shows that
    [ingest] is their composition. *)

(** The six datasets and the names of the files they came from. *)
Record Loaded : Type := mkLoaded {
  defects_a : DataFrame; fn_da : pystr;
  tests_a : DataFrame;   fn_ta : pystr;
  meta_a : DataFrame;    fn_ma : pystr;
  defects_b : DataFrame; fn_db : pystr;
  tests_b : DataFrame;   fn_tb : pystr;
  meta_b : DataFrame;    fn_mb : pystr
}.

(** The patterns [ingest] asks [load] for, in order. *)
Definition dataset_names : list string :=
  ["ReleaseA_Defects"; "ReleaseA_TestExecution"; "ReleaseA_Meta";
   "ReleaseB_Defects"; "ReleaseB_TestExecution"; "ReleaseB_Meta"]%string.

(** The files of the docs directory that match a pattern. *)
Definition matching (name : string) (st : State) : list File :=
  filter (fun f => glob_match (py name) (fname f)) (DOCS_DIR st).

Definition load_all : M Loaded :=
  '(da, fda) <- load "ReleaseA_Defects" ;;
  '(ta, fta) <- load "ReleaseA_TestExecution" ;;
  '(ma, fma) <- load "ReleaseA_Meta" ;;
  '(db, fdb) <- load "ReleaseB_Defects" ;;
  '(tb, ftb) <- load "ReleaseB_TestExecution" ;;
  '(mb, fmb) <- load "ReleaseB_Meta" ;;
  ret (mkLoaded da fda ta fta ma fma db fdb tb ftb mb fmb).

(** One generation pass: build the prompt, ask the model, package. *)
Definition qa_pass (w : World)
  (job : option pystr * list (pystr * pystr)) : M (list Document) :=
  prompt <- or_raise (fst job) DataShapeError ;;
  pairs <- _call_llm w prompt ;;
  lift (pairs_to_documents pairs (snd job)).

(** The prompt and the metadata of the seven passes, in order. *)
Definition pass_table (w : World) (L : Loaded)
  : list (option pystr * list (pystr * pystr)) :=
  [ (defects_prompt w (defects_a L) (py "ReleaseA") (fn_da L),
     pass_metadata (fn_da L) (py "defect") (py "ReleaseA"));
    (tests_prompt w (tests_a L) (py "ReleaseA") (fn_ta L),
     pass_metadata (fn_ta L) (py "test_execution") (py "ReleaseA"));
    (metadata_prompt w (meta_a L) (py "ReleaseA") (fn_ma L),
     pass_metadata (fn_ma L) (py "metadata") (py "ReleaseA"));
    (defects_prompt w (defects_b L) (py "ReleaseB") (fn_db L),
     pass_metadata (fn_db L) (py "defect") (py "ReleaseB"));
    (tests_prompt w (tests_b L) (py "ReleaseB") (fn_tb L),
     pass_metadata (fn_tb L) (py "test_execution") (py "ReleaseB"));
    (metadata_prompt w (meta_b L) (py "ReleaseB") (fn_mb L),
     pass_metadata (fn_mb L) (py "metadata") (py "ReleaseB"));
    (cross_release_prompt w (defects_a L) (tests_a L) (meta_a L)
                            (defects_b L) (tests_b L) (meta_b L),
     pass_metadata (py "cross_release") (py "comparison") (py "all")) ].

(** Passes in sequence, each appending to [all_docs]. *)
Fixpoint run_passes (w : World)
  (jobs : list (option pystr * list (pystr * pystr)))
  (all_docs : list Document) : M (list Document) :=
  match jobs with
  | [] => ret all_docs
  | job :: jobs' =>
      d <- qa_pass w job ;;
      run_passes w jobs' (all_docs ++ d)
  end.

(** Everything [ingest] does before it touches CHROMA_DIR. *)
Definition generate (w : World) : M (list Document) :=
  api_key <- getenv_api_key ;;
  match api_key with
  | None | Some [] => raise RuntimeError
  | Some (_ :: _) =>
      L <- load_all ;;
      run_passes w (pass_table w L) []
  end.

(** The rebuild: discard, load the embedding model, write. *)
Definition commit (w : World) (all_docs : list Document)
  : M (list Document) :=
  clear_chroma ;;
  load_embeddings w ;;
  from_documents w all_docs ;;
  ret all_docs.

(** The events of the generation phase. *)
Definition generation_event (ev : Event) : Prop :=
  match ev with
  | EvChat _ | EvWarnNoArray => True
  | EvRmtree | EvFromDocuments _ => False
  end.

(** [st'] is [st] after some generation events: the environment, the
    docs directory and the persisted collection are the same. *)
Definition generated_from (st st' : State) : Prop :=
  GROQ_API_KEY st' = GROQ_API_KEY st /\
  DOCS_DIR st' = DOCS_DIR st /\
  CHROMA_DIR st' = CHROMA_DIR st /\
  (llm_calls st <= llm_calls st')%nat /\
  exists evs, trace st' = trace st ++ evs /\ Forall generation_event evs.

(** A docs directory for examples: one readable file per dataset. *)
Definition six_files : list File :=
  map (fun n => mkFile (py n) (Some []))
      ["QA_ReleaseA_Defects.xlsx"; "QA_ReleaseA_TestExecution.xlsx";
       "QA_ReleaseA_Metadata.xlsx"; "QA_ReleaseB_Defects.xlsx";
       "QA_ReleaseB_TestExecution.xlsx"; "QA_ReleaseB_Metadata.xlsx"]%string.

(** A collection persisted by an earlier run, for examples. *)
Definition old_index : list Document :=
  [mkDocument (py "Q: old" ++ [NL] ++ py "A: old")
              [(py "source", py "earlier.xlsx")]].

(** A reply with one well-formed pair. *)
Definition one_pair_reply : pystr :=
  pyq "[{'question': 'How many?', 'answer': 'Seven.'}]".

(** Services of the query path for examples: the search returns the
    first [k] documents of the collection, the chain answers with the
    context it was given. *)
Definition echo_retrieval : Retrieval :=
  mkRetrieval (fun store _ kw => Some (firstn (Z.to_nat (kw_k kw)) store))
              (fun context _ => Some context)
              (fun _ => true).

Definition two_docs : list Document :=
  [mkDocument (py "Q: one" ++ [NL] ++ py "A: 1")
              [(py "release", py "ReleaseA")];
   mkDocument (py "Q: two" ++ [NL] ++ py "A: 2")
              [(py "release", py "ReleaseB")]].

(** Module state for examples: both handles set. *)
Definition serving (store : list Document) (running : bool) : Globals :=
  mkGlobals (Some store) true running running
            (fresh_state six_files (Some store)).

(** A docs directory in which two files match the first pattern. *)
Definition ambiguous_files : list File :=
  mkFile (py "QA_ReleaseA_Defects.xlsx") (Some [])
  :: mkFile (py "QA_ReleaseA_Defects_v2.xlsx")
            (Some [[(py "Issue key", py "QA-1")]])
  :: tl six_files.

(** The exceptions of the loading phase. *)
Definition loading_error (e : exn) : Prop :=
  e = RuntimeError \/ e = ReadExcelError \/
  exists n, In n dataset_names /\ e = FileNotFoundError (py n).

(** What [load_all] returns on [six_files]. *)
Definition six_loaded : Loaded :=
  mkLoaded [] (py "QA_ReleaseA_Defects.xlsx")
           [] (py "QA_ReleaseA_TestExecution.xlsx")
           [] (py "QA_ReleaseA_Metadata.xlsx")
           [] (py "QA_ReleaseB_Defects.xlsx")
           [] (py "QA_ReleaseB_TestExecution.xlsx")
           [] (py "QA_ReleaseB_Metadata.xlsx").

(** A model whose third reply is bracketed but is not JSON; the other
    replies hold one pair each. *)
Definition third_reply_broken (n : nat) : option pystr :=
  if Nat.eqb n 2 then Some (py "Here you go: [oops] done.")
  else Some one_pair_reply.

(** A model whose third reply holds no array at all. *)
Definition third_reply_empty (n : nat) : option pystr :=
  if Nat.eqb n 2 then Some (py "I have nothing to add.")
  else Some one_pair_reply.

(** What holds of the process whatever the schedule: at most one thread
    is between acquire and release, the lock is taken exactly when there
    is one, the flag is up only while one is between setting and
    clearing it, and a thread about to reload sees the collection that
    its own [ingest()] persisted. *)
Definition single_flight (p : Proc) : Prop :=
  (forall i j, holds_lock (threads p i) = true ->
               holds_lock (threads p j) = true -> i = j) /\
  (forall i, holds_lock (threads p i) = true ->
             _ingest_lock (globals p) = true) /\
  (_ingest_lock (globals p) = true ->
   exists i, holds_lock (threads p i) = true) /\
  (_ingest_running (globals p) = true ->
   exists i, flag_up (threads p i) = true) /\
  (forall i docs, threads p i = AtReload docs ->
                  CHROMA_DIR (sys (globals p)) = Some docs).

(** The number of statements a thread still has to execute before it
    returns from [_run_ingest], once it holds the lock. *)
Definition statements_left (c : pc) : nat :=
  match c with
  | AtSetRunning => 5
  | InIngest => 4
  | AtReload _ => 3
  | AtClearRunning _ => 2
  | AtRelease _ => 1
  | AtAcquire | Skipped | Finished _ => 0
  end.

(** Thread [i] has returned from the [finally] block, the flag is down
    and the lock is free. *)
Definition completed (i : nat) (p : Proc) : Prop :=
  exists ok, threads p i = Finished ok /\
             _ingest_running (globals p) = false /\
             _ingest_lock (globals p) = false.

(** *** Elements of any shape handed to pairs_to_documents *)

(** The value under [key] is a string, or the key is missing. *)
Definition text_or_missing (members : list (pystr * json)) (key : string)
  : bool :=
  match dict_get members (py key) with
  | None | Some (JString _) => true
  | Some _ => false
  end.

(** The element is a dict whose question and answer, where present, are
    strings. *)
Definition is_pair_dict (pr : json) : bool :=
  match pr with
  | JObject members =>
      text_or_missing members "question" && text_or_missing members "answer"
  | _ => false
  end.

(** The trimmed text under [key]; empty when the key is missing. *)
Definition field (pr : json) (key : string) : pystr :=
  match pr with
  | JObject members =>
      match dict_get members (py key) with
      | Some (JString s) => strip s
      | _ => []
      end
  | _ => []
  end.

Definition keeps (pr : json) : bool :=
  truthy (field pr "question") && truthy (field pr "answer").

Definition document_of (md : list (pystr * pystr)) (pr : json) : Document :=
  mkDocument
    (py "Q: " ++ field pr "question" ++ [NL] ++ py "A: " ++ field pr "answer")
    (dict_set md (py "question") (field pr "question")).

(** No white space at either end. *)
Definition trimmed (s : pystr) : Prop :=
  match s with [] => True | c :: _ => isspace c = false end /\
  match rev s with [] => True | c :: _ => isspace c = false end.

(** Elements for examples: a dict without an answer, and a dict with an
    extra key and padded texts. *)
Definition loose_pairs : list json :=
  [JObject [(py "question", JString (py "no answer here?"))];
   JObject [(py "note", JNumber (py "1"));
            (py "answer", JString (py "  yes "));
            (py "question", JString (py " ok? "))]].

Definition defect_metadata : list (pystr * pystr) :=
  pass_metadata (py "QA_ReleaseA_Defects.xlsx") (py "defect") (py "ReleaseA").

(** *** The exceptions of a run, by phase *)

Definition key_is_set (st : State) : Prop :=
  exists c key, GROQ_API_KEY st = Some (c :: key).




(** The source, kind and release that each pass writes into its
    documents. *)
Definition pass_tags (L : Loaded) : list (pystr * pystr * pystr) :=
  [ (fn_da L, py "defect", py "ReleaseA");
    (fn_ta L, py "test_execution", py "ReleaseA");
    (fn_ma L, py "metadata", py "ReleaseA");
    (fn_db L, py "defect", py "ReleaseB");
    (fn_tb L, py "test_execution", py "ReleaseB");
    (fn_mb L, py "metadata", py "ReleaseB");
    (py "cross_release", py "comparison", py "all") ].

(** The metadata of the document is that of one of the seven passes,
    followed by its question. *)
Definition tagged_by (L : Loaded) (d : Document) : Prop :=
  exists src dt rel q,
    In (src, dt, rel) (pass_tags L) /\
    metadata d = [(py "source", src); (py "doc_type", dt);
                  (py "release", rel); (py "question", q)].



(** A world for examples in which the embedding model cannot be
    loaded. *)
Definition no_embeddings_world : World :=
  mkWorld (fun _ release _ => Some (py "defects of " ++ release))
          (fun _ release _ => Some (py "tests of " ++ release))
          (fun _ release _ => Some (py "metadata of " ++ release))
          (fun _ _ _ _ _ _ => Some (py "comparison"))
          (fun _ _ => Some one_pair_reply)
          false
          (fun _ => true).

(** *** The flag and the threads *)

(** While a thread is between setting and clearing the flag, the flag is
    up. *)
Definition flag_follows (p : Proc) : Prop :=
  forall i, flag_up (threads p i) = true ->
            _ingest_running (globals p) = true.

(** The same state over another docs directory. *)
Definition with_docs (files : list File) (st : State) : State :=
  mkState (GROQ_API_KEY st) files (CHROMA_DIR st) (llm_calls st) (trace st).

(** An action that neither reads nor writes the docs directory. *)
Definition ignores_docs {A : Type} (m : M A) : Prop :=
  forall d st, m (with_docs d st) = (fst (m st), with_docs d (snd (m st))).

(** [docs] is what some call of [ingest] returned. *)
Definition ingested (w : World) (docs : list Document) : Prop :=
  exists st st', ingest w st = (Ok docs, st').

(** The handle is the one the server started with, or a collection that
    an ingestion returned. *)
Definition handle_from (w : World) (v0 : option (list Document))
  (p : Proc) : Prop :=
  (vectorstore (globals p) = v0 \/
   exists docs, vectorstore (globals p) = Some docs /\ ingested w docs) /\
  (forall i docs, threads p i = AtReload docs -> ingested w docs).

(** Both handles set: the state in which [query] does not answer that
    the service is not ready. *)
Definition ready (g : Globals) : Prop :=
  vectorstore g <> None /\ llm g = true.

(** Module state before [lifespan] has run, for examples. *)
Definition cold (chroma : option (list Document)) : Globals :=
  mkGlobals None false false false (fresh_state six_files chroma).

(** A spreadsheet that no dataset pattern matches, for examples. *)
Definition unrelated_file : File :=
  mkFile (py "meeting_notes.xlsx") (Some [[(py "Topic", py "Budget")]]).

(** Scored search for examples: every document at distance zero. *)
Definition plain_scores : Services Z :=
  mkServices true true
    (fun collection _ kw =>
       Some (map (fun d => (d, 0%Z))
                 (firstn (Z.to_nat (kw_k kw)) collection))).

(* ===================================================================== *)
(** ** Properties of the string operations *)
(* ===================================================================== *)

Unset Implicit Arguments.

Section StringFacts.

Variable c : char.

Lemma find_from_absent (s : pystr) (i : Z) :
  ~ In c s -> find_from c s i = (-1)%Z.
Proof.
  revert i; induction s as [|x s IH]; intros i Hn; simpl; [reflexivity|].
  destruct (N.eqb_spec x c) as [->|_].
  - exfalso; apply Hn; left; reflexivity.
  - apply IH; intro H; apply Hn; right; exact H.
Qed.

Lemma find_from_first (pre rest : pystr) (i : Z) :
  ~ In c pre ->
  find_from c (pre ++ c :: rest) i = (i + Z.of_nat (length pre))%Z.
Proof.
  revert i; induction pre as [|x pre IH]; intros i Hn; simpl.
  - rewrite N.eqb_refl; lia.
  - destruct (N.eqb_spec x c) as [->|_].
    + exfalso; apply Hn; left; reflexivity.
    + rewrite IH; [lia|]. intro H; apply Hn; right; exact H.
Qed.

Lemma find_from_present (s : pystr) (i : Z) :
  In c s -> (i <= find_from c s i)%Z.
Proof.
  revert i; induction s as [|x s IH]; intros i Hin; simpl; [destruct Hin|].
  destruct (N.eqb_spec x c) as [->|Hne]; [lia|].
  destruct Hin as [->|Hin]; [congruence|].
  specialize (IH (i + 1)%Z Hin); lia.
Qed.

Lemma rfind_from_absent (s : pystr) (i last : Z) :
  ~ In c s -> rfind_from c s i last = last.
Proof.
  revert i last; induction s as [|x s IH]; intros i last Hn; simpl;
    [reflexivity|].
  destruct (N.eqb_spec x c) as [->|_].
  - exfalso; apply Hn; left; reflexivity.
  - apply IH; intro H; apply Hn; right; exact H.
Qed.

Lemma rfind_from_last (pre post : pystr) (i last : Z) :
  ~ In c post ->
  rfind_from c (pre ++ c :: post) i last = (i + Z.of_nat (length pre))%Z.
Proof.
  revert i last; induction pre as [|x pre IH]; intros i last Hn; simpl.
  - rewrite N.eqb_refl, rfind_from_absent by exact Hn; lia.
  - rewrite IH by exact Hn; lia.
Qed.

Lemma rfind_from_bounds (s : pystr) (i last : Z) :
  rfind_from c s i last = last \/ (i <= rfind_from c s i last)%Z.
Proof.
  revert i last; induction s as [|x s IH]; intros i last; simpl;
    [left; reflexivity|].
  destruct (N.eqb_spec x c) as [_|_].
  - right. destruct (IH (i + 1)%Z i) as [-> | H]; lia.
  - destruct (IH (i + 1)%Z last) as [-> | H]; [left; reflexivity | right; lia].
Qed.

Lemma rfind_from_present (s : pystr) (i last : Z) :
  In c s -> (i <= rfind_from c s i last)%Z.
Proof.
  revert i last; induction s as [|x s IH]; intros i last Hin; simpl;
    [destruct Hin|].
  destruct (N.eqb_spec x c) as [_|Hne].
  - destruct (rfind_from_bounds s (i + 1)%Z i) as [-> | H]; lia.
  - destruct Hin as [->|Hin]; [congruence|].
    specialize (IH (i + 1)%Z last Hin); lia.
Qed.

(** [find] answers -1 exactly when the character does not occur. *)
Lemma find_absent_iff (s : pystr) : find c s = (-1)%Z <-> ~ In c s.
Proof.
  unfold find; split.
  - intros E Hin. pose proof (find_from_present s 0%Z Hin). lia.
  - apply find_from_absent.
Qed.

Lemma rfind_absent_iff (s : pystr) : rfind c s = (-1)%Z <-> ~ In c s.
Proof.
  unfold rfind; split.
  - intros E Hin. pose proof (rfind_from_present s 0%Z (-1)%Z Hin). lia.
  - apply rfind_from_absent.
Qed.

End StringFacts.

Lemma skipn_length_app (A : Type) (l r : list A) :
  skipn (length l) (l ++ r) = r.
Proof. induction l as [|x l IH]; simpl; [reflexivity | exact IH]. Qed.

Lemma firstn_length_app (A : Type) (l r : list A) :
  firstn (length l) (l ++ r) = l.
Proof. induction l as [|x l IH]; simpl; [reflexivity | now rewrite IH]. Qed.

(** The slice between two positions of a three-part string. *)
Lemma slice_middle (pre mid post : pystr) :
  slice (pre ++ mid ++ post)
        (Z.of_nat (length pre))
        (Z.of_nat (length pre) + Z.of_nat (length mid)) = mid.
Proof.
  unfold slice. rewrite !length_app.
  destruct (Z.ltb_spec (Z.of_nat (length pre)) 0); [lia|].
  destruct (Z.ltb_spec (Z.of_nat (length pre) + Z.of_nat (length mid)) 0);
    [lia|].
  rewrite !Z.min_l by lia.
  replace (Z.of_nat (length pre) + Z.of_nat (length mid)
           - Z.of_nat (length pre))%Z with (Z.of_nat (length mid)) by lia.
  rewrite !Nat2Z.id, skipn_length_app, firstn_length_app. reflexivity.
Qed.

(** A slice whose stop does not exceed its start is empty. *)
Lemma slice_empty (s : pystr) (start stop : Z) :
  (0 <= stop <= start)%Z -> slice s start stop = [].
Proof.
  intros H. unfold slice.
  destruct (Z.ltb_spec start 0); [lia|].
  destruct (Z.ltb_spec stop 0); [lia|].
  replace (Z.to_nat _) with 0%nat by lia. reflexivity.
Qed.

Lemma str_eqb_eq (a b : pystr) : str_eqb a b = true <-> a = b.
Proof.
  revert b; induction a as [|x a IH]; intros [|y b]; simpl;
    try (split; [discriminate | congruence]); [tauto|].
  rewrite andb_true_iff, N.eqb_eq, IH. split.
  - intros [-> ->]; reflexivity.
  - intros E; inversion E; auto.
Qed.

Lemma str_eqb_refl (a : pystr) : str_eqb a a = true.
Proof. apply str_eqb_eq; reflexivity. Qed.

(* ===================================================================== *)
(** ** The decoder on bracketed text *)
(* ===================================================================== *)

Lemma json_loads_empty : json_loads [] = Raise JSONDecodeError.
Proof. reflexivity. Qed.

Lemma scan_once_bracket (f : nat) (rest : pystr) :
  scan_once (S f) (LBRACKET :: rest) =
  match expect 93%N (skip_ws rest) with
  | Some r => Some (JArray [], r)
  | None =>
      match parse_array f (skip_ws rest) [] with
      | Some (vs, r') => Some (JArray vs, r')
      | None => None
      end
  end.
Proof. reflexivity. Qed.

(** A text that starts with an opening bracket decodes to an array, or
    not at all. *)
Lemma json_loads_bracket_array (rest : pystr) (v : json) :
  json_loads (LBRACKET :: rest) = Ok v -> exists items, v = JArray items.
Proof.
  unfold json_loads, fuel_for.
  change (expect 65279%N (LBRACKET :: rest)) with (@None pystr).
  change (skip_ws (LBRACKET :: rest)) with (LBRACKET :: rest).
  rewrite scan_once_bracket.
  destruct (expect 93%N (skip_ws rest)) as [r|].
  - destruct (skip_ws r); intros E; inversion E; eauto.
  - destruct (parse_array _ _ _) as [[vs r]|]; [|discriminate].
    destruct (skip_ws r); intros E; inversion E; eauto.
Qed.

Lemma parsed_array_bracket (rest : pystr) :
  parsed_array (LBRACKET :: rest) =
  match json_loads (LBRACKET :: rest) with
  | Ok (JArray items) => Ok items
  | Ok _ => Raise JSONDecodeError
  | Raise e => Raise e
  end.
Proof.
  unfold parsed_array.
  destruct (json_loads (LBRACKET :: rest)) as [v|e] eqn:E; [|reflexivity].
  destruct (json_loads_bracket_array _ _ E) as [items ->]. reflexivity.
Qed.

(* ===================================================================== *)
(** ** The decoder never lacks fuel *)
(* ===================================================================== *)

Lemma skip_ws_length (s : pystr) : length (skip_ws s) <= length s.
Proof.
  induction s as [|c s IH]; simpl; [lia|].
  destruct (is_ws c); simpl; lia.
Qed.

Lemma expect_length (c : char) (s r : pystr) :
  expect c s = Some r -> length s = S (length r).
Proof.
  destruct s as [|x s]; simpl; [discriminate|].
  destruct (x =? c)%N; [|discriminate]. intros E; inversion E; reflexivity.
Qed.

Lemma scanstring_length_bounded (n : nat) :
  forall (s acc str r : pystr),
    length s <= n -> scanstring s acc = Some (str, r) -> length r < length s.
Proof.
  induction n as [|n IH]; intros s acc str r Hn H.
  - destruct s; [discriminate H | simpl in Hn; lia].
  - destruct s as [|c s1]; [discriminate H|]. simpl in Hn. simpl in H.
    destruct (c =? 34)%N.
    { inversion H; subst. simpl. lia. }
    destruct (c =? 92)%N.
    2:{ destruct (c <? 32)%N; [discriminate|].
        apply IH in H; [simpl; lia | lia]. }
    destruct s1 as [|e s2]; [discriminate|].
    destruct (e =? 117)%N.
    2:{ destruct (unescape e); [|discriminate].
        apply IH in H; [simpl; lia | simpl in Hn; lia]. }
    destruct s2 as [|h1 [|h2 [|h3 [|h4 s3]]]]; try discriminate.
    destruct (hex4 h1 h2 h3 h4) as [u|]; [|discriminate].
    simpl in Hn.
    assert (Hplain : forall x, scanstring s3 (x :: acc) = Some (str, r) ->
                     length r < length (c :: e :: h1 :: h2 :: h3 :: h4 :: s3)).
    { intros x Hx. apply IH in Hx; [simpl; lia | lia]. }
    destruct (is_high_surrogate u); [|exact (Hplain _ H)].
    destruct s3 as [|b [|e2 [|g1 [|g2 [|g3 [|g4 s4]]]]]];
      try exact (Hplain _ H).
    destruct ((b =? 92) && (e2 =? 117))%N; [|exact (Hplain _ H)].
    destruct (hex4 g1 g2 g3 g4) as [u2|]; [|discriminate].
    destruct (is_low_surrogate u2); [|exact (Hplain _ H)].
    apply IH in H; [simpl in *; lia | simpl in *; lia].
Qed.

Lemma scanstring_length (s acc str r : pystr) :
  scanstring s acc = Some (str, r) -> length r < length s.
Proof. apply (scanstring_length_bounded (length s)). lia. Qed.

Lemma span_digits_length (s : pystr) :
  length (snd (span_digits s)) <= length s.
Proof.
  induction s as [|c s IH]; simpl; [lia|].
  destruct (is_digit c); [|simpl; lia].
  destruct (span_digits s) as [ds r]. simpl in *. lia.
Qed.

Lemma match_number_length (s lx r : pystr) :
  match_number s = Some (lx, r) -> length r < length s.
Proof.
  unfold match_number.
  assert (Hint : forall t ip t1, match_int t = Some (ip, t1) ->
                 length t1 < length t).
  { intros [|c t] ip t1; simpl; [discriminate|].
    destruct (c =? 48)%N; [intros E; inversion E; lia|].
    destruct (is_digit c); [|discriminate].
    pose proof (span_digits_length t) as Hs.
    destruct (span_digits t) as [ds q]. intros E; inversion E; subst.
    simpl in Hs. lia. }
  assert (Hfrac : forall t, length (snd (match_frac t)) <= length t).
  { intros [|c t]; simpl; [lia|].
    destruct (c =? 46)%N; [|simpl; lia].
    pose proof (span_digits_length t) as Hs.
    destruct (span_digits t) as [[|d ds] q]; simpl in *; lia. }
  assert (Hexp : forall t, length (snd (match_exp t)) <= length t).
  { intros [|e t]; simpl; [lia|].
    destruct ((e =? 101) || (e =? 69))%N; [|simpl; lia].
    destruct t as [|g q].
    - simpl. lia.
    - destruct ((g =? 43) || (g =? 45))%N.
      + pose proof (span_digits_length q) as Hs.
        destruct (span_digits q) as [[|d ds] q']; simpl in *; lia.
      + pose proof (span_digits_length (g :: q)) as Hs.
        destruct (span_digits (g :: q)) as [[|d ds] q']; simpl in *; lia. }
  set (start := match s with
                | [] => ([], s)
                | c :: r0 => if (c =? 45)%N then ([c], r0) else ([], s)
                end).
  assert (Hstart : length (snd start) <= length s).
  { subst start. destruct s as [|c r0]; simpl; [lia|].
    destruct (c =? 45)%N; simpl; lia. }
  destruct start as [neg s0]. simpl in Hstart.
  destruct (match_int s0) as [[ip s1]|] eqn:Ei; [|discriminate].
  pose proof (Hint _ _ _ Ei) as H1.
  pose proof (Hfrac s1) as H2. destruct (match_frac s1) as [fp s2].
  pose proof (Hexp s2) as H3. destruct (match_exp s2) as [ep s3].
  simpl in *. intros E; inversion E; subst. lia.
Qed.

Lemma keyword_length (kw : string) (v v' : json) (s r : pystr) :
  0 < length (py kw) ->
  keyword kw v s = Some (v', r) -> length r < length s.
Proof.
  unfold keyword. intros Hk.
  destruct (startswith s (py kw)) eqn:Hs; [|discriminate].
  intros E; inversion E; subst. rewrite length_skipn.
  assert (length (py kw) <= length s).
  { clear - Hs. revert s Hs. induction (py kw) as [|y k IH]; intros s Hs.
    - simpl; lia.
    - destruct s as [|x s]; [discriminate|]. simpl in Hs.
      apply andb_true_iff in Hs. destruct Hs as [_ Hs].
      specialize (IH s Hs). simpl. lia. }
  lia.
Qed.

Lemma or_else_some (A : Type) (a b : option A) (x : A) :
  or_else a b = Some x -> a = Some x \/ b = Some x.
Proof. destruct a; simpl; auto. Qed.

Lemma scan_atom_length (s : pystr) (v : json) (r : pystr) :
  scan_atom s = Some (v, r) -> length r < length s.
Proof.
  unfold scan_atom. intros H.
  repeat (apply or_else_some in H; destruct H as [H|H]);
    try (apply keyword_length in H; [exact H | simpl; lia]).
  destruct (match_number s) as [[lx r0]|] eqn:E; [|discriminate].
  inversion H; subst. exact (match_number_length _ _ _ E).
Qed.

(** A successful call leaves less input than it was given. *)
Lemma decoder_consumes (n : nat) :
  (forall s v r, scan_once n s = Some (v, r) -> length r < length s) /\
  (forall s acc vs r,
     parse_array n s acc = Some (vs, r) -> length r < length s) /\
  (forall s acc ms r,
     parse_object n s acc = Some (ms, r) -> length r < length s).
Proof.
  induction n as [|n (IHv & IHa & IHo)];
    [repeat split; intros; discriminate|].
  split; [|split].
  - intros [|c s'] v r H; [discriminate|]. simpl in H.
    destruct (c =? 34)%N.
    { destruct (scanstring s' []) as [[str r0]|] eqn:E; [|discriminate].
      inversion H; subst. apply scanstring_length in E. simpl. lia. }
    destruct (c =? 123)%N.
    { pose proof (skip_ws_length s') as Hw.
      destruct (expect 125%N (skip_ws s')) as [r0|] eqn:E1.
      - inversion H; subst. apply expect_length in E1. simpl. lia.
      - destruct (expect 34%N (skip_ws s')) as [r0|] eqn:E2; [|discriminate].
        destruct (parse_object n r0 []) as [[ms r']|] eqn:E3; [|discriminate].
        inversion H; subst. apply expect_length in E2. apply IHo in E3.
        simpl. lia. }
    destruct (c =? 91)%N.
    { pose proof (skip_ws_length s') as Hw.
      destruct (expect 93%N (skip_ws s')) as [r0|] eqn:E1.
      - inversion H; subst. apply expect_length in E1. simpl. lia.
      - destruct (parse_array n (skip_ws s') []) as [[vs r']|] eqn:E3;
          [|discriminate].
        inversion H; subst. apply IHa in E3. simpl. lia. }
    exact (scan_atom_length _ _ _ H).
  - intros s acc vs r H. simpl in H.
    destruct (scan_once n s) as [[v r0]|] eqn:E; [|discriminate].
    apply IHv in E. pose proof (skip_ws_length r0) as Hw.
    destruct (skip_ws r0) as [|c r'] eqn:Es; [discriminate|].
    simpl in Hw.
    destruct (c =? 93)%N; [inversion H; subst; lia|].
    destruct (c =? 44)%N; [|discriminate].
    apply IHa in H. pose proof (skip_ws_length r'). lia.
  - intros s acc ms r H. simpl in H.
    destruct (scanstring s []) as [[key r0]|] eqn:E; [|discriminate].
    apply scanstring_length in E. pose proof (skip_ws_length r0) as Hw.
    destruct (expect 58%N (skip_ws r0)) as [r1|] eqn:E1; [|discriminate].
    apply expect_length in E1. pose proof (skip_ws_length r1) as Hw1.
    destruct (scan_once n (skip_ws r1)) as [[v r2]|] eqn:E2; [|discriminate].
    apply IHv in E2. pose proof (skip_ws_length r2) as Hw2.
    destruct (skip_ws r2) as [|c r3] eqn:Es; [discriminate|].
    simpl in Hw2.
    destruct (c =? 125)%N; [inversion H; subst; lia|].
    destruct (c =? 44)%N; [|discriminate].
    pose proof (skip_ws_length r3) as Hw3.
    destruct (expect 34%N (skip_ws r3)) as [r4|] eqn:E4; [|discriminate].
    apply expect_length in E4. apply IHo in H. lia.
Qed.

(** A call that succeeds with some fuel succeeds, with the same result,
    with any fuel of at least twice the length of its input (and one or
    two more). *)
Lemma decoder_fuel (n : nat) :
  (forall s x, scan_once n s = Some x ->
     forall m, 2 * length s + 1 <= m -> scan_once m s = Some x) /\
  (forall s acc x, parse_array n s acc = Some x ->
     forall m, 2 * length s + 2 <= m -> parse_array m s acc = Some x) /\
  (forall s acc x, parse_object n s acc = Some x ->
     forall m, 2 * length s <= m -> parse_object m s acc = Some x).
Proof.
  induction n as [|n (IHv & IHa & IHo)];
    [repeat split; intros; discriminate|].
  destruct (decoder_consumes n) as (Cv & Ca & Co).
  split; [|split].
  - intros [|c s'] x H m Hm; [discriminate|].
    destruct m as [|m]; [lia|]. simpl in H, Hm |- *.
    destruct (c =? 34)%N; [exact H|].
    destruct (c =? 123)%N.
    { pose proof (skip_ws_length s') as Hw.
      destruct (expect 125%N (skip_ws s')) as [r0|] eqn:E1; [exact H|].
      destruct (expect 34%N (skip_ws s')) as [r0|] eqn:E2; [|discriminate].
      destruct (parse_object n r0 []) as [[ms r']|] eqn:E3; [|discriminate].
      apply expect_length in E2.
      rewrite (IHo _ _ _ E3 m) by lia. exact H. }
    destruct (c =? 91)%N; [|exact H].
    pose proof (skip_ws_length s') as Hw.
    destruct (expect 93%N (skip_ws s')) as [r0|] eqn:E1; [exact H|].
    destruct (parse_array n (skip_ws s') []) as [[vs r']|] eqn:E3;
      [|discriminate].
    rewrite (IHa _ _ _ E3 m) by lia. exact H.
  - intros s acc x H m Hm. destruct m as [|m]; [lia|]. simpl in H |- *.
    destruct (scan_once n s) as [[v r0]|] eqn:E; [|discriminate].
    rewrite (IHv _ _ E m) by lia. apply Cv in E.
    pose proof (skip_ws_length r0) as Hw.
    destruct (skip_ws r0) as [|c r'] eqn:Es; [discriminate|].
    simpl in Hw.
    destruct (c =? 93)%N; [exact H|].
    destruct (c =? 44)%N; [|discriminate].
    pose proof (skip_ws_length r').
    apply (IHa _ _ _ H). lia.
  - intros s acc x H m Hm. simpl in H.
    destruct (scanstring s []) as [[key r0]|] eqn:E; [|discriminate].
    pose proof (scanstring_length _ _ _ _ E) as Hs.
    destruct m as [|m]; [lia|]. simpl. rewrite E.
    pose proof (skip_ws_length r0) as Hw.
    destruct (expect 58%N (skip_ws r0)) as [r1|] eqn:E1; [|discriminate].
    apply expect_length in E1. pose proof (skip_ws_length r1) as Hw1.
    destruct (scan_once n (skip_ws r1)) as [[v r2]|] eqn:E2; [|discriminate].
    rewrite (IHv _ _ E2 m) by lia. apply Cv in E2.
    pose proof (skip_ws_length r2) as Hw2.
    destruct (skip_ws r2) as [|c r3] eqn:Es; [discriminate|].
    simpl in Hw2.
    destruct (c =? 125)%N; [exact H|].
    destruct (c =? 44)%N; [|discriminate].
    pose proof (skip_ws_length r3) as Hw3.
    destruct (expect 34%N (skip_ws r3)) as [r4|] eqn:E4; [|discriminate].
    apply expect_length in E4.
    apply (IHo _ _ _ H). lia.
Qed.

(** The fuel [json_loads] gives the decoder is never the reason of a
    failure: a text that decodes with some fuel, with nothing but white
    space after the value, is decoded by [json_loads]. *)
Theorem json_loads_any_fuel (n : nat) (s : pystr) (v : json) (r : pystr) :
  expect 65279%N s = None ->
  scan_once n (skip_ws s) = Some (v, r) ->
  skip_ws r = [] ->
  json_loads s = Ok v.
Proof.
  intros Hbom H Hr. unfold json_loads, fuel_for. rewrite Hbom.
  destruct (decoder_fuel n) as (Fv & _).
  pose proof (skip_ws_length s) as Hw.
  rewrite (Fv _ _ H (S (2 * length s))) by lia.
  rewrite Hr. reflexivity.
Qed.

(** Conversely, more fuel never turns a decoded text into another
    value. *)
Theorem json_loads_fuel_exact (n : nat) (s : pystr) (x : json * pystr) :
  scan_once n (skip_ws s) = Some x ->
  scan_once (fuel_for s) (skip_ws s) = Some x.
Proof.
  intros H. destruct (decoder_fuel n) as (Fv & _).
  pose proof (skip_ws_length s) as Hw.
  apply (Fv _ _ H). unfold fuel_for. lia.
Qed.

(* ===================================================================== *)
(** ** _call_llm *)
(* ===================================================================== *)

(** What one call does, given the reply of the model. *)
Lemma call_llm_run (w : World) (prompt : pystr) (st : State) (content : pystr) :
  groq_reply w (llm_calls st) prompt = Some content ->
  _call_llm w prompt st =
  let raw := strip content in
  if ((find LBRACKET raw =? -1) || (rfind RBRACKET raw + 1 =? 0))%Z
  then (Ok [], record EvWarnNoArray (chat_state prompt st))
  else (parsed_array (slice raw (find LBRACKET raw) (rfind RBRACKET raw + 1)),
        chat_state prompt st).
Proof.
  intros E. unfold _call_llm, bind, chat_completion. rewrite E. cbv zeta.
  destruct (_ || _)%bool; [reflexivity|].
  unfold lift, parsed_array. destruct (json_loads _); reflexivity.
Qed.

Lemma call_llm_groq_error (w : World) (prompt : pystr) (st : State) :
  groq_reply w (llm_calls st) prompt = None ->
  _call_llm w prompt st = (Raise GroqError, chat_state prompt st).
Proof.
  intros E. unfold _call_llm, bind, chat_completion. rewrite E. reflexivity.
Qed.

(** The soft failure: a bracket is missing. *)
Lemma call_llm_no_bracket (w : World) (prompt : pystr) (st : State)
  (content : pystr) :
  groq_reply w (llm_calls st) prompt = Some content ->
  ~ In LBRACKET (strip content) \/ ~ In RBRACKET (strip content) ->
  _call_llm w prompt st =
  (Ok [], record EvWarnNoArray (chat_state prompt st)).
Proof.
  intros E H. rewrite (call_llm_run _ _ _ _ E). cbv zeta.
  destruct H as [H|H].
  - apply find_absent_iff in H. rewrite H. reflexivity.
  - apply rfind_absent_iff in H. rewrite H, orb_true_r. reflexivity.
Qed.

(** Both brackets, the first opening one before the last closing one:
    the text between them, brackets included, is decoded. *)
Lemma call_llm_bracketed (w : World) (prompt : pystr) (st : State)
  (content pre mid post : pystr) :
  groq_reply w (llm_calls st) prompt = Some content ->
  strip content = pre ++ LBRACKET :: mid ++ RBRACKET :: post ->
  ~ In LBRACKET pre -> ~ In RBRACKET post ->
  _call_llm w prompt st =
  (parsed_array (LBRACKET :: mid ++ [RBRACKET]), chat_state prompt st).
Proof.
  intros E Hraw Hpre Hpost. rewrite (call_llm_run _ _ _ _ E). cbv zeta.
  rewrite Hraw.
  assert (Hf : find LBRACKET (pre ++ LBRACKET :: mid ++ RBRACKET :: post)
               = Z.of_nat (length pre)).
  { unfold find. rewrite find_from_first by exact Hpre. lia. }
  assert (Hr : rfind RBRACKET (pre ++ LBRACKET :: mid ++ RBRACKET :: post)
               = (Z.of_nat (length pre) + Z.of_nat (length mid) + 1)%Z).
  { unfold rfind.
    replace (pre ++ LBRACKET :: mid ++ RBRACKET :: post)
      with ((pre ++ LBRACKET :: mid) ++ RBRACKET :: post)
      by (rewrite <- app_assoc; reflexivity).
    rewrite rfind_from_last by exact Hpost.
    rewrite length_app. cbn [length]. lia. }
  rewrite Hf, Hr.
  destruct (Z.eqb_spec (Z.of_nat (length pre)) (-1)); [lia|].
  destruct (Z.eqb_spec
              (Z.of_nat (length pre) + Z.of_nat (length mid) + 1 + 1) 0);
    [lia|].
  cbn [orb].
  replace (Z.of_nat (length pre) + Z.of_nat (length mid) + 1 + 1)%Z
    with (Z.of_nat (length pre)
          + Z.of_nat (length (LBRACKET :: mid ++ [RBRACKET])))%Z
    by (cbn [length]; rewrite length_app; cbn [length]; lia).
  replace (pre ++ LBRACKET :: mid ++ RBRACKET :: post)
    with (pre ++ (LBRACKET :: mid ++ [RBRACKET]) ++ post)
    by (cbn [app]; rewrite <- app_assoc; reflexivity).
  rewrite slice_middle. reflexivity.
Qed.

(** Both brackets, the last closing one before the first opening one:
    the slice is empty and the decoder raises. *)
Lemma call_llm_crossed (w : World) (prompt : pystr) (st : State)
  (content pre mid post : pystr) :
  groq_reply w (llm_calls st) prompt = Some content ->
  strip content = pre ++ RBRACKET :: mid ++ LBRACKET :: post ->
  ~ In LBRACKET (pre ++ RBRACKET :: mid) ->
  ~ In RBRACKET (mid ++ LBRACKET :: post) ->
  _call_llm w prompt st = (Raise JSONDecodeError, chat_state prompt st).
Proof.
  intros E Hraw Hpre Hpost. rewrite (call_llm_run _ _ _ _ E). cbv zeta.
  rewrite Hraw.
  assert (Hf : find LBRACKET (pre ++ RBRACKET :: mid ++ LBRACKET :: post)
               = (Z.of_nat (length pre) + 1 + Z.of_nat (length mid))%Z).
  { unfold find.
    replace (pre ++ RBRACKET :: mid ++ LBRACKET :: post)
      with ((pre ++ RBRACKET :: mid) ++ LBRACKET :: post)
      by (rewrite <- app_assoc; reflexivity).
    rewrite find_from_first by exact Hpre.
    rewrite length_app. cbn [length]. lia. }
  assert (Hr : rfind RBRACKET (pre ++ RBRACKET :: mid ++ LBRACKET :: post)
               = Z.of_nat (length pre)).
  { unfold rfind. rewrite rfind_from_last by exact Hpost. lia. }
  rewrite Hf, Hr.
  destruct (Z.eqb_spec (Z.of_nat (length pre) + 1 + Z.of_nat (length mid)) (-1));
    [lia|].
  destruct (Z.eqb_spec (Z.of_nat (length pre) + 1) 0); [lia|].
  cbn [orb]. rewrite slice_empty by lia. reflexivity.
Qed.

Lemma parsed_array_cases (rest : pystr) :
  (exists items, json_loads (LBRACKET :: rest) = Ok (JArray items) /\
                 parsed_array (LBRACKET :: rest) = Ok items) \/
  (exists e, json_loads (LBRACKET :: rest) = Raise e /\
             parsed_array (LBRACKET :: rest) = Raise e).
Proof.
  unfold parsed_array.
  destruct (json_loads (LBRACKET :: rest)) as [v|e] eqn:E.
  - destruct (json_loads_bracket_array _ _ E) as [items ->]. left; eauto.
  - right; eauto.
Qed.

Lemma record_neq (ev : Event) (st : State) : record ev st <> st.
Proof.
  intros E. apply (f_equal (fun x => length (trace x))) in E.
  unfold record in E; cbn in E. rewrite length_app in E. cbn in E. lia.
Qed.

(** C5.  For every reply of the model, [_call_llm] strips it and then:
    when the opening or the closing bracket is absent it returns the empty
    list and raises nothing; when the first opening bracket comes before
    the last closing one it decodes the text from the one through the
    other as a JSON array (the decoder yields an array or raises, nothing
    else).  For the reply
    [Sure, here it is: [{"question":"Q1","answer":"A1"}] thanks!] the
    result is the single pair Q1/A1, and a reply that holds no bracket
    yields the empty list. *)
Theorem call_llm_extracts_array :
  (forall (w : World) (prompt : pystr) (st : State) (content : pystr),
     groq_reply w (llm_calls st) prompt = Some content ->
     (~ In LBRACKET (strip content) \/ ~ In RBRACKET (strip content) ->
      fst (_call_llm w prompt st) = Ok []) /\
     (In LBRACKET (strip content) -> In RBRACKET (strip content) ->
      fst (_call_llm w prompt st)
      = parsed_array (slice (strip content)
                            (find LBRACKET (strip content))
                            (rfind RBRACKET (strip content) + 1))) /\
     (forall pre mid post : pystr,
        strip content = pre ++ LBRACKET :: mid ++ RBRACKET :: post ->
        ~ In LBRACKET pre -> ~ In RBRACKET post ->
        fst (_call_llm w prompt st)
        = parsed_array (LBRACKET :: mid ++ [RBRACKET]) /\
        ((exists items,
            json_loads (LBRACKET :: mid ++ [RBRACKET]) = Ok (JArray items) /\
            fst (_call_llm w prompt st) = Ok items) \/
         (exists e,
            json_loads (LBRACKET :: mid ++ [RBRACKET]) = Raise e /\
            fst (_call_llm w prompt st) = Raise e)))) /\
  (forall (w : World) (prompt : pystr) (st : State),
     groq_reply w (llm_calls st) prompt = Some noisy_reply ->
     fst (_call_llm w prompt st)
     = Ok [pair_value (mkQAPair (py "Q1") (py "A1"))]) /\
  (forall (w : World) (prompt : pystr) (st : State),
     groq_reply w (llm_calls st) prompt
     = Some (py "I could not produce any pairs.") ->
     fst (_call_llm w prompt st) = Ok []).
Proof.
  split; [|split].
  - intros w prompt st content E. split; [|split].
    + intros H. rewrite (call_llm_no_bracket _ _ _ _ E H). reflexivity.
    + intros Hl Hr. rewrite (call_llm_run _ _ _ _ E). cbv zeta.
      pose proof (find_from_present LBRACKET _ 0%Z Hl) as Hf.
      pose proof (rfind_from_present RBRACKET _ 0%Z (-1)%Z Hr) as Hb.
      fold (find LBRACKET (strip content)) in Hf.
      fold (rfind RBRACKET (strip content)) in Hb.
      destruct (Z.eqb_spec (find LBRACKET (strip content)) (-1)); [lia|].
      destruct (Z.eqb_spec (rfind RBRACKET (strip content) + 1) 0); [lia|].
      reflexivity.
    + intros pre mid post Hraw Hpre Hpost.
      rewrite (call_llm_bracketed _ _ _ _ _ _ _ E Hraw Hpre Hpost). cbn [fst].
      split; [reflexivity|].
      destruct (parsed_array_cases (mid ++ [RBRACKET]))
        as [(items & E1 & E2) | (e & E1 & E2)]; [left | right]; eauto.
  - intros w prompt st E. rewrite (call_llm_run _ _ _ _ E).
    vm_compute. reflexivity.
  - intros w prompt st E. rewrite (call_llm_run _ _ _ _ E).
    vm_compute. reflexivity.
Qed.

Lemma call_llm_extracts_array_witness :
  fst (_call_llm (scripted_world (fun _ => Some noisy_reply)) (py "prompt")
                 (fresh_state [] None))
  = parsed_array
      (LBRACKET :: pyq "{'question':'Q1','answer':'A1'}" ++ [RBRACKET])
  /\ fst (_call_llm (scripted_world (fun _ => Some noisy_reply)) (py "prompt")
                    (fresh_state [] None))
     = Ok [pair_value (mkQAPair (py "Q1") (py "A1"))]
  /\ fst (_call_llm (scripted_world (fun _ => Some (py "  no array here ]  ")))
                    (py "prompt") (fresh_state [] None))
     = Ok [].
Proof.
  split; [|split].
  - refine (proj1 (proj2 (proj2 (proj1 call_llm_extracts_array
              (scripted_world (fun _ => Some noisy_reply)) (py "prompt")
              (fresh_state [] None) noisy_reply eq_refl))
              (py "Sure, here it is: ")
              (pyq "{'question':'Q1','answer':'A1'}")
              (py " thanks!") eq_refl _ _)).
    + vm_compute. intuition discriminate.
    + vm_compute. intuition discriminate.
  - exact (proj1 (proj2 call_llm_extracts_array)
             (scripted_world (fun _ => Some noisy_reply)) (py "prompt")
             (fresh_state [] None) eq_refl).
  - refine (proj1 (proj1 call_llm_extracts_array
              (scripted_world (fun _ => Some (py "  no array here ]  ")))
              (py "prompt") (fresh_state [] None) _ eq_refl) _).
    left. vm_compute. intuition discriminate.
Defined.

(** C10.  The soft failure of [_call_llm] (the warning is printed and the
    empty list returned) happens exactly when the stripped reply lacks the
    opening bracket or lacks the closing bracket.  When both occur but the
    last closing bracket stands before the first opening one, the call
    does not return the empty list: the slice is empty, [json.loads]
    raises, and no warning is printed. *)
Theorem soft_failure_iff_bracket_absent
  (w : World) (prompt : pystr) (st : State) (content : pystr) :
  groq_reply w (llm_calls st) prompt = Some content ->
  (_call_llm w prompt st
   = (Ok [], record EvWarnNoArray (chat_state prompt st))
   <-> (~ In LBRACKET (strip content) \/ ~ In RBRACKET (strip content))) /\
  (forall pre mid post : pystr,
     strip content = pre ++ RBRACKET :: mid ++ LBRACKET :: post ->
     ~ In LBRACKET (pre ++ RBRACKET :: mid) ->
     ~ In RBRACKET (mid ++ LBRACKET :: post) ->
     slice (strip content) (find LBRACKET (strip content))
           (rfind RBRACKET (strip content) + 1) = [] /\
     _call_llm w prompt st = (Raise JSONDecodeError, chat_state prompt st)).
Proof.
  intros E. split; [split|].
  - intros H. rewrite (call_llm_run _ _ _ _ E) in H. cbv zeta in H.
    destruct (Z.eqb_spec (find LBRACKET (strip content)) (-1)) as [Hf|Hf].
    { left. apply find_absent_iff. exact Hf. }
    destruct (Z.eqb_spec (rfind RBRACKET (strip content) + 1) 0) as [Hr|Hr].
    { right. apply rfind_absent_iff. lia. }
    cbn [orb] in H. exfalso.
    apply (f_equal snd) in H. cbn [snd] in H.
    symmetry in H. exact (record_neq _ _ H).
  - apply call_llm_no_bracket. exact E.
  - intros pre mid post Hraw Hpre Hpost. split.
    + apply slice_empty. rewrite Hraw. split.
      * assert (In RBRACKET (pre ++ RBRACKET :: mid ++ LBRACKET :: post))
          by (apply in_or_app; right; left; reflexivity).
        pose proof (rfind_from_present RBRACKET _ 0%Z (-1)%Z H).
        unfold rfind. lia.
      * unfold find, rfind.
        rewrite rfind_from_last by exact Hpost.
        replace (pre ++ RBRACKET :: mid ++ LBRACKET :: post)
          with ((pre ++ RBRACKET :: mid) ++ LBRACKET :: post)
          by (rewrite <- app_assoc; reflexivity).
        rewrite find_from_first by exact Hpre.
        rewrite length_app. cbn [length]. lia.
    + exact (call_llm_crossed _ _ _ _ _ _ _ E Hraw Hpre Hpost).
Qed.

Lemma soft_failure_iff_bracket_absent_witness :
  _call_llm (scripted_world (fun _ => Some (py "] then ["))) (py "prompt")
            (fresh_state [] None)
  = (Raise JSONDecodeError, chat_state (py "prompt") (fresh_state [] None)).
Proof.
  refine (proj2 (proj2 (soft_failure_iff_bracket_absent
            (scripted_world (fun _ => Some (py "] then ["))) (py "prompt")
            (fresh_state [] None) (py "] then [") eq_refl)
            [] (py " then ") [] eq_refl _ _)).
  - vm_compute. intuition discriminate.
  - vm_compute. intuition discriminate.
Defined.

(* ===================================================================== *)
(** ** pairs_to_documents *)
(* ===================================================================== *)

Lemma get_stripped_question (p : QAPair) :
  get_stripped (pair_value p) "question" = Ok (strip (qa_question p)).
Proof. reflexivity. Qed.

Lemma get_stripped_answer (p : QAPair) :
  get_stripped (pair_value p) "answer" = Ok (strip (qa_answer p)).
Proof. reflexivity. Qed.

(** The loop appends, to what it was given, one document per kept pair,
    in order. *)
Lemma pairs_to_documents_loop_spec (md : list (pystr * pystr))
  (pairs : list QAPair) (docs : list Document) :
  pairs_to_documents_loop (map pair_value pairs) md docs
  = Ok (docs ++ map (packaged md) (filter kept pairs)).
Proof.
  revert docs; induction pairs as [|p pairs IH]; intros docs.
  - cbn. rewrite app_nil_r. reflexivity.
  - cbn [map pairs_to_documents_loop].
    rewrite get_stripped_question, get_stripped_answer.
    cbn [filter]. unfold kept at 1.
    destruct (truthy (strip (qa_question p)) && truthy (strip (qa_answer p))).
    + rewrite IH, <- app_assoc. reflexivity.
    + apply IH.
Qed.

(** C6.  For every list of question/answer pairs and every metadata
    dict, [pairs_to_documents] returns, in order, one document per pair
    whose trimmed question and trimmed answer are both non-empty; its
    content is [Q: ], the trimmed question, a line feed, [A: ] and the
    trimmed answer; every other pair is dropped.  Nothing is
    deduplicated: the number of documents is the number of kept pairs,
    and a kept pair given twice yields its document twice.  The input
    [{question: Q, answer: empty}, {question: Q2, answer: A2}] yields the
    one document of Q2/A2. *)
Theorem pairs_to_documents_keeps_nonempty :
  (forall (pairs : list QAPair) (md : list (pystr * pystr)),
     pairs_to_documents (map pair_value pairs) md
     = Ok (map (packaged md) (filter kept pairs))) /\
  (forall (md : list (pystr * pystr)) (p : QAPair),
     page_content (packaged md p)
     = py "Q: " ++ strip (qa_question p) ++ [NL] ++
       py "A: " ++ strip (qa_answer p)) /\
  (forall (pairs : list QAPair) (md : list (pystr * pystr)),
     exists docs,
       pairs_to_documents (map pair_value pairs) md = Ok docs /\
       length docs = length (filter kept pairs)) /\
  (forall (p : QAPair) (md : list (pystr * pystr)),
     pairs_to_documents [pair_value p; pair_value p] md
     = Ok (if kept p then [packaged md p; packaged md p] else [])) /\
  (forall md : list (pystr * pystr),
     pairs_to_documents
       [pair_value (mkQAPair (py "Q") []);
        pair_value (mkQAPair (py "Q2") (py "A2"))] md
     = Ok [mkDocument (py "Q: Q2" ++ [NL] ++ py "A: A2")
                      (dict_set md (py "question") (py "Q2"))]).
Proof.
  assert (main : forall pairs md,
             pairs_to_documents (map pair_value pairs) md
             = Ok (map (packaged md) (filter kept pairs))).
  { intros pairs md. unfold pairs_to_documents.
    rewrite pairs_to_documents_loop_spec. reflexivity. }
  split; [exact main|]. split; [reflexivity|]. split; [|split].
  - intros pairs md. eexists; split; [apply main|]. apply length_map.
  - intros p md. change [pair_value p; pair_value p]
      with (map pair_value [p; p]).
    rewrite main. cbn [filter]. destruct (kept p); reflexivity.
  - intros md.
    change [pair_value (mkQAPair (py "Q") []);
            pair_value (mkQAPair (py "Q2") (py "A2"))]
      with (map pair_value [mkQAPair (py "Q") []; mkQAPair (py "Q2") (py "A2")]).
    rewrite main. reflexivity.
Qed.

(* ===================================================================== *)
(** ** The filter of the query path *)
(* ===================================================================== *)

Lemma build_where_spec (release doc_type : option pystr) :
  build_where release doc_type
  = where_spec (nonempty release) (nonempty doc_type).
Proof.
  destruct release as [[|c s]|], doc_type as [[|c' s']|]; reflexivity.
Qed.

Lemma nonempty_ignore_placeholder (v : option pystr) :
  nonempty (ignore_placeholder v) = supplied v.
Proof.
  destruct v as [[|c s]|]; [reflexivity| |reflexivity].
  unfold ignore_placeholder, supplied.
  destruct (str_eqb (c :: s) (py "string")); reflexivity.
Qed.

(** C7.  The filter [query] builds is: nothing when neither release nor
    doc_type is supplied, the one equality condition when exactly one is,
    the [$and] of the two conditions (release first) when both are.  An
    input is supplied when it is a string that is neither the placeholder
    [string] nor empty; the placeholder is turned into an absent value
    before the conditions are composed.  The builder is a total function
    of its two inputs.  [debug_query] composes its conditions the same
    way, from its arguments as they are. *)
Theorem query_where_composition :
  (forall request : QueryRequest,
     query_where request
     = where_spec (supplied (release request)) (supplied (doc_type request))) /\
  (forall (q : pystr) (n : Z),
     query_where (mkQueryRequest q None None n) = None) /\
  (forall (q : pystr) (n : Z) (d : option pystr),
     query_where (mkQueryRequest q (Some (py "string")) d n)
     = query_where (mkQueryRequest q None d n)) /\
  (forall (q : pystr) (n : Z) (r : option pystr),
     query_where (mkQueryRequest q r (Some (py "string")) n)
     = query_where (mkQueryRequest q r None n)) /\
  (forall release doc_type : option pystr,
     debug_query_where release doc_type
     = where_spec (nonempty release) (nonempty doc_type)).
Proof.
  split; [|split; [|split; [|split]]].
  - intros request. unfold query_where.
    rewrite build_where_spec, !nonempty_ignore_placeholder. reflexivity.
  - reflexivity.
  - reflexivity.
  - reflexivity.
  - exact build_where_spec.
Qed.

(* ===================================================================== *)
(** ** The query endpoint *)
(* ===================================================================== *)

(** [join] puts the separator before every part but the first. *)
Lemma join_cons (sep p : pystr) (ps : list pystr) :
  join sep (p :: ps) = p ++ concat (map (fun x => sep ++ x) ps).
Proof.
  revert p; induction ps as [|p' ps IH]; intros p.
  - cbn. rewrite app_nil_r. reflexivity.
  - change (join sep (p :: p' :: ps)) with (p ++ sep ++ join sep (p' :: ps)).
    rewrite IH. cbn [map concat]. rewrite <- app_assoc. reflexivity.
Qed.

(** What [query] does once the service is available. *)
Lemma query_available (r : Retrieval) (g : Globals) (request : QueryRequest)
  (store : list Document) :
  vectorstore g = Some store -> llm g = true -> _ingest_running g = false ->
  query r g request =
  match similarity_search r store (question request)
          (mkSearchKwargs (k request) (query_where request)) with
  | None => Unhandled ChromaError
  | Some docs =>
      match chain_invoke r (context_of docs) (question request) with
      | None => Unhandled GroqError
      | Some answer => Http200 (mkQueryResponse answer (map to_source docs))
      end
  end.
Proof.
  intros Hv Hl Hr. unfold query. rewrite Hv, Hl, Hr. reflexivity.
Qed.

(** C8.  For every query that reaches retrieval, the context sent to the
    model is the content of the retrieved documents joined by two line
    feeds, three dashes and two line feeds, or the fixed sentence when
    nothing was retrieved; and the sources of the response are the
    retrieved documents, each with its content and metadata, in retrieval
    order, none added, dropped or moved. *)
Theorem query_context_and_sources
  (r : Retrieval) (g : Globals) (request : QueryRequest)
  (store docs : list Document) :
  vectorstore g = Some store -> llm g = true -> _ingest_running g = false ->
  similarity_search r store (question request)
    (mkSearchKwargs (k request) (query_where request)) = Some docs ->
  (* the answer is the one the chain gives for this context *)
  query r g request
  = match chain_invoke r (context_of docs) (question request) with
    | None => Unhandled GroqError
    | Some answer => Http200 (mkQueryResponse answer (map to_source docs))
    end /\
  (* the context *)
  (docs = [] -> context_of docs = py "No relevant documents were found.") /\
  (forall d ds, docs = d :: ds ->
     context_of docs
     = page_content d ++
       concat (map (fun x => [10; 10; 45; 45; 45; 10; 10]%N ++ page_content x)
                   ds)) /\
  (* the sources *)
  (forall answer srcs,
     query r g request = Http200 (mkQueryResponse answer srcs) ->
     length srcs = length docs /\
     map content srcs = map page_content docs /\
     map source_metadata srcs = map metadata docs /\
     forall i, nth_error srcs i = option_map to_source (nth_error docs i)).
Proof.
  intros Hv Hl Hr Hs.
  assert (Hq := query_available r g request store Hv Hl Hr).
  rewrite Hs in Hq. split; [exact Hq|]. split; [|split].
  - intros ->. reflexivity.
  - intros d ds ->. unfold context_of.
    cbn [map]. rewrite join_cons, map_map. reflexivity.
  - intros answer srcs E. rewrite Hq in E.
    destruct (chain_invoke r (context_of docs) (question request));
      [|discriminate].
    inversion E; subst. rewrite length_map, !map_map. cbn.
    repeat split; try reflexivity.
    intros i. apply nth_error_map.
Qed.

(* ===================================================================== *)
(** ** The phases of ingest *)
(* ===================================================================== *)

Lemma qa_for_defects_pass (w : World) (df : DataFrame) (rel fn : pystr) :
  qa_for_defects w df rel fn
  = qa_pass w (defects_prompt w df rel fn, pass_metadata fn (py "defect") rel).
Proof. reflexivity. Qed.

Lemma qa_for_tests_pass (w : World) (df : DataFrame) (rel fn : pystr) :
  qa_for_tests w df rel fn
  = qa_pass w (tests_prompt w df rel fn,
               pass_metadata fn (py "test_execution") rel).
Proof. reflexivity. Qed.

Lemma qa_for_metadata_pass (w : World) (df : DataFrame) (rel fn : pystr) :
  qa_for_metadata w df rel fn
  = qa_pass w (metadata_prompt w df rel fn,
               pass_metadata fn (py "metadata") rel).
Proof. reflexivity. Qed.

Lemma qa_cross_release_pass (w : World) (da ta ma db tb mb : DataFrame) :
  qa_cross_release w da ta ma db tb mb
  = qa_pass w (cross_release_prompt w da ta ma db tb mb,
               pass_metadata (py "cross_release") (py "comparison") (py "all")).
Proof. reflexivity. Qed.

Ltac case_load :=
  match goal with
  | |- context [load ?n ?s] =>
      destruct (load n s) as [[[? ?]|?] ?]; cbv beta iota; try reflexivity
  end.

Ltac as_pass :=
  match goal with
  | |- context [qa_for_defects ?w ?df ?rel ?fn ?s] =>
      rewrite (qa_for_defects_pass w df rel fn)
  | |- context [qa_for_tests ?w ?df ?rel ?fn ?s] =>
      rewrite (qa_for_tests_pass w df rel fn)
  | |- context [qa_for_metadata ?w ?df ?rel ?fn ?s] =>
      rewrite (qa_for_metadata_pass w df rel fn)
  | |- context [qa_cross_release ?w ?a ?b ?c ?d ?e ?f ?s] =>
      rewrite (qa_cross_release_pass w a b c d e f)
  end.

Ltac case_pass :=
  as_pass;
  match goal with
  | |- context [qa_pass ?w ?j ?s] =>
      destruct (qa_pass w j s) as [[?|?] ?]; cbv beta iota; try reflexivity
  end.

(** [ingest] is the generation phase followed by the rebuild. *)
Lemma ingest_phases (w : World) (st : State) :
  ingest w st = bind (generate w) (commit w) st.
Proof.
  unfold ingest, generate, load_all, getenv_api_key, bind.
  destruct (GROQ_API_KEY st) as [[|c key]|]; try reflexivity.
  do 6 case_load.
  unfold ret, pass_table, run_passes, bind.
  cbn [app fst snd defects_a fn_da tests_a fn_ta meta_a fn_ma
       defects_b fn_db tests_b fn_tb meta_b fn_mb].
  do 7 case_pass.
Qed.

(* ===================================================================== *)
(** ** The generation phase leaves the index alone *)
(* ===================================================================== *)

Lemma generated_from_refl (st : State) : generated_from st st.
Proof.
  repeat split; try reflexivity; try lia.
  exists []. rewrite app_nil_r. split; [reflexivity | constructor].
Qed.

Lemma generated_from_trans (a b c : State) :
  generated_from a b -> generated_from b c -> generated_from a c.
Proof.
  intros (K1 & D1 & C1 & N1 & e1 & T1 & F1) (K2 & D2 & C2 & N2 & e2 & T2 & F2).
  repeat split; try congruence; try lia.
  exists (e1 ++ e2). split.
  - rewrite T2, T1, app_assoc. reflexivity.
  - apply Forall_app; split; assumption.
Qed.

Lemma generated_from_chat (prompt : pystr) (st : State) :
  generated_from st (chat_state prompt st).
Proof.
  repeat split; try reflexivity; cbn; try lia.
  exists [EvChat prompt]. split; [reflexivity|]. repeat constructor.
Qed.

Lemma generated_from_warn (st : State) :
  generated_from st (record EvWarnNoArray st).
Proof.
  repeat split; try reflexivity; cbn; try lia.
  exists [EvWarnNoArray]. split; [reflexivity|]. repeat constructor.
Qed.

(** [load] reads and changes nothing. *)
Lemma load_state (name : string) (st : State) : snd (load name st) = st.
Proof.
  unfold load. destruct (filter _ _) as [|f fs]; [reflexivity|].
  destruct (fdata f); reflexivity.
Qed.

Lemma load_all_state (st : State) : snd (load_all st) = st.
Proof.
  unfold load_all, bind, ret.
  repeat match goal with
  | |- context [load ?n ?s] =>
      let H := fresh in
      pose proof (load_state n s) as H;
      destruct (load n s) as [[[? ?]|?] ?]; cbn [snd] in H; subst;
      cbv beta iota; try reflexivity
  end.
Qed.

(** One call of the model: one completion, generation events only. *)
Lemma call_llm_frame (w : World) (prompt : pystr) (st : State) :
  generated_from st (snd (_call_llm w prompt st)) /\
  llm_calls (snd (_call_llm w prompt st)) = S (llm_calls st).
Proof.
  destruct (groq_reply w (llm_calls st) prompt) as [content|] eqn:E.
  - rewrite (call_llm_run _ _ _ _ E). cbv zeta.
    destruct (_ || _)%bool; cbn [snd]; split; try reflexivity.
    + eapply generated_from_trans;
        [apply generated_from_chat | apply generated_from_warn].
    + apply generated_from_chat.
  - rewrite (call_llm_groq_error _ _ _ E). cbn [snd].
    split; [apply generated_from_chat | reflexivity].
Qed.

(** One pass: at most one completion, exactly one when it succeeds. *)
Lemma qa_pass_frame (w : World) (job : option pystr * list (pystr * pystr))
  (st : State) :
  generated_from st (snd (qa_pass w job st)) /\
  (llm_calls (snd (qa_pass w job st)) <= S (llm_calls st))%nat /\
  (forall docs, fst (qa_pass w job st) = Ok docs ->
     llm_calls (snd (qa_pass w job st)) = S (llm_calls st)).
Proof.
  unfold qa_pass, bind, or_raise.
  destruct (fst job) as [prompt|]; cbn [ret raise].
  - destruct (call_llm_frame w prompt st) as [G N].
    destruct (_call_llm w prompt st) as [[pairs|e] st1]; cbn [snd] in *.
    + unfold lift. cbn [fst snd]. split; [exact G | split; [lia | auto]].
    + cbn [fst snd]. split; [exact G | split; [lia | discriminate]].
  - cbn [fst snd].
    split; [apply generated_from_refl | split; [lia | discriminate]].
Qed.

Lemma run_passes_frame (w : World)
  (jobs : list (option pystr * list (pystr * pystr)))
  (all_docs : list Document) (st : State) :
  generated_from st (snd (run_passes w jobs all_docs st)) /\
  (llm_calls (snd (run_passes w jobs all_docs st))
   <= llm_calls st + length jobs)%nat /\
  (forall docs, fst (run_passes w jobs all_docs st) = Ok docs ->
     llm_calls (snd (run_passes w jobs all_docs st))
     = (llm_calls st + length jobs)%nat).
Proof.
  revert all_docs st; induction jobs as [|job jobs IH]; intros all_docs st.
  - cbn. split; [apply generated_from_refl | split; [lia | intros; lia]].
  - cbn [run_passes length]. unfold bind.
    destruct (qa_pass_frame w job st) as (G & N & N').
    destruct (qa_pass w job st) as [[d|e] st1]; cbn [fst snd] in *.
    + destruct (IH (all_docs ++ d) st1) as (G2 & N2 & N2').
      specialize (N' d eq_refl).
      split; [|split].
      * eapply generated_from_trans; eassumption.
      * lia.
      * intros docs E. rewrite (N2' docs E). lia.
    + split; [assumption | split; [lia | discriminate]].
Qed.

Lemma generate_frame (w : World) (st : State) :
  generated_from st (snd (generate w st)) /\
  (llm_calls (snd (generate w st)) <= llm_calls st + 7)%nat /\
  (forall docs, fst (generate w st) = Ok docs ->
     llm_calls (snd (generate w st)) = (llm_calls st + 7)%nat).
Proof.
  unfold generate, bind, getenv_api_key.
  destruct (GROQ_API_KEY st) as [[|c key]|];
    try (cbn; split; [apply generated_from_refl | split; [lia | discriminate]]).
  pose proof (load_all_state st) as HL.
  destruct (load_all st) as [[L|e] st0]; cbn [snd] in HL; subst st0.
  - exact (run_passes_frame w (pass_table w L) [] st).
  - cbn. split; [apply generated_from_refl | split; [lia | discriminate]].
Qed.

(** The rebuild, step by step. *)
Lemma commit_run (w : World) (all_docs : list Document) (st : State) :
  commit w all_docs st =
  let st1 := match CHROMA_DIR st with
             | Some _ =>
                 mkState (GROQ_API_KEY st) (DOCS_DIR st) None
                         (llm_calls st) (trace st ++ [EvRmtree])
             | None => st
             end in
  if hf_embeddings_load w then
    if chroma_from_documents w all_docs then
      (Ok all_docs,
       mkState (GROQ_API_KEY st1) (DOCS_DIR st1) (Some all_docs)
               (llm_calls st1) (trace st1 ++ [EvFromDocuments all_docs]))
    else
      (Raise ChromaError,
       mkState (GROQ_API_KEY st1) (DOCS_DIR st1) (CHROMA_DIR st1)
               (llm_calls st1) (trace st1 ++ [EvFromDocuments all_docs]))
  else (Raise EmbeddingsError, st1).
Proof.
  unfold commit, bind, clear_chroma, load_embeddings, from_documents.
  destruct (CHROMA_DIR st); destruct (hf_embeddings_load w);
    destruct (chroma_from_documents w all_docs); reflexivity.
Qed.

(** C1.  In every run of [ingest]: when the key check, the loading of the
    datasets or one of the seven generation passes raises, [ingest]
    raises the same exception and the persisted collection is the one
    found at the start (only completions and warnings happened); the
    collection is discarded only once all seven passes have returned,
    seven completions later; what follows is the discard (when a
    collection existed) and at most one write, which persists the whole
    aggregated list; and when [ingest] returns, the persisted collection
    is exactly that list. *)
Theorem rebuild_only_after_generation :
  (forall (w : World) (st : State) (e : exn) (st1 : State),
     generate w st = (Raise e, st1) ->
     ingest w st = (Raise e, st1) /\
     CHROMA_DIR st1 = CHROMA_DIR st /\
     generated_from st st1) /\
  (forall (w : World) (st : State) (all_docs : list Document) (st1 : State),
     generate w st = (Ok all_docs, st1) ->
     generated_from st st1 /\
     llm_calls st1 = (llm_calls st + 7)%nat /\
     ingest w st = commit w all_docs st1) /\
  (forall (w : World) (all_docs : list Document) (st1 : State),
     exists written,
       trace (snd (commit w all_docs st1))
       = trace st1
         ++ match CHROMA_DIR st1 with Some _ => [EvRmtree] | None => [] end
         ++ written /\
       (written = [] \/ written = [EvFromDocuments all_docs]) /\
       (forall docs, fst (commit w all_docs st1) = Ok docs ->
          docs = all_docs /\
          written = [EvFromDocuments all_docs] /\
          CHROMA_DIR (snd (commit w all_docs st1)) = Some all_docs)) /\
  (forall (w : World) (st : State),
     CHROMA_DIR (snd (ingest w st)) <> CHROMA_DIR st ->
     exists all_docs st1, generate w st = (Ok all_docs, st1)).
Proof.
  split; [|split; [|split]].
  - intros w st e st1 E.
    pose proof (generate_frame w st) as (G & _). rewrite E in G. cbn in G.
    split; [|split].
    + rewrite ingest_phases. unfold bind. rewrite E. reflexivity.
    + apply G.
    + exact G.
  - intros w st all_docs st1 E.
    pose proof (generate_frame w st) as (G & _ & N). rewrite E in G, N.
    cbn in G, N. split; [exact G|]. split; [exact (N all_docs eq_refl)|].
    rewrite ingest_phases. unfold bind. rewrite E. reflexivity.
  - intros w all_docs st1. rewrite commit_run. cbv zeta.
    destruct (hf_embeddings_load w); [destruct (chroma_from_documents w all_docs)|].
    + exists [EvFromDocuments all_docs]. cbn [fst snd trace CHROMA_DIR].
      split; [|split].
      * destruct (CHROMA_DIR st1); cbn; rewrite <- ?app_assoc; reflexivity.
      * right; reflexivity.
      * intros docs E. inversion E. auto.
    + exists [EvFromDocuments all_docs]. cbn [fst snd trace].
      split; [|split].
      * destruct (CHROMA_DIR st1); cbn; rewrite <- ?app_assoc; reflexivity.
      * right; reflexivity.
      * discriminate.
    + exists []. cbn [fst snd]. split; [|split].
      * destruct (CHROMA_DIR st1); cbn; rewrite ?app_nil_r; reflexivity.
      * left; reflexivity.
      * discriminate.
  - intros w st H.
    destruct (generate w st) as [[all_docs|e] st1] eqn:E; [eauto|].
    exfalso. apply H.
    pose proof (generate_frame w st) as (G & _). rewrite E in G. cbn in G.
    rewrite ingest_phases. unfold bind. rewrite E. cbn. apply G.
Qed.

Lemma rebuild_only_after_generation_witness :
  (ingest (scripted_world (fun _ => Some one_pair_reply))
          (fresh_state [] (Some old_index))
   = (Raise (FileNotFoundError (py "ReleaseA_Defects")),
      fresh_state [] (Some old_index)) /\
   CHROMA_DIR (fresh_state [] (Some old_index)) = Some old_index) /\
  match generate (scripted_world (fun _ => Some one_pair_reply))
                 (fresh_state six_files (Some old_index)) with
  | (Ok all_docs, st1) =>
      ingest (scripted_world (fun _ => Some one_pair_reply))
             (fresh_state six_files (Some old_index))
      = commit (scripted_world (fun _ => Some one_pair_reply)) all_docs st1 /\
      llm_calls st1 = 7%nat
  | (Raise _, _) => False
  end.
Proof.
  split.
  - destruct (proj1 rebuild_only_after_generation
                (scripted_world (fun _ => Some one_pair_reply))
                (fresh_state [] (Some old_index))
                (FileNotFoundError (py "ReleaseA_Defects"))
                (fresh_state [] (Some old_index)) eq_refl) as (E & C & _).
    split; [exact E | exact C].
  - destruct (generate (scripted_world (fun _ => Some one_pair_reply))
                       (fresh_state six_files (Some old_index)))
      as [[all_docs|e] st1] eqn:E.
    + destruct (proj1 (proj2 rebuild_only_after_generation) _ _ _ _ E)
        as (_ & N & I).
      split; [exact I | exact N].
    + vm_compute in E. discriminate E.
Defined.

Lemma query_context_and_sources_witness :
  query echo_retrieval (serving two_docs false)
        (mkQueryRequest (py "how many?") None None 8)
  = Http200
      (mkQueryResponse
         (py "Q: one" ++ [NL] ++ py "A: 1" ++
          [NL; NL] ++ py "---" ++ [NL; NL] ++
          py "Q: two" ++ [NL] ++ py "A: 2")
         (map to_source two_docs)).
Proof.
  exact (proj1 (query_context_and_sources echo_retrieval
                  (serving two_docs false)
                  (mkQueryRequest (py "how many?") None None 8)
                  two_docs two_docs eq_refl eq_refl eq_refl eq_refl)).
Defined.

(** C9.  [query] answers 503 exactly when the vectorstore handle or the
    LLM handle is not set, or the ingestion flag is up; it raises no
    other HTTP error; in that case neither retrieval nor synthesis is
    consulted; and otherwise the answer is the one retrieval and
    synthesis produce. *)
Theorem query_503_iff_unavailable
  (r : Retrieval) (g : Globals) (request : QueryRequest) :
  ((exists detail, query r g request = HTTPException 503 detail)
   <-> unavailable g) /\
  (forall code detail,
     query r g request = HTTPException code detail -> code = 503%Z) /\
  (unavailable g -> forall r' : Retrieval, query r' g request = query r g request) /\
  (~ unavailable g ->
   exists store,
     vectorstore g = Some store /\
     query r g request =
     match similarity_search r store (question request)
             (mkSearchKwargs (k request) (query_where request)) with
     | None => Unhandled ChromaError
     | Some docs =>
         match chain_invoke r (context_of docs) (question request) with
         | None => Unhandled GroqError
         | Some answer =>
             Http200 (mkQueryResponse answer (map to_source docs))
         end
     end).
Proof.
  unfold unavailable.
  destruct (vectorstore g) as [store|] eqn:Hv.
  2:{ unfold query; rewrite Hv. repeat split; eauto.
      - intros c d E; inversion E; reflexivity.
      - intros H; exfalso; apply H; auto. }
  destruct (llm g) eqn:Hl.
  2:{ unfold query; rewrite Hv, Hl. repeat split; eauto.
      - intros c d E; inversion E; reflexivity.
      - intros H; exfalso; apply H; auto. }
  destruct (_ingest_running g) eqn:Hr.
  { unfold query; rewrite Hv, Hl, Hr. repeat split; eauto.
    - intros c d E; inversion E; reflexivity.
    - intros H; exfalso; apply H; auto. }
  rewrite (query_available r g request store Hv Hl Hr).
  assert (Hno : forall code detail,
            match similarity_search r store (question request)
                    (mkSearchKwargs (k request) (query_where request)) with
            | None => Unhandled ChromaError
            | Some docs =>
                match chain_invoke r (context_of docs) (question request) with
                | None => Unhandled GroqError
                | Some answer =>
                    Http200 (mkQueryResponse answer (map to_source docs))
                end
            end <> HTTPException code detail).
  { intros code detail.
    destruct (similarity_search _ _ _ _) as [docs|]; [|discriminate].
    destruct (chain_invoke _ _ _); discriminate. }
  split; [split|split; [|split]].
  - intros [detail E]. exfalso. exact (Hno _ _ E).
  - intros [H|[H|H]]; discriminate.
  - intros code detail E. exfalso. exact (Hno _ _ E).
  - intros [H|[H|H]]; discriminate.
  - intros _. exists store. split; reflexivity.
Qed.

Lemma query_503_iff_unavailable_witness :
  (exists detail,
     query echo_retrieval (serving two_docs true)
           (mkQueryRequest (py "how many?") None None 8)
     = HTTPException 503 detail) /\
  (exists store,
     vectorstore (serving two_docs false) = Some store /\
     query echo_retrieval (serving two_docs false)
           (mkQueryRequest (py "how many?") None None 8)
     = Http200 (mkQueryResponse (context_of store) (map to_source store))).
Proof.
  split.
  - apply (proj2 (proj1 (query_503_iff_unavailable echo_retrieval
                           (serving two_docs true)
                           (mkQueryRequest (py "how many?") None None 8)))).
    right; right; reflexivity.
  - destruct (proj2 (proj2 (proj2 (query_503_iff_unavailable echo_retrieval
                (serving two_docs false)
                (mkQueryRequest (py "how many?") None None 8)))))
      as (store & Hs & Hq).
    + intros [H|[H|H]]; discriminate H.
    + exists store. split; [exact Hs|].
      rewrite Hq. inversion Hs; subst store. reflexivity.
Defined.

(* ===================================================================== *)
(** ** Loading the datasets *)
(* ===================================================================== *)

(** [load] takes the first match, whatever the number of matches. *)
Lemma load_spec (name : string) (st : State) :
  load name st =
  (match matching name st with
   | [] => Raise (FileNotFoundError (py name))
   | f :: _ =>
       match fdata f with
       | Some df => Ok (df, fname f)
       | None => Raise ReadExcelError
       end
   end, st).
Proof.
  unfold load, matching. destruct (filter _ _) as [|f fs]; [reflexivity|].
  destruct (fdata f); reflexivity.
Qed.

Ltac missing_pattern n :=
  eexists; split; [reflexivity|];
  right; right; exists n; split; [cbn; tauto | reflexivity].

Ltac step_load Hm :=
  rewrite load_spec; cbv beta iota;
  first
    [ rewrite Hm
    | match goal with
      | |- context [match matching ?n ?s with _ => _ end] =>
          let f := fresh "f" in
          destruct (matching n s) as [|f ?];
          [ missing_pattern n
          | destruct (fdata f);
            [ | eexists; split;
                [reflexivity | right; left; reflexivity] ] ]
      end ].

Lemma load_all_missing (st : State) (name : string) :
  In name dataset_names -> matching name st = [] ->
  exists e, load_all st = (Raise e, st) /\ loading_error e.
Proof.
  intros Hin Hm. unfold load_all, bind, loading_error.
  cbn [dataset_names In] in Hin.
  destruct Hin as [<-|[<-|[<-|[<-|[<-|[<-|[]]]]]]];
    repeat (step_load Hm);
    match goal with
    | |- context [FileNotFoundError (py ?n)] => missing_pattern n
    end.
Qed.

(** C3, as the code has it.  When one of the six patterns matches no
    file of the docs directory, [ingest] raises before anything else
    happens: the final state is the initial one, so no completion was
    requested and the persisted collection is untouched.  When a pattern
    matches one file or several, [load] reads the first match, in the
    order of the directory listing. *)
Theorem missing_dataset_aborts_before_generation :
  (forall (w : World) (st : State) (name : string),
     In name dataset_names -> matching name st = [] ->
     exists e, ingest w st = (Raise e, st) /\ loading_error e) /\
  (forall (name : string) (st : State) (f : File) (fs : list File),
     matching name st = f :: fs ->
     load name st =
     (match fdata f with
      | Some df => Ok (df, fname f)
      | None => Raise ReadExcelError
      end, st)).
Proof.
  split.
  - intros w st name Hin Hm. rewrite ingest_phases.
    unfold bind at 1. unfold generate, bind, getenv_api_key, raise.
    destruct (GROQ_API_KEY st) as [[|c key]|];
      try (exists RuntimeError; split; [reflexivity | left; reflexivity]).
    destruct (load_all_missing st name Hin Hm) as (e & E & He).
    rewrite E. exists e. split; [reflexivity | exact He].
  - intros name st f fs Hm. rewrite load_spec, Hm. reflexivity.
Qed.

Lemma missing_dataset_aborts_before_generation_witness :
  (exists e,
     ingest (scripted_world (fun _ => Some one_pair_reply))
            (fresh_state (tl six_files) (Some old_index))
     = (Raise e, fresh_state (tl six_files) (Some old_index)) /\
     loading_error e) /\
  load "ReleaseA_Defects" (fresh_state ambiguous_files None)
  = (Ok ([], py "QA_ReleaseA_Defects.xlsx"), fresh_state ambiguous_files None).
Proof.
  split.
  - apply (proj1 missing_dataset_aborts_before_generation
             (scripted_world (fun _ => Some one_pair_reply))
             (fresh_state (tl six_files) (Some old_index))
             "ReleaseA_Defects"%string).
    + simpl. tauto.
    + reflexivity.
  - exact (proj2 missing_dataset_aborts_before_generation
             "ReleaseA_Defects"%string (fresh_state ambiguous_files None)
             (mkFile (py "QA_ReleaseA_Defects.xlsx") (Some []))
             [mkFile (py "QA_ReleaseA_Defects_v2.xlsx")
                     (Some [[(py "Issue key", py "QA-1")]])]
             eq_refl).
Defined.

(** C3 as stated fails: with two files matching the first pattern the
    run does not abort; it requests its seven completions and replaces
    the persisted collection. *)
Lemma ambiguous_pattern_does_not_abort :
  length (matching "ReleaseA_Defects"
            (fresh_state ambiguous_files (Some old_index))) = 2%nat /\
  (exists docs,
     fst (ingest (scripted_world (fun _ => Some one_pair_reply))
                 (fresh_state ambiguous_files (Some old_index))) = Ok docs /\
     length docs = 7%nat /\
     CHROMA_DIR (snd (ingest (scripted_world (fun _ => Some one_pair_reply))
                             (fresh_state ambiguous_files (Some old_index))))
     = Some docs) /\
  llm_calls (snd (ingest (scripted_world (fun _ => Some one_pair_reply))
                         (fresh_state ambiguous_files (Some old_index))))
  = 7%nat.
Proof.
  split; [reflexivity|]. split; [|vm_compute; reflexivity].
  eexists. split; [vm_compute; reflexivity|].
  split; vm_compute; reflexivity.
Qed.

(* ===================================================================== *)
(** ** One pass among the seven *)
(* ===================================================================== *)

Lemma run_passes_raise (w : World)
  (pre post : list (option pystr * list (pystr * pystr)))
  (job : option pystr * list (pystr * pystr))
  (acc docs : list Document) (st0 st1 st2 : State) (e : exn) :
  run_passes w pre acc st0 = (Ok docs, st1) ->
  qa_pass w job st1 = (Raise e, st2) ->
  run_passes w (pre ++ job :: post) acc st0 = (Raise e, st2).
Proof.
  revert acc st0; induction pre as [|j pre IH]; intros acc st0 Hpre Hjob.
  - cbn in Hpre. inversion Hpre; subst.
    cbn [app run_passes]. unfold bind. rewrite Hjob. reflexivity.
  - cbn [app run_passes] in *. unfold bind in *.
    destruct (qa_pass w j st0) as [[d|e'] st']; [|discriminate].
    apply IH; assumption.
Qed.

Lemma run_passes_skip (w : World)
  (pre post : list (option pystr * list (pystr * pystr)))
  (job : option pystr * list (pystr * pystr))
  (acc docs : list Document) (st0 st1 st2 : State) :
  run_passes w pre acc st0 = (Ok docs, st1) ->
  qa_pass w job st1 = (Ok [], st2) ->
  run_passes w (pre ++ job :: post) acc st0 = run_passes w post docs st2.
Proof.
  revert acc st0; induction pre as [|j pre IH]; intros acc st0 Hpre Hjob.
  - cbn in Hpre. inversion Hpre; subst.
    cbn [app run_passes]. unfold bind. rewrite Hjob, app_nil_r. reflexivity.
  - cbn [app run_passes] in *. unfold bind in *.
    destruct (qa_pass w j st0) as [[d|e'] st']; [|discriminate].
    apply IH; assumption.
Qed.

(** A pass whose reply lacks a bracket yields no document. *)
Lemma qa_pass_no_bracket (w : World) (prompt : pystr)
  (md : list (pystr * pystr)) (st : State) (content : pystr) :
  groq_reply w (llm_calls st) prompt = Some content ->
  ~ In LBRACKET (strip content) \/ ~ In RBRACKET (strip content) ->
  qa_pass w (Some prompt, md) st
  = (Ok [], record EvWarnNoArray (chat_state prompt st)).
Proof.
  intros E H. unfold qa_pass, bind. cbn [fst snd or_raise ret].
  rewrite (call_llm_no_bracket _ _ _ _ E H). reflexivity.
Qed.

(** A pass whose bracketed text does not decode raises. *)
Lemma qa_pass_decode_error (w : World) (prompt : pystr)
  (md : list (pystr * pystr)) (st : State) (content pre mid post : pystr) :
  groq_reply w (llm_calls st) prompt = Some content ->
  strip content = pre ++ LBRACKET :: mid ++ RBRACKET :: post ->
  ~ In LBRACKET pre -> ~ In RBRACKET post ->
  json_loads (LBRACKET :: mid ++ [RBRACKET]) = Raise JSONDecodeError ->
  qa_pass w (Some prompt, md) st
  = (Raise JSONDecodeError, chat_state prompt st).
Proof.
  intros E Hraw Hpre Hpost Hj. unfold qa_pass, bind.
  cbn [fst snd or_raise ret].
  rewrite (call_llm_bracketed _ _ _ _ _ _ _ E Hraw Hpre Hpost).
  unfold parsed_array. rewrite Hj. reflexivity.
Qed.

(** C2, as the code has it.  Take a run that reaches one of the seven
    passes, the earlier passes having returned.  When the reply to that
    pass lacks the opening or the closing bracket, the pass yields no
    document and the run goes on with the remaining passes and the
    rebuild.  When the reply holds a bracketed text that [json.loads]
    refuses, [ingest] raises the decode error at that point: the
    remaining passes request nothing, nothing is discarded or written,
    and the persisted collection is the one found at the start. *)
Theorem malformed_reply_outcome
  (w : World) (st : State) (L : Loaded)
  (pre post : list (option pystr * list (pystr * pystr)))
  (prompt : pystr) (md : list (pystr * pystr))
  (docs : list Document) (st1 : State) (content : pystr) :
  (exists c key, GROQ_API_KEY st = Some (c :: key)) ->
  load_all st = (Ok L, st) ->
  pass_table w L = pre ++ (Some prompt, md) :: post ->
  run_passes w pre [] st = (Ok docs, st1) ->
  groq_reply w (llm_calls st1) prompt = Some content ->
  (~ In LBRACKET (strip content) \/ ~ In RBRACKET (strip content) ->
   qa_pass w (Some prompt, md) st1
   = (Ok [], record EvWarnNoArray (chat_state prompt st1)) /\
   ingest w st
   = bind (run_passes w post docs) (commit w)
          (record EvWarnNoArray (chat_state prompt st1))) /\
  (forall pre' mid post' : pystr,
     strip content = pre' ++ LBRACKET :: mid ++ RBRACKET :: post' ->
     ~ In LBRACKET pre' -> ~ In RBRACKET post' ->
     json_loads (LBRACKET :: mid ++ [RBRACKET]) = Raise JSONDecodeError ->
     ingest w st = (Raise JSONDecodeError, chat_state prompt st1) /\
     CHROMA_DIR (chat_state prompt st1) = CHROMA_DIR st /\
     generated_from st (chat_state prompt st1) /\
     llm_calls (chat_state prompt st1) = (llm_calls st + length pre + 1)%nat).
Proof.
  intros (c & key & Hkey) Hload Htable Hpre Hreply.
  assert (Hgen : forall r,
            run_passes w (pass_table w L) [] st = r ->
            ingest w st = bind (fun _ => r) (commit w) st).
  { intros r <-. rewrite ingest_phases.
    assert (Hg : generate w st = run_passes w (pass_table w L) [] st).
    { unfold generate, bind, getenv_api_key. rewrite Hkey, Hload.
      reflexivity. }
    unfold bind. rewrite Hg. reflexivity. }
  pose proof (run_passes_frame w pre [] st) as (G & _ & N).
  rewrite Hpre in G, N. cbn [fst snd] in G, N. specialize (N docs eq_refl).
  split.
  - intros Habs.
    pose proof (qa_pass_no_bracket w prompt md st1 content Hreply Habs) as Hq.
    split; [exact Hq|].
    rewrite (Hgen _ eq_refl), Htable.
    unfold bind at 1. rewrite (run_passes_skip w pre post _ [] docs st st1 _ Hpre Hq).
    reflexivity.
  - intros pre' mid post' Hraw Hp Hq Hj.
    pose proof (qa_pass_decode_error w prompt md st1 content pre' mid post'
                  Hreply Hraw Hp Hq Hj) as Herr.
    split; [|split; [|split]].
    + rewrite (Hgen _ eq_refl), Htable.
      unfold bind. rewrite (run_passes_raise w pre post _ [] docs st st1 _ _ Hpre Herr).
      reflexivity.
    + cbn. apply G.
    + eapply generated_from_trans; [exact G | apply generated_from_chat].
    + cbn. lia.
Qed.

Lemma malformed_reply_outcome_witness :
  fst (ingest (scripted_world third_reply_broken)
              (fresh_state six_files (Some old_index)))
  = Raise JSONDecodeError /\
  fst (qa_pass (scripted_world third_reply_empty)
         (Some (py "metadata of ReleaseA"),
          pass_metadata (py "QA_ReleaseA_Metadata.xlsx") (py "metadata")
                        (py "ReleaseA"))
         (snd (run_passes (scripted_world third_reply_empty)
                 (firstn 2 (pass_table (scripted_world third_reply_empty)
                                       six_loaded))
                 [] (fresh_state six_files (Some old_index)))))
  = Ok [].
Proof.
  split.
  - pose (w := scripted_world third_reply_broken).
    pose (st := fresh_state six_files (Some old_index)).
    pose (r := run_passes w (firstn 2 (pass_table w six_loaded)) [] st).
    assert (Hr : r = (Ok (match fst r with Ok d => d | Raise _ => [] end),
                      snd r))
      by (vm_compute; reflexivity).
    destruct (malformed_reply_outcome w st six_loaded
                (firstn 2 (pass_table w six_loaded))
                (skipn 3 (pass_table w six_loaded))
                (py "metadata of ReleaseA")
                (pass_metadata (py "QA_ReleaseA_Metadata.xlsx")
                               (py "metadata") (py "ReleaseA"))
                _ _ (py "Here you go: [oops] done.")
                (ex_intro _ _ (ex_intro _ _ eq_refl)) eq_refl eq_refl Hr
                eq_refl) as [_ Hhard].
    destruct (Hhard (py "Here you go: ") (py "oops") (py " done.") eq_refl)
      as (E & _).
    + vm_compute. intuition discriminate.
    + vm_compute. intuition discriminate.
    + reflexivity.
    + fold w st. rewrite E. reflexivity.
  - pose (w := scripted_world third_reply_empty).
    pose (st := fresh_state six_files (Some old_index)).
    pose (r := run_passes w (firstn 2 (pass_table w six_loaded)) [] st).
    assert (Hr : r = (Ok (match fst r with Ok d => d | Raise _ => [] end),
                      snd r))
      by (vm_compute; reflexivity).
    destruct (malformed_reply_outcome w st six_loaded
                (firstn 2 (pass_table w six_loaded))
                (skipn 3 (pass_table w six_loaded))
                (py "metadata of ReleaseA")
                (pass_metadata (py "QA_ReleaseA_Metadata.xlsx")
                               (py "metadata") (py "ReleaseA"))
                _ _ (py "I have nothing to add.")
                (ex_intro _ _ (ex_intro _ _ eq_refl)) eq_refl eq_refl Hr
                eq_refl) as [Hsoft _].
    destruct Hsoft as (E & _).
    + left. vm_compute. intuition discriminate.
    + fold w st r. rewrite E. reflexivity.
Defined.

(** C2 as stated fails: the third reply is bracketed but is not JSON;
    the run is aborted by the decode error after three completions, the
    four remaining passes never run, and the documents of the first two
    passes are not committed: the persisted collection is still the old
    one. *)
Lemma parse_failure_aborts_run :
  json_loads (py "[oops]") = Raise JSONDecodeError /\
  fst (ingest (scripted_world third_reply_broken)
              (fresh_state six_files (Some old_index)))
  = Raise JSONDecodeError /\
  llm_calls (snd (ingest (scripted_world third_reply_broken)
                         (fresh_state six_files (Some old_index)))) = 3%nat /\
  CHROMA_DIR (snd (ingest (scripted_world third_reply_broken)
                          (fresh_state six_files (Some old_index))))
  = Some old_index /\
  ~ In EvRmtree
       (trace (snd (ingest (scripted_world third_reply_broken)
                           (fresh_state six_files (Some old_index))))).
Proof.
  repeat split; try (vm_compute; reflexivity).
  vm_compute. intuition discriminate.
Qed.

(* ===================================================================== *)
(** ** Background ingestion: one run at a time *)
(* ===================================================================== *)

Lemma ingest_ok_chroma (w : World) (st st' : State) (docs : list Document) :
  ingest w st = (Ok docs, st') -> CHROMA_DIR st' = Some docs.
Proof.
  rewrite ingest_phases. unfold bind.
  destruct (generate w st) as [[d|e] s1]; [|discriminate].
  rewrite commit_run. cbv zeta.
  destruct (hf_embeddings_load w); [|discriminate].
  destruct (chroma_from_documents w d); [|discriminate].
  intros E; inversion E; subst. reflexivity.
Qed.

Lemma flag_up_holds (c : pc) : flag_up c = true -> holds_lock c = true.
Proof. destruct c; cbn; congruence. Qed.

Lemma set_thread_same (ts : nat -> pc) (i : nat) (c : pc) :
  set_thread ts i c i = c.
Proof. unfold set_thread. rewrite Nat.eqb_refl. reflexivity. Qed.

Lemma set_thread_other (ts : nat -> pc) (i j : nat) (c : pc) :
  j <> i -> set_thread ts i c j = ts j.
Proof.
  intros H. unfold set_thread.
  destruct (Nat.eqb_spec j i); [contradiction | reflexivity].
Qed.

(** The invariant survives any move of thread [i] to [c'] with module
    state [g'] that respects the locking discipline. *)
Lemma single_flight_update (p : Proc) (i : nat) (c' : pc) (g' : Globals) :
  single_flight p ->
  (holds_lock c' = true ->
   holds_lock (threads p i) = true \/ _ingest_lock (globals p) = false) ->
  (holds_lock c' = true -> _ingest_lock g' = true) ->
  (_ingest_lock g' = true \/
   (holds_lock (threads p i) = true /\ holds_lock c' = false)) ->
  (_ingest_lock g' = true ->
   holds_lock c' = true \/
   (_ingest_lock (globals p) = true /\ holds_lock (threads p i) = false)) ->
  (_ingest_running g' = true ->
   flag_up c' = true \/
   (_ingest_running (globals p) = true /\ flag_up (threads p i) = false)) ->
  (forall docs, c' = AtReload docs -> CHROMA_DIR (sys g') = Some docs) ->
  (sys g' = sys (globals p) \/ holds_lock (threads p i) = true) ->
  single_flight (mkProc g' (set_thread (threads p) i c')).
Proof.
  intros (Hex & Hlock & Hheld & Hrun & Hrel) A B1 B2 C D E1 E2.
  assert (Hsolo : forall j, j <> i -> holds_lock (threads p j) = true ->
                  holds_lock (threads p i) = true -> False).
  { intros j Hne Hj Hi. apply Hne. apply Hex; assumption. }
  unfold single_flight. cbn [globals threads].
  split; [|split; [|split; [|split]]].
  - intros a b Ha Hb.
    destruct (Nat.eq_dec a i) as [->|Na], (Nat.eq_dec b i) as [->|Nb];
      try reflexivity.
    + rewrite set_thread_same in Ha. rewrite set_thread_other in Hb by exact Nb.
      destruct (A Ha) as [Hi|Hfree].
      * symmetry. apply Hex; assumption.
      * rewrite (Hlock b Hb) in Hfree. discriminate.
    + rewrite set_thread_same in Hb. rewrite set_thread_other in Ha by exact Na.
      destruct (A Hb) as [Hi|Hfree].
      * apply Hex; assumption.
      * rewrite (Hlock a Ha) in Hfree. discriminate.
    + rewrite set_thread_other in Ha by exact Na.
      rewrite set_thread_other in Hb by exact Nb.
      apply Hex; assumption.
  - intros a Ha. destruct (Nat.eq_dec a i) as [->|Na].
    + rewrite set_thread_same in Ha. apply B1; exact Ha.
    + rewrite set_thread_other in Ha by exact Na.
      destruct B2 as [H|[Hi _]]; [exact H|].
      exfalso. exact (Hsolo a Na Ha Hi).
  - intros Hl. destruct (C Hl) as [Hc|[Hold Hi]].
    + exists i. rewrite set_thread_same. exact Hc.
    + destruct (Hheld Hold) as [a Ha]. exists a.
      rewrite set_thread_other; [exact Ha|].
      intros ->. rewrite Ha in Hi. discriminate.
  - intros Hr. destruct (D Hr) as [Hc|[Hold Hi]].
    + exists i. rewrite set_thread_same. exact Hc.
    + destruct (Hrun Hold) as [a Ha]. exists a.
      rewrite set_thread_other; [exact Ha|].
      intros ->. rewrite Ha in Hi. discriminate.
  - intros a docs Ha. destruct (Nat.eq_dec a i) as [->|Na].
    + rewrite set_thread_same in Ha. apply E1; exact Ha.
    + rewrite set_thread_other in Ha by exact Na.
      destruct E2 as [->|Hi]; [apply (Hrel a); exact Ha|].
      exfalso. apply (Hsolo a Na); [|exact Hi].
      rewrite Ha. reflexivity.
Qed.

Lemma single_flight_boot (g : Globals) : single_flight (boot g).
Proof.
  unfold single_flight, boot. cbn.
  repeat split; intros; discriminate.
Qed.

Lemma single_flight_step (w : World) (r : Retrieval) (i : nat) (p : Proc) :
  single_flight p -> single_flight (step w r i p).
Proof.
  intros Inv. pose proof Inv as (Hex & Hlock & Hheld & Hrun & Hrel).
  assert (Hmine : holds_lock (threads p i) = true ->
                  _ingest_lock (globals p) = true) by apply Hlock.
  unfold step.
  destruct (threads p i) eqn:Hi; cbn [holds_lock] in Hmine;
    try specialize (Hmine eq_refl).
  - (* AtAcquire *)
    destruct (_ingest_lock (globals p)) eqn:Hl;
      apply single_flight_update; try exact Inv; rewrite ?Hi; cbn;
      intros; try discriminate; auto.
  - (* AtSetRunning *)
    apply single_flight_update; try exact Inv;
      rewrite ?Hi; cbn; intros; try discriminate; auto.
  - (* InIngest *)
    destruct (ingest w (sys (globals p))) as [[docs|e] st'] eqn:E;
      apply single_flight_update; try exact Inv;
      rewrite ?Hi; cbn; intros; try discriminate; auto.
    match goal with H : AtReload _ = AtReload _ |- _ =>
      inversion H; subst end.
    exact (ingest_ok_chroma w _ _ _ E).
  - (* AtReload *)
    destruct (chroma_open r (CHROMA_DIR (sys (globals p))));
      apply single_flight_update; try exact Inv;
      rewrite ?Hi; cbn; intros; try discriminate; auto.
  - (* AtClearRunning *)
    apply single_flight_update; try exact Inv;
      rewrite ?Hi; cbn; intros; try discriminate; auto.
  - (* AtRelease *)
    apply single_flight_update; try exact Inv;
      rewrite ?Hi; cbn; intros; try discriminate; auto.
  - exact Inv.
  - exact Inv.
Qed.

Lemma single_flight_run (w : World) (r : Retrieval) (sched : list nat)
  (p : Proc) :
  single_flight p -> single_flight (run w r sched p).
Proof.
  revert p; induction sched as [|i sched IH]; intros p Inv; [exact Inv|].
  cbn [run fold_left]. apply (IH (step w r i p)).
  apply single_flight_step. exact Inv.
Qed.

Lemma step_other (w : World) (r : Retrieval) (i j : nat) (p : Proc) :
  j <> i -> threads (step w r i p) j = threads p j.
Proof.
  intros Hne. unfold step.
  destruct (threads p i); try reflexivity;
    try (cbn; apply set_thread_other; exact Hne).
  - destruct (_ingest_lock (globals p)); cbn;
      apply set_thread_other; exact Hne.
  - destruct (ingest w (sys (globals p))) as [[docs|e] st']; cbn;
      apply set_thread_other; exact Hne.
  - destruct (chroma_open r (CHROMA_DIR (sys (globals p)))); cbn;
      apply set_thread_other; exact Hne.
Qed.

(** A dropped trigger stays dropped. *)
Lemma skipped_forever (w : World) (r : Retrieval) (i : nat)
  (sched : list nat) (p : Proc) :
  threads p i = Skipped -> threads (run w r sched p) i = Skipped.
Proof.
  revert p; induction sched as [|j sched IH]; intros p H; [exact H|].
  cbn [run fold_left]. apply (IH (step w r j p)).
  destruct (Nat.eq_dec i j) as [<-|Hne].
  - unfold step. rewrite H. exact H.
  - rewrite step_other by exact Hne. exact H.
Qed.

(** When the lock is about to be released, the flag is already down. *)
Lemma flag_down_at_release (p : Proc) (i : nat) (ok : bool) :
  single_flight p -> threads p i = AtRelease ok ->
  _ingest_running (globals p) = false.
Proof.
  intros (Hex & _ & _ & Hrun & _) Hi.
  destruct (_ingest_running (globals p)) eqn:Hr; [|reflexivity].
  destruct (Hrun eq_refl) as [a Ha].
  assert (a = i) as -> by
    (apply Hex; [apply flag_up_holds; exact Ha | rewrite Hi; reflexivity]).
  rewrite Hi in Ha. discriminate.
Qed.

(** One statement of a thread that holds the lock brings it closer to its
    return, or is its return. *)
Lemma holder_progress (w : World) (r : Retrieval) (i : nat) (p : Proc) :
  single_flight p -> holds_lock (threads p i) = true ->
  (holds_lock (threads (step w r i p) i) = true /\
   statements_left (threads (step w r i p) i)
   < statements_left (threads p i)) \/
  completed i (step w r i p).
Proof.
  intros Inv Hh. unfold step, completed.
  destruct (threads p i) eqn:Hi; try discriminate Hh.
  - left. cbn. rewrite set_thread_same. cbn. split; [reflexivity | lia].
  - left. destruct (ingest w (sys (globals p))) as [[docs|e] st']; cbn;
      rewrite set_thread_same; cbn; split; try reflexivity; lia.
  - left. destruct (chroma_open r (CHROMA_DIR (sys (globals p)))); cbn;
      rewrite set_thread_same; cbn; split; try reflexivity; lia.
  - left. cbn. rewrite set_thread_same. cbn. split; [reflexivity | lia].
  - right. exists ok. cbn. rewrite set_thread_same.
    split; [reflexivity|]. split; [|reflexivity].
    exact (flag_down_at_release p i ok Inv Hi).
Qed.

Lemma completed_stays (w : World) (r : Retrieval) (i : nat) (p : Proc) :
  completed i p -> step w r i p = p.
Proof. intros (ok & H & _). unfold step. rewrite H. reflexivity. Qed.

(** A thread that holds the lock and is given [n] statements, [n] at
    least the number it has left, completes. *)
Lemma holder_completes (w : World) (r : Retrieval) (i n : nat) (p : Proc) :
  single_flight p ->
  (holds_lock (threads p i) = true /\ statements_left (threads p i) <= n)
  \/ completed i p ->
  completed i (run w r (repeat i n) p).
Proof.
  revert p; induction n as [|n IH]; intros p Inv H.
  - destruct H as [[Hh Hn]|H]; [|exact H].
    destruct (threads p i); cbn in Hh, Hn; try discriminate; lia.
  - cbn [repeat run fold_left]. apply (IH (step w r i p)).
    + apply single_flight_step; exact Inv.
    + destruct H as [[Hh Hn]|H].
      * destruct (holder_progress w r i p Inv Hh) as [[Hh' Hlt]|Hc];
          [left; split; [exact Hh' | lia] | right; exact Hc].
      * right. rewrite (completed_stays w r i p H). exact H.
Qed.

(** C4.  Whatever the triggers and however their threads interleave: at
    most one thread is between a successful acquire and its release, so
    at most one is inside [ingest()]; a thread that finds the lock held
    returns at once, changes nothing and never runs again, and one that
    finds it free takes it; a thread that took the lock reaches the end
    of the [finally] block in five statements whether [ingest()] raised
    or not, with the flag cleared and the lock released; and after a
    successful [ingest()] the reload sets the vectorstore to the
    collection that this run persisted. *)
Theorem one_ingestion_at_a_time
  (w : World) (r : Retrieval) (g : Globals) (sched : list nat) :
  let p := run w r sched (boot g) in
  (forall i j, holds_lock (threads p i) = true ->
               holds_lock (threads p j) = true -> i = j) /\
  (forall i j, threads p i = InIngest -> threads p j = InIngest -> i = j) /\
  (forall i, threads p i = AtAcquire ->
     _ingest_lock (globals p) = true ->
     globals (step w r i p) = globals p /\
     threads (step w r i p) i = Skipped /\
     (forall j, j <> i -> threads (step w r i p) j = threads p j) /\
     (forall later, threads (run w r later (step w r i p)) i = Skipped)) /\
  (forall i, threads p i = AtAcquire ->
     _ingest_lock (globals p) = false ->
     threads (step w r i p) i = AtSetRunning /\
     _ingest_lock (globals (step w r i p)) = true) /\
  (forall i, holds_lock (threads p i) = true ->
     completed i (run w r [i; i; i; i; i] p)) /\
  (forall i, threads p i = InIngest ->
     (forall docs st', ingest w (sys (globals p)) = (Ok docs, st') ->
        threads (step w r i p) i = AtReload docs /\
        CHROMA_DIR (sys (globals (step w r i p))) = Some docs) /\
     (forall e st', ingest w (sys (globals p)) = (Raise e, st') ->
        threads (step w r i p) i = AtClearRunning false /\
        vectorstore (globals (step w r i p)) = vectorstore (globals p))) /\
  (forall i docs, threads p i = AtReload docs ->
     CHROMA_DIR (sys (globals p)) = Some docs /\
     (chroma_open r (Some docs) = true ->
      vectorstore (globals (step w r i p)) = Some docs /\
      threads (step w r i p) i = AtClearRunning true)).
Proof.
  intros p.
  assert (Inv : single_flight p)
    by (apply single_flight_run, single_flight_boot).
  pose proof Inv as (Hex & Hlock & Hheld & Hrun & Hrel).
  split; [exact Hex|]. split; [|split; [|split; [|split; [|split]]]].
  - intros i j Hi Hj. apply Hex; [rewrite Hi | rewrite Hj]; reflexivity.
  - intros i Hi Hl.
    assert (Hs : step w r i p = mkProc (globals p)
                                  (set_thread (threads p) i Skipped))
      by (unfold step; rewrite Hi, Hl; reflexivity).
    split; [rewrite Hs; reflexivity|].
    split; [rewrite Hs; cbn; apply set_thread_same|].
    split; [intros j Hne; apply step_other; exact Hne|].
    intros later. apply skipped_forever.
    rewrite Hs. cbn. apply set_thread_same.
  - intros i Hi Hl. unfold step. rewrite Hi, Hl. cbn.
    split; [apply set_thread_same | reflexivity].
  - intros i Hh.
    apply (holder_completes w r i 5 p Inv). left. split; [exact Hh|].
    destruct (threads p i); cbn in *; try discriminate; lia.
  - intros i Hi. split.
    + intros docs st' E. unfold step. rewrite Hi, E. cbn.
      split; [apply set_thread_same | exact (ingest_ok_chroma w _ _ _ E)].
    + intros e st' E. unfold step. rewrite Hi, E. cbn.
      split; [apply set_thread_same | reflexivity].
  - intros i docs Hi. pose proof (Hrel i docs Hi) as Hc.
    split; [exact Hc|]. intros Ho. unfold step. rewrite Hi, Hc, Ho. cbn.
    split; [reflexivity | apply set_thread_same].
Qed.

Lemma one_ingestion_at_a_time_witness :
  threads (run (scripted_world (fun _ => Some one_pair_reply)) echo_retrieval
               [0; 0; 1] (boot (serving old_index false))) 1 = Skipped /\
  completed 0
    (run (scripted_world (fun _ => Some one_pair_reply)) echo_retrieval
         [0; 0; 0; 0; 0]
         (run (scripted_world (fun _ => Some one_pair_reply)) echo_retrieval
              [0; 0; 1] (boot (serving old_index false)))).
Proof.
  split.
  - exact (proj1 (proj2 (proj1 (proj2 (proj2
             (one_ingestion_at_a_time
                (scripted_world (fun _ => Some one_pair_reply)) echo_retrieval
                (serving old_index false) [0; 0])))
             1 eq_refl eq_refl))).
  - exact (proj1 (proj2 (proj2 (proj2 (proj2
             (one_ingestion_at_a_time
                (scripted_world (fun _ => Some one_pair_reply)) echo_retrieval
                (serving old_index false) [0; 0; 1])))))
             0 eq_refl).
Defined.

(* ===================================================================== *)
(** ** pairs_to_documents on elements of any shape *)
(* ===================================================================== *)

Lemma lstrip_head (s : pystr) :
  match lstrip s with [] => True | c :: _ => isspace c = false end.
Proof.
  induction s as [|x s IH]; simpl; [exact I|].
  destruct (isspace x) eqn:E; [exact IH | exact E].
Qed.

Lemma lstrip_suffix (s : pystr) : exists pre, s = pre ++ lstrip s.
Proof.
  induction s as [|x s (pre & IH)]; simpl; [exists []; reflexivity|].
  destruct (isspace x).
  - exists (x :: pre). simpl. rewrite <- IH. reflexivity.
  - exists []. reflexivity.
Qed.

Lemma rstrip_prefix (s : pystr) : exists post, s = rstrip s ++ post.
Proof.
  unfold rstrip. destruct (lstrip_suffix (rev s)) as (pre & E).
  exists (rev pre). rewrite <- rev_app_distr, <- E, rev_involutive.
  reflexivity.
Qed.

(** What [strip] returns has no white space at either end. *)
Lemma strip_trimmed (s : pystr) : trimmed (strip s).
Proof.
  unfold trimmed, strip. split.
  - destruct (rstrip_prefix (lstrip s)) as (post & E).
    pose proof (lstrip_head s) as H. rewrite E in H.
    destruct (rstrip (lstrip s)); [exact I | exact H].
  - unfold rstrip. rewrite rev_involutive. apply lstrip_head.
Qed.

Lemma trimmed_nil : trimmed [].
Proof. split; exact I. Qed.

Lemma field_trimmed (pr : json) (key : string) : trimmed (field pr key).
Proof.
  unfold field. destruct pr; try apply trimmed_nil.
  destruct (dict_get members (py key)) as [[]|];
    try apply trimmed_nil. apply strip_trimmed.
Qed.

Lemma truthy_nonempty (s : pystr) : truthy s = true -> s <> [].
Proof. destruct s; [discriminate | discriminate]. Qed.

Lemma get_stripped_any (pr : json) (key : string) :
  get_stripped pr key =
  match pr with
  | JObject members =>
      if text_or_missing members key
      then Ok (field pr key) else Raise AttributeError
  | _ => Raise AttributeError
  end.
Proof.
  destruct pr; try reflexivity.
  unfold get_stripped, text_or_missing, field.
  destruct (dict_get members (py key)) as [[]|]; reflexivity.
Qed.

(** The loop on any list: it raises as soon as an element is not a dict
    with textual fields, and otherwise appends the documents of the kept
    elements. *)
Lemma pairs_to_documents_loop_any (md : list (pystr * pystr))
  (pairs : list json) (docs : list Document) :
  pairs_to_documents_loop pairs md docs =
  if forallb is_pair_dict pairs
  then Ok (docs ++ map (document_of md) (filter keeps pairs))
  else Raise AttributeError.
Proof.
  revert docs; induction pairs as [|pr pairs IH]; intros docs.
  - cbn. rewrite app_nil_r. reflexivity.
  - cbn [pairs_to_documents_loop forallb filter].
    rewrite !get_stripped_any.
    destruct pr as [| b | lx | t | items | members]; try reflexivity.
    cbn [is_pair_dict].
    destruct (text_or_missing members "question"); [|reflexivity].
    destruct (text_or_missing members "answer"); [|reflexivity].
    cbn [andb]. fold (keeps (JObject members)).
    destruct (keeps (JObject members)).
    + rewrite IH. destruct (forallb is_pair_dict pairs); [|reflexivity].
      cbn [map]. rewrite <- app_assoc. reflexivity.
    + apply IH.
Qed.

Lemma pairs_to_documents_any (pairs : list json) (md : list (pystr * pystr)) :
  pairs_to_documents pairs md =
  if forallb is_pair_dict pairs
  then Ok (map (document_of md) (filter keeps pairs))
  else Raise AttributeError.
Proof. unfold pairs_to_documents. apply pairs_to_documents_loop_any. Qed.

Lemma forallb_false_exists (A : Type) (f : A -> bool) (l : list A) :
  forallb f l = false <-> exists x, In x l /\ f x = false.
Proof.
  induction l as [|a l IH]; cbn.
  - split; [discriminate | intros (x & [] & _)].
  - rewrite andb_false_iff, IH. split.
    + intros [H|(x & Hin & Hx)]; [exists a; auto | exists x; auto].
    + intros (x & [->|Hin] & Hx); [left; exact Hx | right; exists x; auto].
Qed.

Lemma pairs_to_documents_ok (pairs : list json) (md : list (pystr * pystr))
  (docs : list Document) :
  pairs_to_documents pairs md = Ok docs ->
  docs = map (document_of md) (filter keeps pairs).
Proof.
  rewrite pairs_to_documents_any.
  destruct (forallb is_pair_dict pairs); [|discriminate].
  intros E; inversion E; reflexivity.
Qed.

Lemma pairs_to_documents_raises (pairs : list json)
  (md : list (pystr * pystr)) (e : exn) :
  pairs_to_documents pairs md = Raise e -> e = AttributeError.
Proof.
  rewrite pairs_to_documents_any.
  destruct (forallb is_pair_dict pairs); [discriminate|].
  intros E; inversion E; reflexivity.
Qed.

(** X1.  On a list of dicts whose question and answer, where present,
    are strings, [pairs_to_documents] raises nothing: a missing key reads
    as the empty string, so the dict is dropped, and the other dicts are
    packaged in order whatever other keys they hold. *)
Theorem pairs_to_documents_tolerates_missing_keys
  (pairs : list json) (md : list (pystr * pystr)) :
  forallb is_pair_dict pairs = true ->
  pairs_to_documents pairs md
  = Ok (map (document_of md) (filter keeps pairs)) /\
  (forall members,
     In (JObject members) pairs ->
     dict_get members (py "question") = None \/
     dict_get members (py "answer") = None ->
     ~ In (JObject members) (filter keeps pairs)).
Proof.
  intros H. split.
  - rewrite pairs_to_documents_any, H. reflexivity.
  - intros members _ Hmiss Hin. apply filter_In in Hin.
    destruct Hin as [_ Hk]. unfold keeps, field in Hk.
    destruct Hmiss as [E|E]; rewrite E in Hk; cbn in Hk;
      rewrite ?andb_false_r in Hk; discriminate.
Qed.

Lemma pairs_to_documents_tolerates_missing_keys_witness :
  pairs_to_documents loose_pairs defect_metadata
  = Ok [mkDocument (py "Q: ok?" ++ [NL] ++ py "A: yes")
          (defect_metadata ++ [(py "question", py "ok?")])].
Proof.
  exact (proj1 (pairs_to_documents_tolerates_missing_keys
                  loose_pairs defect_metadata eq_refl)).
Defined.

(** X2.  [pairs_to_documents] raises exactly when some element of the
    list is not a dict, or holds under question or answer a value that is
    not a string (a number, null, a list); the exception is the
    AttributeError, and no document of the other elements is returned. *)
Theorem pairs_to_documents_raises_iff
  (pairs : list json) (md : list (pystr * pystr)) :
  (pairs_to_documents pairs md = Raise AttributeError
   <-> exists pr, In pr pairs /\ is_pair_dict pr = false) /\
  (forall e, pairs_to_documents pairs md = Raise e -> e = AttributeError) /\
  (forall docs, pairs_to_documents pairs md = Ok docs ->
     forall pr, In pr pairs -> is_pair_dict pr = true).
Proof.
  split; [|split].
  - rewrite <- forallb_false_exists, pairs_to_documents_any.
    destruct (forallb is_pair_dict pairs); split; congruence.
  - apply pairs_to_documents_raises.
  - intros docs E pr Hin. rewrite pairs_to_documents_any in E.
    destruct (forallb is_pair_dict pairs) eqn:F; [|discriminate].
    rewrite forallb_forall in F. apply F. exact Hin.
Qed.

Lemma document_of_fields (md : list (pystr * pystr)) (pr : json) :
  keeps pr = true ->
  page_content (document_of md pr)
  = py "Q: " ++ field pr "question" ++ [NL] ++ py "A: " ++ field pr "answer"
  /\ field pr "question" <> [] /\ field pr "answer" <> []
  /\ trimmed (field pr "question") /\ trimmed (field pr "answer").
Proof.
  intros Hk. unfold keeps in Hk. apply andb_true_iff in Hk.
  destruct Hk as [Hq Ha].
  split; [reflexivity|].
  split; [apply truthy_nonempty; exact Hq|].
  split; [apply truthy_nonempty; exact Ha|].
  split; apply field_trimmed.
Qed.

(** X3.  Every document [pairs_to_documents] returns is the two-line
    text [Q: q], line feed, [A: a] of a question and an answer that are
    both non-empty and free of white space at either end; and there are
    at most as many documents as elements. *)
Theorem documents_hold_trimmed_fields
  (pairs : list json) (md : list (pystr * pystr)) (docs : list Document) :
  pairs_to_documents pairs md = Ok docs ->
  Forall (fun d => exists q a,
            page_content d = py "Q: " ++ q ++ [NL] ++ py "A: " ++ a /\
            q <> [] /\ a <> [] /\ trimmed q /\ trimmed a) docs /\
  length docs <= length pairs.
Proof.
  intros E. apply pairs_to_documents_ok in E. subst docs. split.
  - apply Forall_forall. intros d Hd. apply in_map_iff in Hd.
    destruct Hd as (pr & <- & Hin). apply filter_In in Hin.
    destruct Hin as [_ Hk].
    exists (field pr "question"), (field pr "answer").
    exact (document_of_fields md pr Hk).
  - rewrite length_map. apply filter_length_le.
Qed.

Lemma documents_hold_trimmed_fields_witness :
  Forall (fun d => exists q a,
            page_content d = py "Q: " ++ q ++ [NL] ++ py "A: " ++ a /\
            q <> [] /\ a <> [] /\ trimmed q /\ trimmed a)
         [mkDocument (py "Q: ok?" ++ [NL] ++ py "A: yes")
            (defect_metadata ++ [(py "question", py "ok?")])].
Proof.
  exact (proj1 (documents_hold_trimmed_fields loose_pairs defect_metadata
                  _ eq_refl)).
Defined.

Lemma dict_get_set_same (V : Type) (d : list (pystr * V)) (key : pystr)
  (v : V) : dict_get (dict_set d key v) key = Some v.
Proof.
  induction d as [|[k x] d IH]; cbn.
  - rewrite str_eqb_refl. reflexivity.
  - destruct (str_eqb k key) eqn:E; cbn; rewrite E; [reflexivity | exact IH].
Qed.

Lemma dict_get_set_other (V : Type) (d : list (pystr * V))
  (key key' : pystr) (v : V) :
  key' <> key -> dict_get (dict_set d key v) key' = dict_get d key'.
Proof.
  intros Hne. induction d as [|[k x] d IH]; cbn.
  - destruct (str_eqb key key') eqn:E; [|reflexivity].
    apply str_eqb_eq in E. congruence.
  - destruct (str_eqb k key) eqn:E; cbn.
    + apply str_eqb_eq in E. subst k.
      destruct (str_eqb key key') eqn:E'; [|reflexivity].
      apply str_eqb_eq in E'. congruence.
    + destruct (str_eqb k key'); [reflexivity | exact IH].
Qed.

(** X4.  In every document [pairs_to_documents] returns, the metadata is
    the metadata given for the pass with the key question set to the
    trimmed question of the content: looking up question gives it (also
    when the pass metadata already had that key), and every other key
    reads as in the pass metadata. *)
Theorem documents_carry_pass_metadata
  (pairs : list json) (md : list (pystr * pystr)) (docs : list Document) :
  pairs_to_documents pairs md = Ok docs ->
  Forall (fun d => exists q a,
            page_content d = py "Q: " ++ q ++ [NL] ++ py "A: " ++ a /\
            dict_get (metadata d) (py "question") = Some q /\
            forall key, key <> py "question" ->
                        dict_get (metadata d) key = dict_get md key) docs.
Proof.
  intros E. apply pairs_to_documents_ok in E. subst docs.
  apply Forall_forall. intros d Hd. apply in_map_iff in Hd.
  destruct Hd as (pr & <- & _).
  exists (field pr "question"), (field pr "answer").
  split; [reflexivity|]. split.
  - apply dict_get_set_same.
  - intros key Hne. apply dict_get_set_other. exact Hne.
Qed.

Lemma documents_carry_pass_metadata_witness :
  Forall (fun d => exists q a,
            page_content d = py "Q: " ++ q ++ [NL] ++ py "A: " ++ a /\
            dict_get (metadata d) (py "question") = Some q /\
            forall key, key <> py "question" ->
                        dict_get (metadata d) key
                        = dict_get [(py "question", py "stale")] key)
         [mkDocument (py "Q: ok?" ++ [NL] ++ py "A: yes")
            [(py "question", py "ok?")]].
Proof.
  exact (documents_carry_pass_metadata loose_pairs
           [(py "question", py "stale")] _ eq_refl).
Defined.

Lemma pairs_to_documents_raises_iff_witness :
  pairs_to_documents
    [JObject [(py "question", JString (py "q")); (py "answer", JString (py "a"))];
     JObject [(py "question", JString (py "q")); (py "answer", JNull)]]
    defect_metadata
  = Raise AttributeError.
Proof.
  apply (proj2 (proj1 (pairs_to_documents_raises_iff _ defect_metadata))).
  exists (JObject [(py "question", JString (py "q")); (py "answer", JNull)]).
  split; [right; left; reflexivity | reflexivity].
Defined.

(* ===================================================================== *)
(** ** What _call_llm can raise *)
(* ===================================================================== *)







(* ===================================================================== *)
(** ** What ingest can raise, and when *)
(* ===================================================================== *)







(** What the generation phase does, according to the key and the
    files. *)
Lemma generate_cases (w : World) (st : State) :
  (~ key_is_set st /\ generate w st = (Raise RuntimeError, st)) \/
  (key_is_set st /\ exists e, load_all st = (Raise e, st) /\
                              generate w st = (Raise e, st)) \/
  (key_is_set st /\ exists L, load_all st = (Ok L, st) /\
                              generate w st
                              = run_passes w (pass_table w L) [] st).
Proof.
  unfold generate, bind, getenv_api_key, key_is_set.
  destruct (GROQ_API_KEY st) as [[|c key]|] eqn:K.
  - left. split; [intros (c & key & H); discriminate | reflexivity].
  - right. pose proof (load_all_state st) as HL.
    destruct (load_all st) as [[L|e] st0]; cbn [snd] in HL; subst st0.
    + right. split; [eauto|]. exists L. split; reflexivity.
    + left. split; [eauto|]. exists e. split; reflexivity.
  - left. split; [intros (c & key & H); discriminate | reflexivity].
Qed.




(** X8.  A run of [ingest] requests at most seven completions, and
    exactly seven when it returns; its rebuild phase requests none. *)
Theorem ingest_requests_seven_completions (w : World) (st : State) :
  llm_calls (snd (ingest w st)) <= llm_calls st + 7 /\
  (forall docs, fst (ingest w st) = Ok docs ->
     llm_calls (snd (ingest w st)) = llm_calls st + 7) /\
  (forall docs st1, llm_calls (snd (commit w docs st1)) = llm_calls st1).
Proof.
  assert (Hc : forall docs st1,
             llm_calls (snd (commit w docs st1)) = llm_calls st1).
  { intros docs st1. rewrite commit_run. cbv zeta.
    destruct (CHROMA_DIR st1), (hf_embeddings_load w),
      (chroma_from_documents w docs); reflexivity. }
  pose proof (generate_frame w st) as (_ & Hle & Heq).
  rewrite ingest_phases. unfold bind.
  destruct (generate w st) as [[d|e] st1]; cbn [fst snd] in *.
  - specialize (Heq d eq_refl). rewrite Hc.
    split; [lia|]. split; [intros; lia | exact Hc].
  - split; [exact Hle|]. split; [discriminate | exact Hc].
Qed.

(** X9.  When the seven passes have returned and the embedding model
    then fails to load, [ingest] raises with the persisted collection
    already deleted and nothing written in its place. *)
Theorem embeddings_failure_loses_index
  (w : World) (st : State) (docs : list Document) (st1 : State) :
  generate w st = (Ok docs, st1) ->
  hf_embeddings_load w = false ->
  fst (ingest w st) = Raise EmbeddingsError /\
  CHROMA_DIR (snd (ingest w st)) = None /\
  (forall old, CHROMA_DIR st = Some old ->
     trace (snd (ingest w st)) = trace st1 ++ [EvRmtree]) /\
  ~ In (EvFromDocuments docs) (skipn (length (trace st1))
                                     (trace (snd (ingest w st)))).
Proof.
  intros G H.
  pose proof (generate_frame w st) as (F & _). rewrite G in F.
  destruct F as (_ & _ & C & _). cbn [snd] in C.
  rewrite ingest_phases. unfold bind. rewrite G, commit_run. cbv zeta.
  rewrite H. cbn [fst snd]. split; [reflexivity|].
  destruct (CHROMA_DIR st1) as [idx|] eqn:C1; cbn [CHROMA_DIR trace].
  - split; [reflexivity|]. split; [reflexivity|].
    rewrite skipn_length_app. intros [E|[]]. discriminate E.
  - split; [exact C1|]. split; [intros old E; congruence|].
    rewrite skipn_all. intros [].
Qed.

Lemma embeddings_failure_loses_index_witness :
  fst (ingest no_embeddings_world (fresh_state six_files (Some old_index)))
  = Raise EmbeddingsError /\
  CHROMA_DIR (snd (ingest no_embeddings_world
                          (fresh_state six_files (Some old_index)))) = None.
Proof.
  destruct (generate no_embeddings_world
              (fresh_state six_files (Some old_index)))
    as [[docs|e] st1] eqn:G.
  - destruct (embeddings_failure_loses_index _ _ _ _ G eq_refl)
      as (E & C & _).
    split; [exact E | exact C].
  - vm_compute in G. discriminate G.
Defined.

(* ===================================================================== *)
(** ** The documents of a run *)
(* ===================================================================== *)

Lemma qa_pass_docs (w : World) (job : option pystr * list (pystr * pystr))
  (st : State) (docs : list Document) :
  fst (qa_pass w job st) = Ok docs ->
  Forall (fun d => exists pr, d = document_of (snd job) pr) docs.
Proof.
  unfold qa_pass, bind, or_raise.
  destruct (fst job) as [prompt|]; cbn [ret raise]; [|discriminate].
  destruct (_call_llm w prompt st) as [[pairs|e] st1]; [|discriminate].
  unfold lift. cbn [fst]. intros E. apply pairs_to_documents_ok in E.
  subst docs. apply Forall_forall. intros d Hd. apply in_map_iff in Hd.
  destruct Hd as (pr & <- & _). exists pr. reflexivity.
Qed.

Lemma run_passes_docs (w : World)
  (jobs : list (option pystr * list (pystr * pystr)))
  (acc : list Document) (st : State) (docs : list Document) :
  fst (run_passes w jobs acc st) = Ok docs ->
  exists new, docs = acc ++ new /\
    Forall (fun d => exists job pr, In job jobs /\
                                    d = document_of (snd job) pr) new.
Proof.
  revert acc st; induction jobs as [|job jobs IH]; intros acc st.
  - cbn. intros E; inversion E; subst. exists []. rewrite app_nil_r.
    split; [reflexivity | constructor].
  - cbn [run_passes]. unfold bind.
    pose proof (qa_pass_docs w job st) as Hj.
    destruct (qa_pass w job st) as [[d|e] st1]; cbn [fst] in *;
      [|discriminate].
    intros E. destruct (IH _ _ E) as (new & -> & Hnew).
    exists (d ++ new). split; [rewrite app_assoc; reflexivity|].
    apply Forall_app. split.
    + eapply Forall_impl; [|exact (Hj d eq_refl)].
      intros x (pr & ->). exists job, pr. split; [left; reflexivity|].
      reflexivity.
    + eapply Forall_impl; [|exact Hnew].
      intros x (j & pr & Hin & ->). exists j, pr. split; [right; exact Hin|].
      reflexivity.
Qed.

Lemma commit_returns (w : World) (docs docs' : list Document) (st : State) :
  fst (commit w docs st) = Ok docs' -> docs' = docs.
Proof.
  rewrite commit_run. cbv zeta.
  destruct (hf_embeddings_load w); [|discriminate].
  destruct (chroma_from_documents w docs); [|discriminate].
  cbn. intros E; inversion E; reflexivity.
Qed.

(** X10.  Every document of a run that returns carries exactly four
    metadata entries, source, doc_type, release and question, in this
    order, and the first three are those of one of the seven passes: a
    loaded file name with its kind and release, or cross_release,
    comparison and all. *)
Theorem ingest_documents_are_tagged (w : World) (st : State)
  (docs : list Document) :
  fst (ingest w st) = Ok docs ->
  exists L, load_all st = (Ok L, st) /\ Forall (tagged_by L) docs.
Proof.
  rewrite ingest_phases. unfold bind.
  destruct (generate_cases w st)
    as [(K & G)|[(K & e' & HL & G)|(K & L & HL & G)]];
    rewrite G; try discriminate.
  pose proof (run_passes_docs w (pass_table w L) [] st) as HD.
  destruct (run_passes w (pass_table w L) [] st) as [[d|e] st1];
    cbn [fst] in *; [|discriminate].
  intros E. apply commit_returns in E. subst docs.
  exists L. split; [exact HL|].
  destruct (HD d eq_refl) as (new & -> & Hnew). cbn [app].
  eapply Forall_impl; [|exact Hnew].
  intros x (job & pr & Hin & ->).
  unfold pass_table in Hin. cbn [In] in Hin. unfold tagged_by, pass_tags.
  destruct Hin as [<-|[<-|[<-|[<-|[<-|[<-|[<-|[]]]]]]]];
    cbn [snd];
    do 3 eexists; exists (field pr "question");
    (split; [|reflexivity]); cbn [In]; tauto.
Qed.

Lemma ingest_documents_are_tagged_witness :
  exists L,
    load_all (fresh_state six_files None) = (Ok L, fresh_state six_files None)
    /\ match fst (ingest (scripted_world (fun _ => Some one_pair_reply))
                         (fresh_state six_files None)) with
       | Ok docs => Forall (tagged_by L) docs
       | Raise _ => False
       end.
Proof.
  destruct (fst (ingest (scripted_world (fun _ => Some one_pair_reply))
                        (fresh_state six_files None))) as [docs|e] eqn:E.
  - exact (ingest_documents_are_tagged _ _ _ E).
  - vm_compute in E. discriminate E.
Defined.

(* ===================================================================== *)
(** ** The new index does not depend on the old one *)
(* ===================================================================== *)













(* ===================================================================== *)
(** ** Queries and triggers while an ingestion runs *)
(* ===================================================================== *)

Lemma flag_follows_update (p : Proc) (i : nat) (c' : pc) (g' : Globals) :
  single_flight p -> flag_follows p ->
  (flag_up c' = true -> _ingest_running g' = true) ->
  (_ingest_running g' = _ingest_running (globals p) \/
   _ingest_running g' = true \/
   holds_lock (threads p i) = true) ->
  flag_follows (mkProc g' (set_thread (threads p) i c')).
Proof.
  intros (Hex & _) F A B j Hj. cbn [globals threads] in *.
  destruct (Nat.eq_dec j i) as [->|Hne].
  - rewrite set_thread_same in Hj. apply A. exact Hj.
  - rewrite set_thread_other in Hj by exact Hne.
    destruct B as [->|[->|Hi]]; [exact (F j Hj) | reflexivity |].
    exfalso. apply Hne. apply Hex; [apply flag_up_holds; exact Hj | exact Hi].
Qed.

Lemma flag_follows_step (w : World) (r : Retrieval) (i : nat) (p : Proc) :
  single_flight p -> flag_follows p -> flag_follows (step w r i p).
Proof.
  intros Inv F. pose proof (F i) as Fi. unfold step.
  destruct (threads p i) eqn:Hi; cbn [flag_up] in Fi;
    try specialize (Fi eq_refl); try exact F;
    [ destruct (_ingest_lock (globals p))
    |
    | destruct (ingest w (sys (globals p))) as [[docs|e] st']
    | destruct (chroma_open r (CHROMA_DIR (sys (globals p))))
    |
    | ];
    (apply flag_follows_update;
     [ exact Inv
     | exact F
     | cbn; intros; first [discriminate | reflexivity | exact Fi]
     | cbn; first [ left; reflexivity
                  | right; left; reflexivity
                  | right; right; rewrite Hi; reflexivity ] ]).
Qed.

Lemma flag_follows_run (w : World) (r : Retrieval) (sched : list nat)
  (p : Proc) :
  single_flight p -> flag_follows p -> flag_follows (run w r sched p).
Proof.
  revert p; induction sched as [|i sched IH]; intros p Inv F; [exact F|].
  cbn [run fold_left]. apply (IH (step w r i p)).
  - apply single_flight_step; exact Inv.
  - apply flag_follows_step; assumption.
Qed.

Lemma query_refused_when_flag_up (r : Retrieval) (g : Globals)
  (request : QueryRequest) :
  _ingest_running g = true ->
  exists detail, query r g request = HTTPException 503 detail.
Proof.
  intros H. unfold query. rewrite H.
  destruct (vectorstore g), (llm g); eexists; reflexivity.
Qed.

(** The flag is up only while the lock is held, and then the flag
    follows the threads. *)
Lemma flag_and_lock_along_runs
  (w : World) (r : Retrieval) (g : Globals) (sched : list nat) :
  flag_follows (run w r sched (boot g)) /\
  (_ingest_running (globals (run w r sched (boot g))) = true ->
   _ingest_lock (globals (run w r sched (boot g))) = true).
Proof.
  assert (Inv : single_flight (run w r sched (boot g)))
    by (apply single_flight_run, single_flight_boot).
  split.
  - apply flag_follows_run; [apply single_flight_boot|].
    intros i H. discriminate H.
  - intros Hr. destruct Inv as (_ & Hlock & _ & Hrun & _).
    destruct (Hrun Hr) as [i Hi].
    apply (Hlock i). apply flag_up_holds. exact Hi.
Qed.

(** X12.  Under every schedule: while some thread is inside [ingest()],
    is reloading the vectorstore or has not yet cleared the flag, every
    query is answered 503; and the flag is never up unless the lock is
    held. *)
Theorem queries_refused_while_ingesting
  (w : World) (r : Retrieval) (g : Globals) (sched : list nat) :
  let p := run w r sched (boot g) in
  (forall i, flag_up (threads p i) = true ->
     forall (rq : Retrieval) (request : QueryRequest),
       exists detail, query rq (globals p) request = HTTPException 503 detail)
  /\
  (_ingest_running (globals p) = true -> _ingest_lock (globals p) = true).
Proof.
  intros p.
  assert (Inv : single_flight p)
    by (apply single_flight_run, single_flight_boot).
  assert (F : flag_follows p).
  { apply flag_follows_run; [apply single_flight_boot|].
    intros i H. discriminate H. }
  split.
  - intros i Hi rq request.
    apply query_refused_when_flag_up. exact (F i Hi).
  - intros Hr. destruct Inv as (_ & Hlock & _ & Hrun & _).
    destruct (Hrun Hr) as [i Hi].
    apply (Hlock i). apply flag_up_holds. exact Hi.
Qed.

Lemma queries_refused_while_ingesting_witness :
  exists detail,
    query echo_retrieval
      (globals (run (scripted_world (fun _ => Some one_pair_reply))
                    echo_retrieval [0; 0] (boot (serving old_index false))))
      (mkQueryRequest (py "how many?") None None 8)
    = HTTPException 503 detail.
Proof.
  exact (proj1 (queries_refused_while_ingesting
                  (scripted_world (fun _ => Some one_pair_reply))
                  echo_retrieval (serving old_index false) [0; 0])
               0 eq_refl echo_retrieval
               (mkQueryRequest (py "how many?") None None 8)).
Defined.

(** X13.  POST /ingest answers 409 only while the lock is held, so that
    a [_run_ingest] started then would be dropped; but an accepted
    trigger may be dropped as well: once a thread has taken the lock and
    before it raises the flag, the handler answers that ingestion has
    started, and the task it adds finds the lock held and returns. *)
Theorem trigger_ingest_may_be_dropped
  (w : World) (r : Retrieval) (g : Globals) :
  (forall (sched : list nat) (detail : pystr),
     trigger_ingest (globals (run w r sched (boot g)))
     = HTTPException 409 detail ->
     _ingest_lock (globals (run w r sched (boot g))) = true /\
     forall i, threads (run w r sched (boot g)) i = AtAcquire ->
               threads (step w r i (run w r sched (boot g))) i = Skipped) /\
  (exists (sched : list nat) (i : nat) (body : pystr),
     trigger_ingest (globals (run w r sched (boot g))) = Http200 body /\
     threads (run w r sched (boot g)) i = AtAcquire /\
     threads (step w r i (run w r sched (boot g))) i = Skipped).
Proof.
  split.
  - intros sched detail E. unfold trigger_ingest in E.
    destruct (_ingest_running (globals (run w r sched (boot g)))) eqn:Hr;
      [|discriminate].
    assert (Hl : _ingest_lock (globals (run w r sched (boot g))) = true)
      by (apply (proj2 (flag_and_lock_along_runs w r g sched));
          exact Hr).
    split; [exact Hl|].
    intros i Hi. unfold step. rewrite Hi, Hl. cbn. apply set_thread_same.
  - exists [0], 1. eexists. split; [reflexivity|]. split; reflexivity.
Qed.

(* ===================================================================== *)
(** ** The file watcher and the files ingest loads *)
(* ===================================================================== *)

Lemma startswith_app (s t p : pystr) :
  startswith s p = true -> startswith (s ++ t) p = true.
Proof.
  revert s; induction p as [|y p IH]; intros s H;
    [destruct s, t; reflexivity|].
  destruct s as [|x s]; [discriminate|]. cbn in *.
  apply andb_true_iff in H. destruct H as [-> H]. cbn. apply IH. exact H.
Qed.

Lemma endswith_app (s t suffix : pystr) :
  endswith t suffix = true -> endswith (s ++ t) suffix = true.
Proof.
  unfold endswith. rewrite rev_app_distr. apply startswith_app.
Qed.

(** X14.  Every file that [load] can select for some pattern is a file
    whose creation or modification makes the watcher submit
    [_run_ingest]: the watcher reacts to every path ending in [.xlsx]
    that is not a directory, and a name matched by a pattern ends so. *)
Theorem watcher_covers_loadable_files
  (name dir fn : pystr) (event : FileSystemEvent) :
  glob_match name fn = true ->
  is_directory event = false ->
  src_path event = dir ++ py "/" ++ fn ->
  _handle event = true.
Proof.
  intros Hg Hd Hp. unfold _handle. rewrite Hd, Hp. cbn [negb andb].
  unfold glob_match in Hg. apply andb_true_iff in Hg. destruct Hg as [He _].
  rewrite app_assoc. apply endswith_app. exact He.
Qed.

Lemma watcher_covers_loadable_files_witness :
  _handle (mkFileSystemEvent false (py "/app/docs/QA_ReleaseA_Defects.xlsx"))
  = true.
Proof.
  exact (watcher_covers_loadable_files
           (py "ReleaseA_Defects") (py "/app/docs")
           (py "QA_ReleaseA_Defects.xlsx")
           (mkFileSystemEvent false (py "/app/docs/QA_ReleaseA_Defects.xlsx"))
           eq_refl eq_refl eq_refl).
Defined.

Ltac same_load st st' H :=
  match goal with
  | |- context [load ?n st] =>
      rewrite (load_spec n st), (load_spec n st'),
              <- (H n ltac:(cbn; tauto));
      cbv beta iota;
      let f := fresh "f" in
      destruct (matching n st) as [|f ?]; [reflexivity|];
      destruct (fdata f); [|reflexivity]
  end.

(** What [load_all] returns depends on the docs directory only through
    the matches of the six patterns. *)
Lemma load_all_by_matches (st st' : State) :
  (forall name, In name dataset_names ->
                matching name st = matching name st') ->
  fst (load_all st) = fst (load_all st').
Proof.
  intros H. unfold load_all, bind, ret.
  do 6 (same_load st st' H). reflexivity.
Qed.

Lemma ignores_docs_ret (A : Type) (a : A) : ignores_docs (ret a).
Proof. intros d st. reflexivity. Qed.

Lemma ignores_docs_raise (A : Type) (e : exn) : ignores_docs (@raise A e).
Proof. intros d st. reflexivity. Qed.

Lemma ignores_docs_lift (A : Type) (r : result A) : ignores_docs (lift r).
Proof. intros d st. reflexivity. Qed.

Lemma ignores_docs_bind (A B : Type) (m : M A) (k : A -> M B) :
  ignores_docs m -> (forall a, ignores_docs (k a)) ->
  ignores_docs (bind m k).
Proof.
  intros Hm Hk d st. unfold bind. rewrite Hm.
  destruct (m st) as [[a|e] st1]; cbn [fst snd]; [apply Hk | reflexivity].
Qed.

Lemma ignores_docs_call_llm (w : World) (prompt : pystr) :
  ignores_docs (_call_llm w prompt).
Proof.
  unfold _call_llm. apply ignores_docs_bind.
  - intros d st. unfold chat_completion. cbn [llm_calls with_docs].
    destruct (groq_reply w (llm_calls st) prompt); reflexivity.
  - intros content. cbv zeta. destruct (_ || _)%bool.
    + apply ignores_docs_bind; [|intros; apply ignores_docs_ret].
      intros d st. reflexivity.
    + apply ignores_docs_bind; [apply ignores_docs_lift|].
      intros v. apply ignores_docs_lift.
Qed.

Lemma ignores_docs_qa_pass (w : World)
  (job : option pystr * list (pystr * pystr)) :
  ignores_docs (qa_pass w job).
Proof.
  unfold qa_pass. apply ignores_docs_bind.
  - unfold or_raise. destruct (fst job);
      [apply ignores_docs_ret | apply ignores_docs_raise].
  - intros prompt. apply ignores_docs_bind;
      [apply ignores_docs_call_llm | intros; apply ignores_docs_lift].
Qed.

Lemma ignores_docs_run_passes (w : World)
  (jobs : list (option pystr * list (pystr * pystr)))
  (acc : list Document) :
  ignores_docs (run_passes w jobs acc).
Proof.
  revert acc; induction jobs as [|job jobs IH]; intros acc;
    cbn [run_passes]; [apply ignores_docs_ret|].
  apply ignores_docs_bind; [apply ignores_docs_qa_pass|].
  intros d. apply IH.
Qed.

Lemma ignores_docs_commit (w : World) (all_docs : list Document) :
  ignores_docs (commit w all_docs).
Proof.
  unfold commit. apply ignores_docs_bind.
  - intros d st. unfold clear_chroma. cbn [CHROMA_DIR with_docs].
    destruct (CHROMA_DIR st); reflexivity.
  - intros _. apply ignores_docs_bind.
    + unfold load_embeddings. destruct (hf_embeddings_load w);
        [apply ignores_docs_ret | apply ignores_docs_raise].
    + intros _. apply ignores_docs_bind; [|intros; apply ignores_docs_ret].
      intros d st. unfold from_documents. cbn [CHROMA_DIR with_docs].
      destruct (chroma_from_documents w all_docs); reflexivity.
Qed.

(** [ingest] reads the docs directory only while loading. *)
Lemma ingest_after_loading (w : World) (st : State) :
  ingest w st =
  match GROQ_API_KEY st with
  | None | Some [] => (Raise RuntimeError, st)
  | Some (_ :: _) =>
      match fst (load_all st) with
      | Ok L => bind (run_passes w (pass_table w L) []) (commit w) st
      | Raise e => (Raise e, st)
      end
  end.
Proof.
  rewrite ingest_phases. unfold generate, getenv_api_key, raise.
  unfold bind at 1 2.
  destruct (GROQ_API_KEY st) as [[|c key]|]; try reflexivity.
  unfold bind at 1. pose proof (load_all_state st) as Hs.
  destruct (load_all st) as [[Ld|e] st1]; cbn [fst snd] in *; subst st1;
    reflexivity.
Qed.

(** X15.  Files of the docs directory that none of the six patterns
    matches never change an ingestion: with or without them, [ingest]
    returns the same documents or raises the same exception, and it
    persists the same collection. *)
Theorem unrelated_files_do_not_matter
  (w : World) (st : State) (before extra after : list File) :
  (forall f name, In f extra -> In name dataset_names ->
                  glob_match (py name) (fname f) = false) ->
  fst (ingest w (with_docs (before ++ extra ++ after) st))
  = fst (ingest w (with_docs (before ++ after) st)) /\
  CHROMA_DIR (snd (ingest w (with_docs (before ++ extra ++ after) st)))
  = CHROMA_DIR (snd (ingest w (with_docs (before ++ after) st))).
Proof.
  intros H.
  assert (L : fst (load_all (with_docs (before ++ extra ++ after) st))
              = fst (load_all (with_docs (before ++ after) st))).
  { apply load_all_by_matches. intros name Hin.
    unfold matching. cbn [DOCS_DIR with_docs].
    rewrite !filter_app.
    replace (filter (fun f => glob_match (py name) (fname f)) extra)
      with (@nil File); [reflexivity|].
    symmetry. clear - H Hin. induction extra as [|f extra IH]; [reflexivity|].
    cbn [filter]. rewrite (H f name (or_introl eq_refl) Hin).
    apply IH. intros f' n' Hf'. apply H. right; exact Hf'. }
  rewrite !ingest_after_loading, L. cbn [GROQ_API_KEY with_docs].
  destruct (GROQ_API_KEY st) as [[|c key]|]; try (split; reflexivity).
  destruct (fst (load_all (with_docs (before ++ after) st))) as [Ld|e];
    [|split; reflexivity].
  assert (I : ignores_docs (bind (run_passes w (pass_table w Ld) [])
                                 (commit w))).
  { apply ignores_docs_bind;
      [apply ignores_docs_run_passes | apply ignores_docs_commit]. }
  rewrite !I. cbn [fst snd CHROMA_DIR with_docs]. split; reflexivity.
Qed.

Lemma unrelated_files_do_not_matter_witness :
  fst (ingest (scripted_world (fun _ => Some one_pair_reply))
              (with_docs (firstn 2 six_files ++ [unrelated_file]
                          ++ skipn 2 six_files)
                         (fresh_state [] None)))
  = fst (ingest (scripted_world (fun _ => Some one_pair_reply))
                (with_docs six_files (fresh_state [] None))).
Proof.
  refine (proj1 (unrelated_files_do_not_matter
                   (scripted_world (fun _ => Some one_pair_reply)) (fresh_state [] None)
                   (firstn 2 six_files) [unrelated_file]
                   (skipn 2 six_files) _)).
  intros f name [<-|[]] Hin. cbn in Hin.
  destruct Hin as [<-|[<-|[<-|[<-|[<-|[<-|[]]]]]]]; reflexivity.
Defined.

(* ===================================================================== *)
(** ** GET /debug *)
(* ===================================================================== *)

Lemma nth_error_enumerate (A : Type) (l : list A) (i : Z) (n : nat) :
  nth_error (enumerate i l) n
  = option_map (fun x => ((i + Z.of_nat n)%Z, x)) (nth_error l n).
Proof.
  revert i n; induction l as [|x l IH]; intros i [|n]; cbn [enumerate nth_error option_map];
    try reflexivity.
  - rewrite Z.add_0_r. reflexivity.
  - rewrite IH. destruct (nth_error l n); cbn; [|reflexivity].
    do 2 f_equal. lia.
Qed.

Lemma length_enumerate (A : Type) (l : list A) (i : Z) :
  length (enumerate i l) = length l.
Proof.
  revert i; induction l as [|x l IH]; intros i; cbn; [reflexivity|].
  rewrite IH. reflexivity.
Qed.

(** X16.  GET /debug answers 503 exactly when the vectorstore handle is
    not set; it looks neither at the ingestion flag nor at the LLM
    handle.  Otherwise it reports the size of the opened collection and
    one entry per retrieved document, in retrieval order, ranked from 1
    without gaps, each with the metadata and the content of its
    document. *)
Theorem debug_ranks_retrieved_documents
  (r : Retrieval) (g : Globals) (q : pystr) :
  ((exists detail, debug r g q = HTTPException 503 detail)
   <-> vectorstore g = None) /\
  (forall store docs,
     vectorstore g = Some store ->
     similarity_search r store q (mkSearchKwargs 8 None) = Some docs ->
     exists resp,
       debug r g q = Http200 resp /\
       total_docs_in_db resp = Z.of_nat (length store) /\
       queried resp = q /\
       length (retrieved resp) = length docs /\
       forall n d, nth_error docs n = Some d ->
         nth_error (retrieved resp) n
         = Some (mkRetrievedEntry (Z.of_nat n + 1)
                                  (metadata d) (page_content d))).
Proof.
  split.
  - unfold debug. destruct (vectorstore g) as [store|].
    + split; [|discriminate]. intros (detail & E).
      destruct (similarity_search r store q _); discriminate E.
    + split; [reflexivity | intros _; eexists; reflexivity].
  - intros store docs Hv Hs. unfold debug. rewrite Hv, Hs.
    eexists. split; [reflexivity|]. cbn [total_docs_in_db queried retrieved].
    split; [reflexivity|]. split; [reflexivity|].
    split; [rewrite length_map; apply length_enumerate|].
    intros n d Hn. rewrite nth_error_map, nth_error_enumerate, Hn.
    reflexivity.
Qed.

Lemma debug_ranks_retrieved_documents_witness :
  exists resp,
    debug echo_retrieval (serving two_docs true) (py "anything")
    = Http200 resp /\
    map rank (retrieved resp) = [1; 2]%Z.
Proof.
  destruct (proj2 (debug_ranks_retrieved_documents echo_retrieval
                     (serving two_docs true) (py "anything"))
                  two_docs two_docs eq_refl eq_refl)
    as (resp & E & _).
  exists resp. split; [exact E|].
  vm_compute in E. inversion E. reflexivity.
Defined.

(* ===================================================================== *)
(** ** Startup *)
(* ===================================================================== *)

(** X17.  When an index exists at startup, [lifespan] runs no ingestion:
    whatever else happens, nothing is asked of the model and nothing is
    written; and when the startup completes, the vectorstore is opened on
    that index and the LLM handle is set. *)
Theorem startup_keeps_existing_index
  (w : World) (r : Retrieval) (chat_groq : bool) (g : Globals)
  (c : list Document) :
  CHROMA_DIR (sys g) = Some c ->
  sys (snd (startup w r chat_groq g)) = sys g /\
  (fst (startup w r chat_groq g) = Ok tt ->
   vectorstore (snd (startup w r chat_groq g)) = Some c /\
   llm (snd (startup w r chat_groq g)) = true).
Proof.
  intros Hc. unfold startup. rewrite Hc.
  destruct (GROQ_API_KEY (sys g)) as [[|x key]|];
    try (split; [reflexivity | discriminate]).
  destruct (hf_embeddings_load w); [|split; [reflexivity | discriminate]].
  rewrite Hc.
  destruct (chroma_open r (Some c)); [|split; [reflexivity | discriminate]].
  destruct chat_groq; cbn [fst snd sys vectorstore llm opened];
    (split; [reflexivity|]); [|discriminate].
  intros _. split; reflexivity.
Qed.

Lemma startup_keeps_existing_index_witness :
  sys (snd (startup (scripted_world (fun _ => Some one_pair_reply))
                    echo_retrieval true (cold (Some old_index))))
  = fresh_state six_files (Some old_index) /\
  vectorstore (snd (startup (scripted_world (fun _ => Some one_pair_reply))
                            echo_retrieval true (cold (Some old_index))))
  = Some old_index.
Proof.
  destruct (startup_keeps_existing_index
              (scripted_world (fun _ => Some one_pair_reply))
              echo_retrieval true (cold (Some old_index)) old_index eq_refl)
    as [Hs Hok].
  split; [exact Hs | exact (proj1 (Hok eq_refl))].
Defined.

(** X18.  When no index exists at startup, [lifespan] runs [ingest]
    first.  If that raises, the startup raises (the same exception, or
    the one of the embedding model it loads before) and both handles stay
    as they were; if the startup completes, [ingest] returned and the
    vectorstore is opened on the collection it has just persisted. *)
Theorem startup_builds_missing_index
  (w : World) (r : Retrieval) (chat_groq : bool) (g : Globals) :
  CHROMA_DIR (sys g) = None ->
  (forall e, fst (ingest w (sys g)) = Raise e ->
     (fst (startup w r chat_groq g) = Raise e \/
      fst (startup w r chat_groq g) = Raise EmbeddingsError) /\
     vectorstore (snd (startup w r chat_groq g)) = vectorstore g /\
     llm (snd (startup w r chat_groq g)) = llm g) /\
  (fst (startup w r chat_groq g) = Ok tt ->
   exists docs,
     fst (ingest w (sys g)) = Ok docs /\
     sys (snd (startup w r chat_groq g)) = snd (ingest w (sys g)) /\
     CHROMA_DIR (sys (snd (startup w r chat_groq g))) = Some docs /\
     vectorstore (snd (startup w r chat_groq g)) = Some docs /\
     llm (snd (startup w r chat_groq g)) = true).
Proof.
  intros Hc. split.
  - intros e He. unfold startup. rewrite Hc.
    destruct (GROQ_API_KEY (sys g)) as [[|x key]|] eqn:K.
    + rewrite ingest_after_loading, K in He. cbn in He.
      inversion He; subst e. split; [left; reflexivity | split; reflexivity].
    + destruct (hf_embeddings_load w);
        [|split; [right; reflexivity | split; reflexivity]].
      destruct (ingest w (sys g)) as [[docs|e'] st']; cbn [fst] in He;
        [discriminate|]. inversion He; subst e'.
      split; [left; reflexivity | split; reflexivity].
    + rewrite ingest_after_loading, K in He. cbn in He.
      inversion He; subst e. split; [left; reflexivity | split; reflexivity].
  - unfold startup. rewrite Hc.
    destruct (GROQ_API_KEY (sys g)) as [[|x key]|]; try discriminate.
    destruct (hf_embeddings_load w); [|discriminate].
    destruct (ingest w (sys g)) as [[docs|e'] st'] eqn:I; [|discriminate].
    pose proof (ingest_ok_chroma w (sys g) st' docs I) as Hd.
    rewrite Hd.
    destruct (chroma_open r (Some docs)); [|discriminate].
    destruct chat_groq; [|discriminate].
    intros _. exists docs. cbn [fst snd sys vectorstore llm opened].
    repeat split; try reflexivity. exact Hd.
Qed.

Lemma startup_builds_missing_index_witness :
  exists docs,
    fst (ingest (scripted_world (fun _ => Some one_pair_reply))
                (fresh_state six_files None)) = Ok docs /\
    vectorstore (snd (startup (scripted_world (fun _ => Some one_pair_reply))
                              echo_retrieval true (cold None)))
    = Some docs /\
    length docs = 7.
Proof.
  destruct (proj2 (startup_builds_missing_index
                     (scripted_world (fun _ => Some one_pair_reply))
                     echo_retrieval true (cold None) eq_refl))
    as (docs & Hi & _ & _ & Hv & _).
  - vm_compute. reflexivity.
  - exists docs. split; [exact Hi|]. split; [exact Hv|].
    vm_compute in Hi. inversion Hi. reflexivity.
Defined.

(* ===================================================================== *)
(** ** The handles while ingestions run *)
(* ===================================================================== *)

Lemma ready_step (w : World) (r : Retrieval) (i : nat) (p : Proc) :
  ready (globals p) -> ready (globals (step w r i p)).
Proof.
  intros [Hv Hl]. unfold step.
  destruct (threads p i);
    try destruct (_ingest_lock (globals p));
    try destruct (ingest w (sys (globals p))) as [[docs'|e] st'];
    try destruct (chroma_open r (CHROMA_DIR (sys (globals p))));
    cbn [globals vectorstore llm]; split;
    first [exact Hv | exact Hl | discriminate].
Qed.

Lemma ready_run (w : World) (r : Retrieval) (sched : list nat) (p : Proc) :
  ready (globals p) -> ready (globals (run w r sched p)).
Proof.
  revert p; induction sched as [|i sched IH]; intros p H; [exact H|].
  cbn [run fold_left]. apply (IH (step w r i p)). apply ready_step. exact H.
Qed.

(** X19.  Background ingestions never take the service down: once both
    handles are set they stay set however the [_run_ingest] threads run
    and whether their ingestions succeed or fail, so from then on [query]
    answers 503 only while the ingestion flag is up, and GET /debug never
    does. *)
Theorem service_stays_ready
  (w : World) (r : Retrieval) (sched : list nat) (p : Proc) :
  vectorstore (globals p) <> None ->
  llm (globals p) = true ->
  vectorstore (globals (run w r sched p)) <> None /\
  llm (globals (run w r sched p)) = true /\
  (forall request detail,
     query r (globals (run w r sched p)) request = HTTPException 503 detail ->
     _ingest_running (globals (run w r sched p)) = true) /\
  (forall q detail,
     debug r (globals (run w r sched p)) q <> HTTPException 503 detail).
Proof.
  intros Hv Hl.
  destruct (ready_run w r sched p (conj Hv Hl)) as [Hv' Hl'].
  split; [exact Hv' | split; [exact Hl' | split]].
  - intros request detail. unfold query. rewrite Hl'.
    destruct (vectorstore (globals (run w r sched p))) as [store|];
      [|contradiction].
    destruct (_ingest_running (globals (run w r sched p)));
      [reflexivity|].
    destruct (similarity_search r store _ _); [|discriminate].
    destruct (chain_invoke r _ _); discriminate.
  - intros q detail. unfold debug.
    destruct (vectorstore (globals (run w r sched p))) as [store|];
      [|contradiction].
    destruct (similarity_search r store q _); discriminate.
Qed.

Lemma service_stays_ready_witness :
  vectorstore (globals (run no_embeddings_world echo_retrieval [0; 0; 0; 0; 0]
                            (boot (serving old_index false))))
  <> None /\
  llm (globals (run no_embeddings_world echo_retrieval [0; 0; 0; 0; 0]
                    (boot (serving old_index false)))) = true.
Proof.
  destruct (service_stays_ready no_embeddings_world echo_retrieval
              [0; 0; 0; 0; 0] (boot (serving old_index false)))
    as (Hv & Hl & _).
  - discriminate.
  - reflexivity.
  - split; [exact Hv | exact Hl].
Defined.

Lemma handle_from_update (w : World) (v0 : option (list Document))
  (p : Proc) (i : nat) (c' : pc) (g' : Globals) :
  handle_from w v0 p ->
  (vectorstore g' = vectorstore (globals p) \/
   exists docs, vectorstore g' = Some docs /\ ingested w docs) ->
  (forall docs, c' = AtReload docs -> ingested w docs) ->
  handle_from w v0 (mkProc g' (set_thread (threads p) i c')).
Proof.
  intros [Hv Hr] Hg Hc. split; cbn [globals threads].
  - destruct Hg as [Hg|Hg]; [rewrite Hg; exact Hv | right; exact Hg].
  - intros j docs. unfold set_thread.
    destruct (Nat.eqb j i); [apply Hc | apply Hr].
Qed.

Lemma handle_from_step (w : World) (r : Retrieval)
  (v0 : option (list Document)) (i : nat) (p : Proc) :
  single_flight p -> handle_from w v0 p -> handle_from w v0 (step w r i p).
Proof.
  intros Inv H. pose proof Inv as (_ & _ & _ & _ & Hrel).
  pose proof H as [_ Hr]. unfold step.
  destruct (threads p i) eqn:Hi; try exact H.
  - destruct (_ingest_lock (globals p)); apply handle_from_update;
      try exact H; try (left; reflexivity); intros; discriminate.
  - apply handle_from_update;
      try exact H; try (left; reflexivity); intros; discriminate.
  - destruct (ingest w (sys (globals p))) as [[docs'|e] st'] eqn:I;
      apply handle_from_update; try exact H; try (left; reflexivity).
    + intros d E. inversion E; subst d. exists (sys (globals p)), st'.
      exact I.
    + intros; discriminate.
  - destruct (chroma_open r (CHROMA_DIR (sys (globals p))));
      apply handle_from_update; try exact H;
      try (intros; discriminate); [|left; reflexivity].
    right. exists docs. cbn [vectorstore].
    rewrite (Hrel i docs Hi). split; [reflexivity | exact (Hr i docs Hi)].
  - apply handle_from_update;
      try exact H; try (left; reflexivity); intros; discriminate.
  - apply handle_from_update;
      try exact H; try (left; reflexivity); intros; discriminate.
Qed.

(** X20.  However the triggers interleave, the vectorstore handle of the
    running server is the one it started with or a list that some call of
    [ingest] returned in full: [_run_ingest] reloads only after [ingest]
    returned, so the handle is never opened by it on the remains of a
    failed run. *)
Theorem handle_moves_only_to_ingested
  (w : World) (r : Retrieval) (g : Globals) (sched : list nat) :
  vectorstore (globals (run w r sched (boot g))) = vectorstore g \/
  exists docs,
    vectorstore (globals (run w r sched (boot g))) = Some docs /\
    ingested w docs.
Proof.
  assert (G : forall p, single_flight p -> handle_from w (vectorstore g) p ->
                        handle_from w (vectorstore g) (run w r sched p)).
  { induction sched as [|i sched IH]; intros p Inv H; [exact H|].
    cbn [run fold_left]. apply (IH (step w r i p)).
    - apply single_flight_step; exact Inv.
    - apply handle_from_step; assumption. }
  apply (G (boot g)).
  - apply single_flight_boot.
  - split; [left; reflexivity | intros i docs E; discriminate E].
Qed.

(* ===================================================================== *)
(** ** debug_query.py against the query endpoint *)
(* ===================================================================== *)

Lemma ignore_placeholder_other (v : option pystr) :
  v <> Some (py "string") -> ignore_placeholder v = v.
Proof.
  intros H. destruct v as [s|]; [|reflexivity]. unfold ignore_placeholder.
  destruct (str_eqb s (py "string")) eqn:E; [|reflexivity].
  apply str_eqb_eq in E. subst s. contradiction.
Qed.

Lemma debug_context_is_query_context (Score : Type)
  (results : list (Document * Score)) :
  debug_context results = context_of (map fst results).
Proof.
  destruct results as [|ds results]; [reflexivity|].
  unfold debug_context, context_of. cbn [map]. rewrite map_map. reflexivity.
Qed.

(** X21.  When [debug_query] gets to its report, the collection is not
    empty, the total it prints is the size of the collection, and the
    context it prints is the one [query] builds from the same documents.
    So whenever the endpoint serves that collection, neither argument is
    the Swagger placeholder and the two searches retrieve the same
    documents, the script shows exactly the context that the endpoint
    sends to the model, and the endpoint's sources are the documents the
    script lists. *)
Theorem debug_script_shows_query_context
  (Score : Type) (sv : Services Score) (r : Retrieval) (g : Globals)
  (collection : list Document) (q : pystr) (rel dt : option pystr) (n : Z)
  (total : nat) (results : list (Document * Score)) (ctx : pystr) :
  debug_query sv (Some collection) q rel dt n = Report total results ctx ->
  total = length collection /\
  collection <> [] /\
  similarity_search_with_score sv collection q
    (mkSearchKwargs n (debug_query_where rel dt)) = Some results /\
  ctx = context_of (map fst results) /\
  (vectorstore g = Some collection -> llm g = true ->
   _ingest_running g = false ->
   rel <> Some (py "string") -> dt <> Some (py "string") ->
   similarity_search r collection q
     (mkSearchKwargs n (debug_query_where rel dt)) = Some (map fst results) ->
   query r g (mkQueryRequest q rel dt n)
   = match chain_invoke r ctx q with
     | None => Unhandled GroqError
     | Some a => Http200 (mkQueryResponse a (map to_source (map fst results)))
     end).
Proof.
  unfold debug_query.
  destruct (embeddings_load sv); [|discriminate].
  destruct (store_open sv); [|discriminate].
  destruct collection as [|d0 collection]; [discriminate|].
  cbn [length Nat.eqb].
  destruct (similarity_search_with_score sv _ q _) as [res|] eqn:S;
    [|discriminate].
  intros E. inversion E; subst. clear E.
  split; [reflexivity|]. split; [discriminate|]. split; [reflexivity|].
  split; [apply debug_context_is_query_context|].
  intros Hv Hl Hf Hrel Hdt Hs.
  rewrite (query_available r g (mkQueryRequest q rel dt n) _ Hv Hl Hf).
  cbn [question k]. unfold query_where. cbn [release doc_type].
  rewrite (ignore_placeholder_other rel Hrel),
          (ignore_placeholder_other dt Hdt).
  unfold debug_query_where in Hs. rewrite Hs.
  rewrite debug_context_is_query_context. reflexivity.
Qed.

Lemma debug_script_shows_query_context_witness :
  query echo_retrieval (serving two_docs false)
        (mkQueryRequest (py "how many?") None None 8)
  = Http200 (mkQueryResponse
               (py "Q: one" ++ [NL] ++ py "A: 1" ++ [NL; NL] ++ py "---"
                ++ [NL; NL] ++ py "Q: two" ++ [NL] ++ py "A: 2")
               (map to_source two_docs)).
Proof.
  destruct (debug_script_shows_query_context Z plain_scores echo_retrieval
              (serving two_docs false) two_docs (py "how many?") None None 8
              2 (map (fun d => (d, 0%Z)) two_docs)
              (py "Q: one" ++ [NL] ++ py "A: 1" ++ [NL; NL] ++ py "---"
               ++ [NL; NL] ++ py "Q: two" ++ [NL] ++ py "A: 2")
              eq_refl)
    as (_ & _ & _ & _ & H).
  rewrite H; try reflexivity; discriminate.
Defined.

(** X22.  The script and the endpoint build the same filter from the same
    release and doc_type exactly when neither of the two is the Swagger
    placeholder [string]: the endpoint drops the placeholder, the script
    filters on it. *)
Theorem script_and_endpoint_filters
  (q : pystr) (n : Z) (rel dt : option pystr) :
  debug_query_where rel dt = query_where (mkQueryRequest q rel dt n)
  <-> rel <> Some (py "string") /\ dt <> Some (py "string").
Proof.
  unfold debug_query_where, query_where. cbn [release doc_type].
  split.
  - rewrite !build_where_spec, !nonempty_ignore_placeholder.
    intros E. split; intros ->; cbn in E.
    + destruct (nonempty dt), (supplied dt); cbv in E; congruence.
    + destruct (nonempty rel), (supplied rel); cbv in E; congruence.
  - intros [Hr Hd].
    rewrite (ignore_placeholder_other rel Hr),
            (ignore_placeholder_other dt Hd). reflexivity.
Qed.

(* ===================================================================== *)
(** ** GET /health against the other handlers *)
(* ===================================================================== *)

(** X23.  What GET /health reports predicts the other endpoints:
    [ingest_running] is true exactly when POST /ingest answers 409;
    [chroma_ready] is false exactly when GET /debug answers 503, and
    otherwise [total_docs] is the total that GET /debug reports; and
    [query] answers 503 exactly when [chroma_ready] is false, or
    [ingest_running] is true, or the LLM handle is not set, which
    /health does not show. *)
Theorem health_predicts_handlers
  (r : Retrieval) (g : Globals) (q : pystr) (request : QueryRequest) :
  (ingest_running (health g) = true
   <-> exists detail, trigger_ingest g = HTTPException 409 detail) /\
  (chroma_ready (health g) = false
   <-> exists detail, debug r g q = HTTPException 503 detail) /\
  (forall resp, debug r g q = Http200 resp ->
                total_docs_in_db resp = total_docs (health g)) /\
  ((exists detail, query r g request = HTTPException 503 detail)
   <-> chroma_ready (health g) = false \/
       ingest_running (health g) = true \/ llm g = false).
Proof.
  unfold health, trigger_ingest, debug, query.
  cbn [ingest_running chroma_ready total_docs].
  split; [|split; [|split]].
  - destruct (_ingest_running g); split;
      try reflexivity; try discriminate;
      [intros _; eexists; reflexivity | intros [d E]; discriminate E].
  - destruct (vectorstore g) as [store|]; split;
      try reflexivity; try discriminate;
      [|intros _; eexists; reflexivity].
    intros [d E]. destruct (similarity_search r store q _); discriminate E.
  - intros resp. destruct (vectorstore g) as [store|]; [|discriminate].
    destruct (similarity_search r store q _); [|discriminate].
    intros E. inversion E. reflexivity.
  - destruct (vectorstore g) as [store|], (llm g), (_ingest_running g);
      split; intros H;
      try (eexists; reflexivity);
      try (left; reflexivity);
      try (right; left; reflexivity);
      try (right; right; reflexivity).
    destruct H as [d E].
    destruct (similarity_search r store _ _);
      [destruct (chain_invoke r _ _)|]; discriminate E.
    destruct H as [H|[H|H]]; discriminate H.
Qed.
